(** * A shallow embedding of [src/apps/gemini.py] (ljquan/aitu)

    The script sends images to a chat-completions endpoint, retries the
    managed-client call on quota and timeout errors, and splits the reply
    into text, base64 images and image URLs saved to an output directory.

    Modelling conventions.
    - A Python [str] is a [list ascii] holding its UTF-8 bytes; literals are
      written with [lit].  Character classes of the regular expressions are
      decided on those bytes; [\s] is the ASCII whitespace of Python's
      [str.isspace] (non-ASCII whitespace is not modelled).
    - [str.lower] lowers ASCII letters.
    - Exceptions are an explicit sum: [inl e] is a raised exception.
    - The file system is an association list of written files; whether a
      write succeeds is an oracle [write_ok : str -> bool] on the path.
    - The network (HTTP POST, image download, the managed client) is an
      oracle passed as an argument; so are the reading of the input images,
      [json.loads] and [str()] of values that are not strings.
    - Decoded JSON and the attributes of the managed client's message are
      the values of [pyval]; Python's [in], indexing, [len] and [.get] on
      them are written out with the exception each raises.
    - [save_mixed_content] and the driver record what they print; in
      [call_api_raw] only the outcome is kept. *)

From Stdlib Require Import String Ascii List Bool ZArith QArith Lia.
Import ListNotations.
Open Scope nat_scope.
Open Scope list_scope.

(** ** Strings *)

Definition str := list ascii.

Definition lit (s : string) : str := list_ascii_of_string s.

Definition ascii_eqb (a b : ascii) : bool := Ascii.eqb a b.

Fixpoint str_eqb (a b : str) : bool :=
  match a, b with
  | [], [] => true
  | x :: a', y :: b' => ascii_eqb x y && str_eqb a' b'
  | _, _ => false
  end.

(** [s.startswith(p)] *)
Fixpoint startswith (s p : str) : bool :=
  match p, s with
  | [], _ => true
  | c :: p', d :: s' => ascii_eqb c d && startswith s' p'
  | _ :: _, [] => false
  end.

(** [p in s] for strings *)
Fixpoint contains (s p : str) : bool :=
  match s with
  | [] => startswith [] p
  | _ :: s' => startswith s p || contains s' p
  end.

(** Python's [str.lower] on ASCII letters; the bytes of other characters
    are kept.  Python also lowers non-ASCII letters, but only [U+0130]
    and [U+212A] become text with ASCII letters ([i] followed by [U+0307],
    and [k]), and no keyword the code looks for after [lower()] ends in [i]
    or holds a [k]. *)
Definition lower_char (c : ascii) : ascii :=
  let n := nat_of_ascii c in
  if (65 <=? n) && (n <=? 90) then ascii_of_nat (n + 32) else c.

Definition lower (s : str) : str := map lower_char s.

(** The number of bytes of the UTF-8 sequence that starts with [c]. *)
Definition utf8_len (c : ascii) : nat :=
  let n := nat_of_ascii c in
  if n <? 192 then 1 else if n <? 224 then 2 else if n <? 240 then 3 else 4.

Fixpoint utf8_chars_go (fuel : nat) (s : str) : list str :=
  match fuel with
  | O => []
  | S f =>
      match s with
      | [] => []
      | c :: _ => firstn (utf8_len c) s :: utf8_chars_go f (skipn (utf8_len c) s)
      end
  end.

(** The characters (code points) of a Python [str], each as its UTF-8
    bytes: what iterating over the string yields. *)
Definition utf8_chars (s : str) : list str := utf8_chars_go (length s) s.

(** ** Retry of the managed client: [is_quota_exceeded_error] and
    [call_openai_with_retry] (lines 183-192, 276-322) *)

Definition quota_keywords : list str :=
  [lit "exceeded your current quota"; lit "quota exceeded";
   lit "billing details"; lit "plan and billing"].

Definition is_quota_exceeded_error (error_message : str) : bool :=
  let error_str := lower error_message in
  existsb (fun keyword => contains error_str keyword) quota_keywords.

(** What one call of [client.chat.completions.create] does. *)
Inductive call_outcome (C : Type) :=
| Completed (c : C)
| Failed (error_message : str).
Arguments Completed {C} c.
Arguments Failed {C} error_message.

(** Observable events of the loop: an attempt (its [attempt] index) and a
    [time.sleep(retry_delay)]. *)
Inductive retry_event :=
| Attempt (attempt : Z)
| Sleep (delay : Q).

(** How the call ends: the completion is returned, the caught exception is
    re-raised ([raise]), or the final generic [Exception] of line 322. *)
Inductive retry_result (C : Type) :=
| Returned (c : C)
| Reraised (error_message : str)
| ExhaustedAfter (max_retries : Z).
Arguments Returned {C} c.
Arguments Reraised {C} error_message.
Arguments ExhaustedAfter {C} max_retries.

Section Retry.
Context {C : Type}.
(** [client attempt] is the outcome of the call made at that attempt. *)
Variable client : Z -> call_outcome C.
Variable max_retries : Z.
Variable retry_delay : Q.

(** The [for attempt in range(max_retries)] loop from [attempt] on, with
    [fuel] iterations left. *)
Fixpoint retry_loop (fuel : nat) (attempt : Z)
  : list retry_event * retry_result C :=
  match fuel with
  | O => ([], ExhaustedAfter max_retries)
  | S fuel' =>
      match client attempt with
      | Completed c => ([Attempt attempt], Returned c)
      | Failed error_message =>
          if is_quota_exceeded_error error_message then
            if (attempt <? max_retries - 1)%Z then
              let sleep := if Qle_bool retry_delay 0%Q then []
                           else [Sleep retry_delay] in
              let '(t, r) := retry_loop fuel' (attempt + 1)%Z in
              (Attempt attempt :: sleep ++ t, r)
            else ([Attempt attempt], Reraised error_message)
          else if contains (lower error_message) (lit "timeout")
                  || contains (lower error_message) (lit "timed out") then
            if (attempt <? max_retries - 1)%Z then
              let '(t, r) := retry_loop fuel' (attempt + 1)%Z in
              (Attempt attempt :: t, r)
            else ([Attempt attempt], Reraised error_message)
          else ([Attempt attempt], Reraised error_message)
      end
  end.

Definition call_openai_with_retry : list retry_event * retry_result C :=
  retry_loop (Z.to_nat max_retries) 0.
End Retry.

(** The failure of an attempt is classified quota-exceeded. *)
Definition quota_failure {C} (o : call_outcome C) : bool :=
  match o with
  | Failed m => is_quota_exceeded_error m
  | Completed _ => false
  end.

Definition attempts (t : list retry_event) : nat :=
  length (filter (fun e => match e with Attempt _ => true | Sleep _ => false end) t).

(** Expected trace of [n] attempts from [k] that all fail on quota: an
    attempt, then a sleep only when [retry_delay > 0], and so on; no sleep
    after the last attempt. *)
Fixpoint quota_exhaustion_trace (retry_delay : Q) (n : nat) (k : Z)
  : list retry_event :=
  match n with
  | O => []
  | S O => [Attempt k]
  | S n' =>
      Attempt k
        :: (if Qle_bool retry_delay 0%Q then [] else [Sleep retry_delay])
        ++ quota_exhaustion_trace retry_delay n' (k + 1)%Z
  end.

(** ** Regular expressions of [save_mixed_content] (lines 132-137)

    Both patterns are matched by [re.finditer] on the original [content].
    A matcher takes the remaining text at a position and returns the match
    (whole match, group 1).  [finditer_go] scans left to right; after a
    match it skips the matched characters ([skip]) before trying again. *)

Fixpoint span (p : ascii -> bool) (s : str) : str * str :=
  match s with
  | [] => ([], [])
  | c :: s' => if p c then let '(a, b) := span p s' in (c :: a, b) else ([], s)
  end.

Definition in_range (lo hi : nat) (c : ascii) : bool :=
  (lo <=? nat_of_ascii c) && (nat_of_ascii c <=? hi).

(** [[A-Za-z0-9+/=]] *)
Definition is_b64_char (c : ascii) : bool :=
  in_range 65 90 c || in_range 97 122 c || in_range 48 57 c
  || ascii_eqb c "+" || ascii_eqb c "/" || ascii_eqb c "=".

(** [data:image/[^;]+;base64,([A-Za-z0-9+/=]+)].  [[^;]+] is greedy and
    must be followed by [;], so it takes the whole run of non-[;]
    characters; the payload class is greedy and ends the pattern. *)
Definition match_b64_at (s : str) : option (str * str) :=
  if startswith s (lit "data:image/") then
    let '(x, s2) := span (fun c => negb (ascii_eqb c ";")) (skipn 11 s) in
    match x with
    | [] => None
    | _ :: _ =>
        if startswith s2 (lit ";base64,") then
          let '(p, _) := span is_b64_char (skipn 8 s2) in
          match p with
          | [] => None
          | _ :: _ => Some (lit "data:image/" ++ x ++ lit ";base64," ++ p, p)
          end
        else None
    end
  else None.

(** Python's [\s] on a [str]: the Unicode whitespace characters
    [U+0009]-[U+000D], [U+001C]-[U+0020], [U+0085], [U+00A0], [U+1680],
    [U+2000]-[U+200A], [U+2028], [U+2029], [U+202F], [U+205F] and
    [U+3000], as UTF-8 byte sequences. *)
Definition space_seqs : list str :=
  [["009"]; ["010"]; ["011"]; ["012"]; ["013"];
   ["028"]; ["029"]; ["030"]; ["031"]; ["032"];
   ["194"; "133"]; ["194"; "160"]; ["225"; "154"; "128"];
   ["226"; "128"; "128"]; ["226"; "128"; "129"]; ["226"; "128"; "130"];
   ["226"; "128"; "131"]; ["226"; "128"; "132"]; ["226"; "128"; "133"];
   ["226"; "128"; "134"]; ["226"; "128"; "135"]; ["226"; "128"; "136"];
   ["226"; "128"; "137"]; ["226"; "128"; "138"];
   ["226"; "128"; "168"]; ["226"; "128"; "169"]; ["226"; "128"; "175"];
   ["226"; "129"; "159"]; ["227"; "128"; "128"]]%char.

(** Whether the character at the start of [s] matches [\s]. *)
Definition space_at (s : str) : bool := existsb (startswith s) space_seqs.

(** The greedy run of the class of everything but [\s], [<], [>] and
    the double quote, at the start of [s], in bytes: whole characters,
    each of [utf8_len] bytes. *)
Fixpoint url_run (fuel : nat) (s : str) : nat :=
  match fuel with
  | O => 0
  | S f =>
      match s with
      | [] => 0
      | c :: _ =>
          if space_at s || ascii_eqb c "<" || ascii_eqb c ">" || ascii_eqb c (ascii_of_nat 34)
          then 0
          else utf8_len c + url_run f (skipn (utf8_len c) s)
      end
  end.

(** One letter [p] of the pattern under [re.IGNORECASE], at the start of
    [s]: the number of bytes it matches.  Besides the two ASCII cases,
    [s] also matches [U+017F], and [i] matches [U+0130] and [U+0131]. *)
Definition ci_char_at (p : ascii) (s : str) : option nat :=
  match s with
  | [] => None
  | c :: _ =>
      if ascii_eqb (lower_char c) p then Some 1
      else if ascii_eqb p "s" && startswith s ["197"; "191"]%char then Some 2
      else if ascii_eqb p "i" && (startswith s ["196"; "176"]%char
                                   || startswith s ["196"; "177"]%char) then Some 2
      else None
  end.

(** A literal of the pattern (lower case) under [re.IGNORECASE] at the
    start of [s]: the number of bytes it matches. *)
Fixpoint ci_lit_at (p s : str) : option nat :=
  match p with
  | [] => Some 0
  | c :: p' =>
      match ci_char_at c s with
      | Some k => match ci_lit_at p' (skipn k s) with Some m => Some (k + m) | None => None end
      | None => None
      end
  end.

(** [\.(png|jpg|jpeg|gif)] under [re.IGNORECASE], alternatives tried in
    order: the number of bytes matched. *)
Definition ext_at (s : str) : option nat :=
  match s with
  | c :: s' =>
      if ascii_eqb c "." then
        match ci_lit_at (lit "png") s' with
        | Some k => Some (S k)
        | None =>
            match ci_lit_at (lit "jpg") s' with
            | Some k => Some (S k)
            | None =>
                match ci_lit_at (lit "jpeg") s' with
                | Some k => Some (S k)
                | None =>
                    match ci_lit_at (lit "gif") s' with
                    | Some k => Some (S k)
                    | None => None
                    end
                end
            end
        end
      else None
  | [] => None
  end.

(** Backtracking of the greedy URL-character run: the longest run length [L]
    (from [n] down to 1) after which the extension matches.  A length that
    ends inside a character is never taken: the next byte is then a UTF-8
    continuation byte, not [.]. *)
Fixpoint url_backtrack (s1 : str) (n : nat) : option nat :=
  match n with
  | O => None
  | S n' =>
      match ext_at (skipn (S n') s1) with
      | Some k => Some (S n' + k)
      | None => url_backtrack s1 n'
      end
  end.

(** [https?://] + URL-character run + [\.(png|jpg|jpeg|gif)], with
    [re.IGNORECASE] (line 136).  The greedy [s?] first takes the [s];
    giving it back would need [://] at a place holding [s] (or [U+017F]),
    so only one prefix length is possible. *)
Definition match_url_at (s : str) : option (str * str) :=
  let pre := match ci_lit_at (lit "https://") s with
             | Some k => Some k
             | None => ci_lit_at (lit "http://") s
             end in
  match pre with
  | None => None
  | Some k =>
      let s1 := skipn k s in
      match url_backtrack s1 (url_run (length s1) s1) with
      | Some len => let m := firstn (k + len) s in Some (m, m)
      | None => None
      end
  end.

Section Finditer.
Variable match_at : str -> option (str * str).

Fixpoint finditer_go (s : str) (skip : nat) : list (str * str) :=
  match s with
  | [] => []
  | _ :: s' =>
      match skip with
      | S k => finditer_go s' k
      | O =>
          match match_at s with
          | Some (full, g) => (full, g) :: finditer_go s' (pred (length full))
          | None => finditer_go s' 0
          end
      end
  end.

Definition finditer (s : str) : list (str * str) := finditer_go s 0.
End Finditer.

(** ** [str.replace] (all non-overlapping occurrences, left to right) *)

Fixpoint replace_go (s old new : str) (skip : nat) : str :=
  match s with
  | [] => []
  | c :: s' =>
      match skip with
      | S k => replace_go s' old new k
      | O =>
          if startswith s old then new ++ replace_go s' old new (pred (length old))
          else c :: replace_go s' old new 0
      end
  end.

(** For an empty [old] Python inserts [new] around every character. *)
Definition py_replace (s old new : str) : str :=
  match old with
  | [] => new ++ flat_map (fun ch => ch ++ new) (utf8_chars s)
  | _ :: _ => replace_go s old new 0
  end.

(** ** Base64 ([base64.b64encode], and [base64.b64decode] = binascii's
    [a2b_base64] in non-strict mode).  Bytes are [Z] in [0, 256). *)

Definition b64_alphabet : str :=
  lit "ABCDEFGHIJKLMNOPQRSTUVWXYZabcdefghijklmnopqrstuvwxyz0123456789+/".

Definition b2a_char (v : Z) : ascii := nth (Z.to_nat v) b64_alphabet "A"%char.

Fixpoint b64encode (bs : list Z) : str :=
  match bs with
  | b1 :: b2 :: b3 :: rest =>
      b2a_char (Z.shiftr b1 2)
      :: b2a_char (Z.lor (Z.shiftl (Z.land b1 3) 4) (Z.shiftr b2 4))
      :: b2a_char (Z.lor (Z.shiftl (Z.land b2 15) 2) (Z.shiftr b3 6))
      :: b2a_char (Z.land b3 63) :: b64encode rest
  | [b1; b2] =>
      [b2a_char (Z.shiftr b1 2);
       b2a_char (Z.lor (Z.shiftl (Z.land b1 3) 4) (Z.shiftr b2 4));
       b2a_char (Z.shiftl (Z.land b2 15) 2); "="%char]
  | [b1] =>
      [b2a_char (Z.shiftr b1 2); b2a_char (Z.shiftl (Z.land b1 3) 4);
       "="%char; "="%char]
  | [] => []
  end.

(** [table_a2b_base64]: the value of an alphabet character, [None] (64)
    for any other. *)
Definition a2b_value (c : ascii) : option Z :=
  let n := Z.of_nat (nat_of_ascii c) in
  if in_range 65 90 c then Some (n - 65)%Z
  else if in_range 97 122 c then Some (n - 71)%Z
  else if in_range 48 57 c then Some (n + 4)%Z
  else if ascii_eqb c "+" then Some 62%Z
  else if ascii_eqb c "/" then Some 63%Z
  else None.

(** The decoding loop of [binascii_a2b_base64_impl]: [quad_pos],
    [leftchar], [pads]; output bytes are [unsigned char]; [None] is
    [binascii.Error] (a quad left incomplete).  In non-strict mode a
    complete padding ends the decoding ([goto done]) and characters outside
    the alphabet are skipped.  [++pads] only runs when [quad_pos >= 2]. *)
Fixpoint a2b_base64 (s : str) (quad_pos : nat) (leftchar : Z) (pads : nat)
  : option (list Z) :=
  match s with
  | [] => if Nat.eqb quad_pos 0 then Some [] else None
  | c :: s' =>
      if ascii_eqb c "=" then
        if 2 <=? quad_pos then
          if 4 <=? quad_pos + S pads then Some []
          else a2b_base64 s' quad_pos leftchar (S pads)
        else a2b_base64 s' quad_pos leftchar pads
      else
        match a2b_value c with
        | None => a2b_base64 s' quad_pos leftchar pads
        | Some v =>
            match quad_pos with
            | O => a2b_base64 s' 1 v 0
            | 1 => option_map (cons (Z.land (Z.lor (Z.shiftl leftchar 2) (Z.shiftr v 4)) 255))
                     (a2b_base64 s' 2 (Z.land v 15) 0)
            | 2 => option_map (cons (Z.land (Z.lor (Z.shiftl leftchar 4) (Z.shiftr v 2)) 255))
                     (a2b_base64 s' 3 (Z.land v 3) 0)
            | _ => option_map (cons (Z.land (Z.lor (Z.shiftl leftchar 6) v) 255))
                     (a2b_base64 s' 0 0 0)
            end
        end
  end.

Definition b64decode (s : str) : option (list Z) := a2b_base64 s 0 0 0.

(** ** Files, printed messages and exceptions *)

Inductive file_data :=
| FBytes (b : list Z)
| FText (t : str).

(** What the functions [print]: which message, and the path it names. *)
Inductive log_event :=
| LogSavedBase64 (path : str)
| LogBase64Error
| LogDownloaded (path : str)
| LogDownloadError
| LogSavedText (path : str)
| LogSavedOriginal (path : str)
| LogMixedContentError.

(** The files written so far, in order (a later write of a path replaces
    the earlier one), and the messages printed. *)
Record world := { files : list (str * file_data); printed : list log_event }.

Definition print (e : log_event) (w : world) : world :=
  {| files := files w; printed := printed w ++ [e] |}.

(** [open(path, "w"/"wb")] and [write]: [None] is the [OSError]. *)
Definition write_file (write_ok : str -> bool) (path : str) (d : file_data)
    (w : world) : option world :=
  if write_ok path then Some {| files := files w ++ [(path, d)]; printed := printed w |}
  else None.

(** The content of [p] after the writes [fs]. *)
Fixpoint fs_lookup (fs : list (str * file_data)) (p : str) : option file_data :=
  match fs with
  | [] => None
  | (q, d) :: fs' =>
      match fs_lookup fs' p with
      | Some d' => Some d'
      | None => if str_eqb p q then Some d else None
      end
  end.

Inductive py_exn :=
| OSError (path : str)
| HTTPError (status : Z)
| ConnectionError
| JSONDecodeError
| TypeError
| KeyError
| AttributeError
| IndexError
| UnicodeDecodeError
| RecursionError
| ChunkedEncodingError.

(** ** Paths and the output directory *)

Definition digit_char (d : nat) : ascii := ascii_of_nat (48 + d).

Fixpoint string_of_nat_aux (fuel n : nat) (acc : str) : str :=
  match fuel with
  | O => acc
  | S f =>
      let acc' := digit_char (n mod 10) :: acc in
      if n <? 10 then acc' else string_of_nat_aux f (n / 10) acc'
  end.

(** [str(n)] for a natural number. *)
Definition string_of_nat (n : nat) : str := string_of_nat_aux (S n) n [].

(** [os.path.join(a, b)] (POSIX). *)
Definition path_join (a b : str) : str :=
  if startswith b (lit "/") then b
  else match rev a with
       | [] => b
       | c :: _ => if ascii_eqb c "/" then a ++ b else a ++ lit "/" ++ b
       end.

(** [create_output_directory]: [f"output_{timestamp}"] where [timestamp]
    is [datetime.now().strftime("%Y%m%d_%H%M%S")]. *)
Definition create_output_directory (timestamp : str) : str :=
  lit "output_" ++ timestamp.

(** ** [save_base64_image], [download_image_from_url] and
    [save_mixed_content] (lines 74-181) *)

(** [s.split(',', 1)[1]]: [None] is the [IndexError] when there is no comma. *)
Fixpoint after_first_comma (s : str) : option str :=
  match s with
  | [] => None
  | c :: s' => if ascii_eqb c "," then Some s' else after_first_comma s'
  end.

Definition b64_placeholder (saved_path : str) : str :=
  lit "[保存的图片: " ++ saved_path ++ lit "]".

Definition url_placeholder (saved_path : str) : str :=
  lit "[下载的图片: " ++ saved_path ++ lit "]".

(** The extension chosen from the [content-type] header. *)
Definition ext_of_content_type (content_type : str) : str :=
  let ct := lower content_type in
  if contains ct (lit "png") then lit "png"
  else if contains ct (lit "jpg") || contains ct (lit "jpeg") then lit "jpg"
  else if contains ct (lit "gif") then lit "gif"
  else lit "png".

(** What [requests.get(url, stream=True)], [raise_for_status] and
    [response.iter_content] give: a [RequestException] before the file is
    opened, or the [content-type] header and the bytes [iter_content]
    yields, with whether it ends normally ([complete = false]: it raises a
    [RequestException] after [body], while the file is open). *)
(** What [requests.get(url, stream=True)] gives [download_image_from_url]:
    [FetchFailed] when the request or [raise_for_status] raises; otherwise
    the [content-type] header (empty when absent), the bytes
    [iter_content] yields, and whether it reaches the end of the body
    ([false] when it raises after them, a connection broken mid-body). *)
Inductive fetch_result :=
| FetchFailed
| Fetched (content_type : str) (body : list Z) (complete : bool).

Section SaveMixedContent.
Variable output_dir : str.
(** Whether [open(path, ...)] and writing succeed. *)
Variable write_ok : str -> bool.
(** [requests.get(url, stream=True)] with [raise_for_status]. *)
Variable fetch : str -> fetch_result.

Definition save_base64_image (base64_data : str) (image_index : nat)
    (w : world) : option str * world :=
  let data := if startswith base64_data (lit "data:image/")
              then after_first_comma base64_data else Some base64_data in
  match data with
  | None => (None, print LogBase64Error w)
  | Some d =>
      match b64decode d with
      | None => (None, print LogBase64Error w)
      | Some image_data =>
          let image_path := path_join output_dir
                (lit "image_" ++ string_of_nat image_index ++ lit ".png") in
          match write_file write_ok image_path (FBytes image_data) w with
          | Some w' => (Some image_path, print (LogSavedBase64 image_path) w')
          | None => (None, print LogBase64Error w)
          end
      end
  end.

Definition download_image_from_url (url : str) (image_index : nat)
    (w : world) : option str * world :=
  match fetch url with
  | FetchFailed => (None, print LogDownloadError w)
  | Fetched content_type body complete =>
      let ext := ext_of_content_type content_type in
      let image_path := path_join output_dir
            (lit "image_url_" ++ string_of_nat image_index ++ lit "." ++ ext) in
      match write_file write_ok image_path (FBytes body) w with
      | Some w' =>
          if complete then (Some image_path, print (LogDownloaded image_path) w')
          else (None, print LogDownloadError w')
      | None => (None, print LogDownloadError w)
      end
  end.

(** [for match in base64_matches: ...] *)
Fixpoint save_b64_loop (ms : list (str * str)) (text_content : str)
    (image_index : nat) (w : world) : str * nat * world :=
  match ms with
  | [] => (text_content, image_index, w)
  | (full_match, base64_data) :: ms' =>
      let '(saved_path, w1) := save_base64_image base64_data image_index w in
      match saved_path with
      | Some p =>
          save_b64_loop ms' (py_replace text_content full_match (b64_placeholder p))
            (S image_index) w1
      | None => save_b64_loop ms' text_content image_index w1
      end
  end.

(** [for match in url_matches: ...] *)
Fixpoint save_url_loop (ms : list (str * str)) (text_content : str)
    (image_index : nat) (w : world) : str * nat * world :=
  match ms with
  | [] => (text_content, image_index, w)
  | (url, _) :: ms' =>
      let '(saved_path, w1) := download_image_from_url url image_index w in
      match saved_path with
      | Some p =>
          save_url_loop ms' (py_replace text_content url (url_placeholder p))
            (S image_index) w1
      | None => save_url_loop ms' text_content image_index w1
      end
  end.

(** The body of the [try] of [save_mixed_content]. *)
Definition save_mixed_content_body (content : str) (w : world)
  : (py_exn + unit) * world :=
  let base64_matches := finditer match_b64_at content in
  let url_matches := finditer match_url_at content in
  let '(text1, index1, w1) := save_b64_loop base64_matches content 1 w in
  let '(text_content, _, w2) := save_url_loop url_matches text1 index1 w1 in
  let text_filename := path_join output_dir (lit "content.txt") in
  match write_file write_ok text_filename (FText text_content) w2 with
  | None => (inl (OSError text_filename), w2)
  | Some w3 =>
      let w3' := print (LogSavedText text_filename) w3 in
      let original_filename := path_join output_dir (lit "original_content.txt") in
      match write_file write_ok original_filename (FText content) w3' with
      | None => (inl (OSError original_filename), w3')
      | Some w4 => (inr tt, print (LogSavedOriginal original_filename) w4)
      end
  end.

(** [except Exception as e: print(...)]. *)
Definition save_mixed_content (content : str) (w : world)
  : (py_exn + unit) * world :=
  match save_mixed_content_body content w with
  | (inl _, w') => (inr tt, print LogMixedContentError w')
  | (inr tt, w') => (inr tt, w')
  end.
End SaveMixedContent.

(** ** Helpers of the proofs *)

Definition bytes_range : list Z := map Z.of_nat (seq 0 256).

Definition sextet (v : Z) : bool := (0 <=? v)%Z && (v <? 64)%Z.

(** Bit identities of one byte. *)
Definition byte_facts (b : Z) : bool :=
  sextet (Z.shiftr b 2)
  && Z.eqb (Z.land (Z.lor (Z.shiftl (Z.shiftr b 4) 4) (Z.land b 15)) 255) b
  && Z.eqb (Z.land (Z.lor (Z.shiftl (Z.shiftr b 6) 6) (Z.land b 63)) 255) b
  && sextet (Z.land b 63)
  && sextet (Z.shiftl (Z.land b 3) 4)
  && Z.eqb (Z.land (Z.lor (Z.shiftl (Z.shiftr b 2) 2)
                          (Z.shiftr (Z.shiftl (Z.land b 3) 4) 4)) 255) b
  && sextet (Z.shiftl (Z.land b 15) 2)
  && Z.eqb (Z.shiftr (Z.shiftl (Z.land b 15) 2) 2) (Z.land b 15).

(** Bit identities of two consecutive bytes. *)
Definition byte_pair_facts (a b : Z) : bool :=
  let v2 := Z.lor (Z.shiftl (Z.land a 3) 4) (Z.shiftr b 4) in
  let v3 := Z.lor (Z.shiftl (Z.land a 15) 2) (Z.shiftr b 6) in
  sextet v2
  && Z.eqb (Z.land (Z.lor (Z.shiftl (Z.shiftr a 2) 2) (Z.shiftr v2 4)) 255) a
  && Z.eqb (Z.land v2 15) (Z.shiftr b 4)
  && sextet v3
  && Z.eqb (Z.shiftr v3 2) (Z.land a 15)
  && Z.eqb (Z.land v3 3) (Z.shiftr b 6).

Definition is_byte (b : Z) : Prop := (0 <= b < 256)%Z.

(** [p in s] for strings, and [s.startswith(p)] as a proposition. *)
Definition occurs (p s : str) : Prop := exists a b, s = a ++ p ++ b.

Definition data_image : str := lit "data:image/".

(** Decimal digits. *)
Definition is_digit (c : ascii) : Prop := in_range 48 57 c = true.

(** The names [save_base64_image] and [download_image_from_url] give. *)
Definition image_name (k : nat) : str :=
  lit "image_" ++ string_of_nat k ++ lit ".png".

Definition url_name (k : nat) (ext : str) : str :=
  lit "image_url_" ++ string_of_nat k ++ lit "." ++ ext.

Definition prefix (p s : str) : Prop := exists b, s = p ++ b.

(** ** Observations *)

(** The paths named by the messages that announce a saved image, in order. *)
Fixpoint saved_paths (l : list log_event) : list str :=
  match l with
  | [] => []
  | LogSavedBase64 p :: l' => p :: saved_paths l'
  | LogDownloaded p :: l' => p :: saved_paths l'
  | _ :: l' => saved_paths l'
  end.

(** The first character of every span the two patterns match. *)
Definition scheme_char (c : ascii) : bool :=
  ascii_eqb c "d" || ascii_eqb c "h" || ascii_eqb c "H".

(** Whether [s] has none of the characters [scheme_char] accepts. *)
Definition no_scheme_char (s : str) : bool := forallb (fun c => negb (scheme_char c)) s.

(** ** Sample inputs *)

(** [create_output_directory] at 2025-08-28 12:00:00. *)
Definition example_output_dir : str := create_output_directory (lit "20250828_120000").

Definition example_world : world := {| files := []; printed := [] |}.

(** A server that answers every URL with a PNG body. *)
Definition example_fetch (url : str) : fetch_result :=
  Fetched (lit "image/png") [137; 80; 78; 71]%Z true.

(** A server whose body breaks off after four bytes. *)
Definition broken_fetch (url : str) : fetch_result :=
  Fetched (lit "image/png") [137; 80; 78; 71]%Z false.

(** Two base64 spans and one image URL. *)
Definition example_mixed_content : str :=
  lit "Result: data:image/png;base64,QUJD then data:image/jpeg;base64,REVGRw== and https://cdn.example.com/gen/cat.png end".

(** A disk on which only [content.txt] of [example_output_dir] cannot be
    written. *)
Definition content_txt_unwritable (path : str) : bool :=
  negb (str_eqb path (path_join example_output_dir (lit "content.txt"))).

(** A base64 span whose MIME part holds the placeholder of [image_1.png]. *)
Definition dup_span : str :=
  lit "data:image/" ++ b64_placeholder (path_join example_output_dir (image_name 1)) ++
  lit ";base64,QQ==".

(** [dup_span] twice, then a third span around a copy of it. *)
Definition dup_content : str :=
  dup_span ++ lit " " ++ dup_span ++ lit " data:image/" ++ dup_span ++ lit ";base64,QQ==".

(** ** The driver up to the first request (lines 57-65 and 330-387) *)

(** What the driver prints, and the first network request. *)
Inductive driver_event :=
| DProcessing (i : nat) (path : str)
| DPrepareError (path : str)
| DImageError (path : str)
| DNoImages
| DSending (n : nat)
| DOutputDir (dir : str)
| DRawRequest.

(** [IMAGE_PATHS]: one path or a list of paths. *)
Inductive image_paths_cfg :=
| SinglePath (p : str)
| PathList (ps : list str).

(** How the driver leaves this stretch: [exit(code)], or the first request
    with the [url]s of the image parts of the message. *)
Inductive driver_outcome :=
| Exited (code : Z)
| Requested (image_urls : list str).

Section Driver.
(** [open(path, "rb").read()]: [None] is any [OSError]. *)
Variable read_file : str -> option (list Z).

(** [prepare_image_data]: prints and re-raises a failure. *)
Definition prepare_image_data (image_path : str) : (py_exn + str) * list driver_event :=
  match read_file image_path with
  | None => (inl (OSError image_path), [DPrepareError image_path])
  | Some bytes => (inr (lit "data:image/png;base64," ++ b64encode bytes), [])
  end.

(** [for i, image_path in enumerate(image_paths): try ... except
    Exception: ... continue]: the [url]s of [image_contents] and the
    messages printed; [i] counts the images before this one. *)
Fixpoint prepare_loop (image_paths : list str) (i : nat) : list str * list driver_event :=
  match image_paths with
  | [] => ([], [])
  | image_path :: rest =>
      let '(r, ev) := prepare_image_data image_path in
      let '(contents, evs) := prepare_loop rest (S i) in
      match r with
      | inr image_data => (image_data :: contents, DProcessing (S i) image_path :: ev ++ evs)
      | inl _ =>
          (contents, DProcessing (S i) image_path :: ev ++ [DImageError image_path] ++ evs)
      end
  end.

Definition image_paths_of (cfg : image_paths_cfg) : list str :=
  match cfg with
  | SinglePath p => [p]
  | PathList ps => ps
  end.

(** Lines 330-387: the images, [exit(1)] when none was read, otherwise
    the output directory and the first request ([call_api_raw]). *)
Definition run_until_request (cfg : image_paths_cfg) (timestamp : str)
    : list driver_event * driver_outcome :=
  let '(image_contents, log) := prepare_loop (image_paths_of cfg) 0 in
  match image_contents with
  | [] => (log ++ [DNoImages], Exited 1)
  | _ :: _ =>
      (log ++ [DSending (length image_contents);
               DOutputDir (create_output_directory timestamp); DRawRequest],
       Requested image_contents)
  end.
End Driver.

(** Only [a.png] and [c.png] can be read. *)
Definition example_read_file (path : str) : option (list Z) :=
  if str_eqb path (lit "a.png") then Some [1; 2; 3]%Z
  else if str_eqb path (lit "c.png") then Some [4]%Z
  else None.

(** ** Image fields of the message (lines 436-489) *)

(** The Python values a decoded message holds: JSON values, and objects of
    the managed client with their attributes. *)
#[warnings="-register-all"]
Inductive pyval :=
| PNone
| PBool (b : bool)
| PInt (z : Z)
| PStr (s : str)
| PList (l : list pyval)
| PDict (kvs : list (str * pyval))
| PObj (attrs : list (str * pyval)).

(** [d.get(k)] / [getattr(o, k, None)] on an association list. *)
Fixpoint assoc_get (kvs : list (str * pyval)) (k : str) : option pyval :=
  match kvs with
  | [] => None
  | (k', v) :: kvs' => if str_eqb k k' then Some v else assoc_get kvs' k
  end.

(** [bool(v)]. *)
Definition truthy (v : pyval) : bool :=
  match v with
  | PNone => false
  | PBool b => b
  | PInt z => negb (Z.eqb z 0)
  | PStr s => match s with [] => false | _ => true end
  | PList l => match l with [] => false | _ => true end
  | PDict d => match d with [] => false | _ => true end
  | PObj _ => true
  end.

Definition nl : str := [ascii_of_nat 10].

Definition b64_prefix : str := lit "data:image/png;base64,".

Definition possible_image_fields : list str :=
  [lit "images"; lit "image"; lit "attachments"; lit "media"; lit "files"; lit "data"].

Section ImageFields.
(** [str(v)] of a value that is not a [str], in an f-string. *)
Variable str_value : pyval -> str.

Definition fmt (v : pyval) : str :=
  match v with
  | PStr s => s
  | _ => str_value v
  end.

(** A string found in a field of the raw message. *)
Definition raw_append_str (response_content img : str) : str :=
  if negb (startswith img (lit "data:")) then response_content ++ nl ++ b64_prefix ++ img
  else response_content ++ nl ++ img.

(** One element of a list field of the raw message. *)
Definition raw_append_item (response_content : str) (img : pyval) : str :=
  match img with
  | PStr s => raw_append_str response_content s
  | PDict d =>
      match assoc_get d (lit "data") with
      | Some v => response_content ++ nl ++ b64_prefix ++ fmt v
      | None =>
          match assoc_get d (lit "url") with
          | Some v => response_content ++ nl ++ fmt v
          | None =>
              match assoc_get d (lit "base64") with
              | Some v => response_content ++ nl ++ b64_prefix ++ fmt v
              | None => response_content
              end
          end
      end
  | _ => response_content
  end.

(** [for field_name in possible_image_fields: ...] on the raw message. *)
Definition raw_extend (message_dict : list (str * pyval)) (response_content : str) : str :=
  fold_left
    (fun acc field_name =>
       match assoc_get message_dict field_name with
       | Some images_data =>
           if truthy images_data then
             match images_data with
             | PList l => fold_left raw_append_item l acc
             | PStr s => raw_append_str acc s
             | _ => acc
             end
           else acc
       | None => acc
       end)
    possible_image_fields response_content.

(** One element of [message.images] of the managed client. *)
Definition client_append_item (response_content : str) (img : pyval) : str :=
  match img with
  | PStr s => response_content ++ nl ++ b64_prefix ++ s
  | PObj attrs =>
      match assoc_get attrs (lit "data") with
      | Some v => response_content ++ nl ++ b64_prefix ++ fmt v
      | None => response_content
      end
  | _ => response_content
  end.

(** Lines 478-489 on the message object of the managed client: [None] is
    the [TypeError] of [len] or of the iteration on a value that has no
    length. *)
Definition client_extend (message_attrs : list (str * pyval)) (response_content : str)
    : option str :=
  match assoc_get message_attrs (lit "images") with
  | None => Some response_content
  | Some images =>
      if truthy images then
        match images with
        | PList l => Some (fold_left client_append_item l response_content)
        | PStr s => Some (fold_left client_append_item (map PStr (utf8_chars s))
                            response_content)
        | PDict d => Some (fold_left client_append_item (map (fun kv => PStr (fst kv)) d)
                             response_content)
        | _ => None
        end
      else Some response_content
  end.
End ImageFields.

(** The piece the raw path appends for one element of a list field. *)
Definition raw_item_piece (str_value : pyval -> str) (img : pyval) : str :=
  match img with
  | PStr s => if startswith s (lit "data:") then nl ++ s else nl ++ b64_prefix ++ s
  | PDict d =>
      match assoc_get d (lit "data"), assoc_get d (lit "url"), assoc_get d (lit "base64") with
      | Some v, _, _ => nl ++ b64_prefix ++ fmt str_value v
      | None, Some v, _ => nl ++ fmt str_value v
      | None, None, Some v => nl ++ b64_prefix ++ fmt str_value v
      | None, None, None => []
      end
  | _ => []
  end.

(** The piece the raw path appends for the value of one field. *)
Definition raw_field_piece (str_value : pyval -> str) (v : option pyval) : str :=
  match v with
  | Some (PStr s) =>
      match s with
      | [] => []
      | _ :: _ => if startswith s (lit "data:") then nl ++ s else nl ++ b64_prefix ++ s
      end
  | Some (PList l) => flat_map (raw_item_piece str_value) l
  | _ => []
  end.

(** The piece the client path appends for one element of [images]. *)
Definition client_item_piece (str_value : pyval -> str) (img : pyval) : str :=
  match img with
  | PStr s => nl ++ b64_prefix ++ s
  | PObj attrs =>
      match assoc_get attrs (lit "data") with
      | Some v => nl ++ b64_prefix ++ fmt str_value v
      | None => []
      end
  | _ => []
  end.

(** [str()] of a non-string value, for the samples: [None], [True] and
    [False], and an empty rendering otherwise. *)
Definition sample_str_value (v : pyval) : str :=
  match v with
  | PNone => lit "None"
  | PBool true => lit "True"
  | PBool false => lit "False"
  | _ => []
  end.

(** ** [call_api_raw] in stream mode (lines 194-274) *)

Definition exn_bind {A B} (m : py_exn + A) (f : A -> py_exn + B) : py_exn + B :=
  match m with
  | inl e => inl e
  | inr a => f a
  end.

Notation "'let!' x ':=' m 'in' f" := (exn_bind m (fun x => f))
  (at level 200, x ident, m at level 100, f at level 200, right associativity).

(** [k in v] for a string [k]. *)
Definition py_in (k : str) (v : pyval) : py_exn + bool :=
  match v with
  | PDict d => inr (match assoc_get d k with Some _ => true | None => false end)
  | PList l => inr (existsb (fun x => match x with PStr s => str_eqb s k | _ => false end) l)
  | PStr s => inr (contains s k)
  | _ => inl TypeError
  end.

(** [v[k]] for a string [k]. *)
Definition py_getitem (v : pyval) (k : str) : py_exn + pyval :=
  match v with
  | PDict d => match assoc_get d k with Some x => inr x | None => inl KeyError end
  | _ => inl TypeError
  end.

(** [len(v)]. *)
Definition py_len (v : pyval) : py_exn + nat :=
  match v with
  | PStr s => inr (length (utf8_chars s))
  | PList l => inr (length l)
  | PDict d => inr (length d)
  | _ => inl TypeError
  end.

(** [v[0]]; a JSON object has no key [0]. *)
Definition py_index0 (v : pyval) : py_exn + pyval :=
  match v with
  | PList (x :: _) => inr x
  | PStr (c :: s) => inr (PStr (firstn (utf8_len c) (c :: s)))
  | PList [] | PStr [] => inl IndexError
  | PDict _ => inl KeyError
  | _ => inl TypeError
  end.

(** [v.get(k, default)]. *)
Definition py_get (v : pyval) (k : str) (default : pyval) : py_exn + pyval :=
  match v with
  | PDict d => inr (match assoc_get d k with Some x => x | None => default end)
  | _ => inl AttributeError
  end.

(** What [requests.post(...)] gives: an exception before any response
    (a [RequestException] such as [ConnectionError]), or the status, the
    lines [iter_lines] yields, and the exception [iter_lines] raises after
    them when the body breaks off ([None] when it ends normally). *)
Inductive http_result :=
| ReqFail (e : py_exn)
| Resp (status : Z) (lines : list str) (broken : option py_exn).

(** Whether [line.decode('utf-8')] succeeds: the bytes are well-formed
    UTF-8 (no overlong form, no surrogate, nothing above [U+10FFFF]). *)
Fixpoint utf8_valid (s : str) : bool :=
  match s with
  | [] => true
  | c :: r =>
      let n := nat_of_ascii c in
      if n <=? 127 then utf8_valid r
      else if in_range 194 223 c then
        match r with
        | c1 :: r1 => in_range 128 191 c1 && utf8_valid r1
        | [] => false
        end
      else if in_range 224 239 c then
        match r with
        | c1 :: c2 :: r2 =>
            in_range (if n =? 224 then 160 else 128) (if n =? 237 then 159 else 191) c1
            && in_range 128 191 c2 && utf8_valid r2
        | _ => false
        end
      else if in_range 240 244 c then
        match r with
        | c1 :: c2 :: c3 :: r3 =>
            in_range (if n =? 240 then 144 else 128) (if n =? 244 then 143 else 191) c1
            && in_range 128 191 c2 && in_range 128 191 c3 && utf8_valid r3
        | _ => false
        end
      else false
  end.

Definition fold_exn {A B} (f : A -> B -> py_exn + A) : list B -> A -> py_exn + A :=
  fix go l a :=
    match l with
    | [] => inr a
    | b :: l' => exn_bind (f a b) (go l')
    end.

(** The response that [call_api_raw] builds from a stream. *)
Definition stream_response (full_content : str) (all_chunks : list pyval) : pyval :=
  PDict [(lit "choices",
          PList [PDict [(lit "message",
                         PDict [(lit "role", PStr (lit "assistant"));
                                (lit "content", PStr full_content)])]]);
         (lit "stream_chunks", PList all_chunks)].

Section CallApiRaw.
(** [json.loads]: the document, or the exception it raises
    ([JSONDecodeError] on malformed JSON, [RecursionError] on a document
    nested too deeply, ...). *)
Variable json_loads : str -> py_exn + pyval.
(** Whether [open(path, "w")] and [json.dump] succeed. *)
Variable write_ok : str -> bool.

(** One line of [response.iter_lines()]: the state is [full_content] and
    [all_chunks]. *)
Definition stream_line (st : str * list pyval) (line : str) : py_exn + (str * list pyval) :=
  let '(full_content, all_chunks) := st in
  match line with
  | [] => inr st
  | _ :: _ =>
      if negb (utf8_valid line) then inl UnicodeDecodeError else
      if startswith line (lit "data: ") then
        let data_str := skipn 6 line in
        if negb (str_eqb data_str (lit "[DONE]")) then
          match json_loads data_str with
          | inl JSONDecodeError => inr st
          | inl e => inl e
          | inr chunk =>
              let all_chunks := all_chunks ++ [chunk] in
              let! has_choices := py_in (lit "choices") chunk in
              if has_choices then
                let! choices := py_getitem chunk (lit "choices") in
                let! n := py_len choices in
                if 0 <? n then
                  let! choice := py_index0 choices in
                  let! delta := py_get choice (lit "delta") (PDict []) in
                  let! has_content := py_in (lit "content") delta in
                  if has_content then
                    let! piece := py_getitem delta (lit "content") in
                    match piece with
                    | PStr s => inr (full_content ++ s, all_chunks)
                    | _ => inl TypeError
                    end
                  else inr (full_content, all_chunks)
                else inr (full_content, all_chunks)
              else inr (full_content, all_chunks)
          end
        else inr st
      else inr st
  end.

(** [if output_dir: with open(os.path.join(output_dir, name), "w") ...]. *)
Definition debug_dump (output_dir name : str) : py_exn + unit :=
  match output_dir with
  | [] => inr tt
  | _ :: _ =>
      let debug_path := path_join output_dir name in
      if write_ok debug_path then inr tt else inl (OSError debug_path)
  end.

(** [call_api_raw(..., use_stream=True, output_dir=output_dir)]: one
    request; the [except RequestException: raise] re-raises unchanged. *)
Definition call_api_raw_stream (response : http_result) (output_dir : str) : py_exn + pyval :=
  match response with
  | ReqFail e => inl e
  | Resp status lines broken =>
      if (400 <=? status)%Z && (status <? 600)%Z then inl (HTTPError status)
      else
        let! st := fold_exn stream_line lines ([], []) in
        let! _u := match broken with Some e => inl e | None => inr tt end in
        let '(full_content, all_chunks) := st in
        let! _u := debug_dump output_dir (lit "stream_chunks.json") in
        let json_response := stream_response full_content all_chunks in
        let! _u := debug_dump output_dir (lit "raw_api_response.json") in
        inr json_response
  end.
End CallApiRaw.

(** The double quote. *)
Definition dq : str := [ascii_of_nat 34].

(** The chunk [{"choices":[{"delta":{"content":"hi"}}]}] and its text. *)
Definition chunk_hi : pyval :=
  PDict [(lit "choices", PList [PDict [(lit "delta", PDict [(lit "content", PStr (lit "hi"))])]])].

Definition chunk_hi_text : str :=
  lit "{" ++ dq ++ lit "choices" ++ dq ++ lit ":[{" ++ dq ++ lit "delta" ++ dq ++ lit ":{" ++
  dq ++ lit "content" ++ dq ++ lit ":" ++ dq ++ lit "hi" ++ dq ++ lit "}}]}".

(** [json.loads] on the documents of the samples: [chunk_hi_text] is
    parsed, anything else (such as [{bad]) is rejected. *)
Definition sample_json_loads (s : str) : py_exn + pyval :=
  if str_eqb s chunk_hi_text then inr chunk_hi else inl JSONDecodeError.

(** ** Retry trace *)

(** Whether [call_openai_with_retry] retries after this outcome when
    attempts remain: a quota or a timeout error. *)
Definition retryable {C} (o : call_outcome C) : bool :=
  match o with
  | Failed m =>
      is_quota_exceeded_error m || contains (lower m) (lit "timeout")
      || contains (lower m) (lit "timed out")
  | Completed _ => false
  end.

(** The sleep that follows attempt [k]: one of [retry_delay] after a quota
    error with attempts left, when [retry_delay > 0]. *)
Definition sleep_after {C} (client : Z -> call_outcome C) (max_retries : Z)
    (retry_delay : Q) (k : Z) : list retry_event :=
  match client k with
  | Failed m =>
      if is_quota_exceeded_error m && (k <? max_retries - 1)%Z && negb (Qle_bool retry_delay 0)
      then [Sleep retry_delay] else []
  | Completed _ => []
  end.

(** A client whose first call fails on quota and whose second call
    completes. *)
Definition quota_then_ok (k : Z) : call_outcome unit :=
  if (k =? 0)%Z then Failed (lit "Error 429: You exceeded your current quota")
  else Completed tt.

(** A disk on which only [content.txt] and [original_content.txt] of
    [output_dir] can be written. *)
Definition only_text_files (output_dir path : str) : bool :=
  str_eqb path (path_join output_dir (lit "content.txt"))
  || str_eqb path (path_join output_dir (lit "original_content.txt")).

(** The chunk [{"choices": [{"delta": {"content": v}}]}]. *)
Definition delta_chunk (v : pyval) : pyval :=
  PDict [(lit "choices", PList [PDict [(lit "delta", PDict [(lit "content", v)])]])].

(** The text [{"choices":[{"delta":{"content":null}}]}], and [json.loads]
    on it. *)
Definition chunk_null_text : str :=
  lit "{" ++ dq ++ lit "choices" ++ dq ++ lit ":[{" ++ dq ++ lit "delta" ++ dq ++ lit ":{" ++
  dq ++ lit "content" ++ dq ++ lit ":null}}]}".

Definition null_json_loads (s : str) : py_exn + pyval :=
  if str_eqb s chunk_null_text then inr (delta_chunk PNone) else inl JSONDecodeError.

(** A disk on which nothing can be written. *)
Definition wo_none (path : str) : bool := false.

(** The [处理第 {i+1} 张图片] messages of a driver log: number and path. *)
Definition processing_events (l : list driver_event) : list (nat * str) :=
  flat_map (fun e => match e with DProcessing i p => [(i, p)] | _ => [] end) l.

(** Whether [open(path, "rb").read()] succeeds. *)
Definition readable (read_file : str -> option (list Z)) (p : str) : bool :=
  match read_file p with Some _ => true | None => false end.

(** [chunk['choices'][0].get('delta', {})['content']] is [v], read through
    a list of choices and JSON objects. *)
Definition delta_content_is (chunk v : pyval) : Prop :=
  exists kvs c0 rest dl,
    chunk = PDict kvs /\
    assoc_get kvs (lit "choices") = Some (PList (PDict c0 :: rest)) /\
    assoc_get c0 (lit "delta") = Some (PDict dl) /\
    assoc_get dl (lit "content") = Some v.

(** [chunk_piece chunk s]: a chunk (a JSON object) that adds [s] to
    [full_content]: its first choice has a string [delta.content] [s], or
    it adds nothing because it has no [choices], an empty list of choices,
    a first choice without [delta], or a [delta] without [content]. *)
Inductive chunk_piece : pyval -> str -> Prop :=
| CPContent chunk s :
    delta_content_is chunk (PStr s) -> chunk_piece chunk s
| CPNoChoices kvs :
    assoc_get kvs (lit "choices") = None -> chunk_piece (PDict kvs) []
| CPEmptyChoices kvs :
    assoc_get kvs (lit "choices") = Some (PList []) -> chunk_piece (PDict kvs) []
| CPNoDelta kvs c0 rest :
    assoc_get kvs (lit "choices") = Some (PList (PDict c0 :: rest)) ->
    assoc_get c0 (lit "delta") = None -> chunk_piece (PDict kvs) []
| CPNoContent kvs c0 rest dl :
    assoc_get kvs (lit "choices") = Some (PList (PDict c0 :: rest)) ->
    assoc_get c0 (lit "delta") = Some (PDict dl) ->
    assoc_get dl (lit "content") = None -> chunk_piece (PDict kvs) [].

(** The first and the last chunks of a typical stream,
    [{"choices":[{"delta":{"role":"assistant"}}]}] and
    [{"choices":[{"delta":{},"finish_reason":"stop"}]}], and their texts. *)
Definition chunk_role : pyval :=
  PDict [(lit "choices",
          PList [PDict [(lit "delta", PDict [(lit "role", PStr (lit "assistant"))])]])].

Definition chunk_role_text : str :=
  lit "{" ++ dq ++ lit "choices" ++ dq ++ lit ":[{" ++ dq ++ lit "delta" ++ dq ++ lit ":{" ++
  dq ++ lit "role" ++ dq ++ lit ":" ++ dq ++ lit "assistant" ++ dq ++ lit "}}]}".

Definition chunk_stop : pyval :=
  PDict [(lit "choices",
          PList [PDict [(lit "delta", PDict []); (lit "finish_reason", PStr (lit "stop"))]])].

Definition chunk_stop_text : str :=
  lit "{" ++ dq ++ lit "choices" ++ dq ++ lit ":[{" ++ dq ++ lit "delta" ++ dq ++ lit ":{}," ++
  dq ++ lit "finish_reason" ++ dq ++ lit ":" ++ dq ++ lit "stop" ++ dq ++ lit "}]}".

(** [json.loads] on the documents of a typical stream. *)
Definition stream_json_loads (s : str) : py_exn + pyval :=
  if str_eqb s chunk_role_text then inr chunk_role
  else if str_eqb s chunk_hi_text then inr chunk_hi
  else if str_eqb s chunk_stop_text then inr chunk_stop
  else inl JSONDecodeError.

(** A [json.loads] that fails with [RecursionError], as on a document
    nested too deeply. *)
Definition deep_json_loads (s : str) : py_exn + pyval := inl RecursionError.

(** A line [data: t] of a stream, given with the chunk that [t] holds and
    the piece that chunk adds: [t] is valid UTF-8, not [[DONE]], and
    [json.loads] parses it to the chunk. *)
Definition piece_line (json_loads : str -> py_exn + pyval) (x : str * pyval * str) : Prop :=
  json_loads (fst (fst x)) = inr (snd (fst x)) /\ chunk_piece (snd (fst x)) (snd x) /\
  utf8_valid (fst (fst x)) = true /\ fst (fst x) <> lit "[DONE]".

(** * Theorems *)

(** ** Retry loop *)

Lemma retry_loop_all_quota {C} (client : Z -> call_outcome C) N d :
  forall n k, (1 <= n)%nat -> N = (k + Z.of_nat n)%Z ->
  (forall j, (k <= j < N)%Z -> quota_failure (client j) = true) ->
  exists m, client (N - 1)%Z = Failed m /\
    retry_loop client N d n k = (quota_exhaustion_trace d n k, Reraised m).
Proof.
  induction n as [|n IH]; intros k Hn HN Hq; [lia|].
  assert (Hk : quota_failure (client k) = true) by (apply Hq; lia).
  destruct (client k) as [c|m0] eqn:Ec; [discriminate|].
  simpl in Hk. simpl retry_loop. rewrite Ec, Hk.
  destruct n as [|n'].
  - replace (k <? N - 1)%Z with false by (symmetry; apply Z.ltb_ge; lia).
    exists m0. replace (N - 1)%Z with k by lia. split; [exact Ec|].
    reflexivity.
  - replace (k <? N - 1)%Z with true by (symmetry; apply Z.ltb_lt; lia).
    destruct (IH (k + 1)%Z ltac:(lia) ltac:(lia)
                ltac:(intros j Hj; apply Hq; lia)) as [m [Em Er]].
    exists m. split; [exact Em|]. rewrite Er. reflexivity.
Qed.

Lemma attempts_app t1 t2 : attempts (t1 ++ t2) = (attempts t1 + attempts t2)%nat.
Proof. unfold attempts. rewrite filter_app, length_app. reflexivity. Qed.

Lemma quota_exhaustion_trace_attempts d n k :
  attempts (quota_exhaustion_trace d n k) = n.
Proof.
  revert k; induction n as [|n IH]; intros k; [reflexivity|].
  destruct n as [|n']; [reflexivity|].
  change (quota_exhaustion_trace d (S (S n')) k) with
    ([Attempt k] ++ (if Qle_bool d 0%Q then [] else [Sleep d])
       ++ quota_exhaustion_trace d (S n') (k + 1)%Z).
  rewrite !attempts_app, IH.
  destruct (Qle_bool d 0); reflexivity.
Qed.

(** C1: with [max_retries = N >= 1] and every attempt failing with a
    quota-exceeded error, [call_openai_with_retry] makes exactly [N]
    attempts, sleeping [retry_delay] between two attempts only when
    [retry_delay > 0], and ends by re-raising the quota error of the last
    attempt. *)
Theorem call_openai_with_retry_quota_exhausted {C}
    (client : Z -> call_outcome C) (N : Z) (retry_delay : Q) :
  (1 <= N)%Z ->
  (forall j, (0 <= j < N)%Z -> quota_failure (client j) = true) ->
  exists m,
    client (N - 1)%Z = Failed m /\ is_quota_exceeded_error m = true /\
    call_openai_with_retry client N retry_delay
      = (quota_exhaustion_trace retry_delay (Z.to_nat N) 0, Reraised m) /\
    attempts (quota_exhaustion_trace retry_delay (Z.to_nat N) 0) = Z.to_nat N.
Proof.
  intros HN Hq.
  destruct (retry_loop_all_quota client N retry_delay (Z.to_nat N) 0
              ltac:(lia) ltac:(lia) Hq) as [m [Em Er]].
  exists m. split; [exact Em|]. split.
  - specialize (Hq (N - 1)%Z ltac:(lia)). rewrite Em in Hq. exact Hq.
  - split; [exact Er|]. apply quota_exhaustion_trace_attempts.
Qed.

Lemma call_openai_with_retry_quota_exhausted_witness :
  (1 <= 3)%Z /\
  (forall j, (0 <= j < 3)%Z ->
     quota_failure (C:=unit) (Failed (lit "Error 429: You exceeded your current quota")) = true) /\
  exists m,
    (Failed (C:=unit) (lit "Error 429: You exceeded your current quota")) = Failed m /\
    is_quota_exceeded_error m = true /\
    call_openai_with_retry (fun _ => Failed (C:=unit) (lit "Error 429: You exceeded your current quota")) 3 (2#1)
      = (quota_exhaustion_trace (2#1) 3 0, Reraised m) /\
    attempts (quota_exhaustion_trace (2#1) 3 0) = 3%nat.
Proof.
  split; [lia|]. split; [intros; vm_compute; reflexivity|].
  apply (call_openai_with_retry_quota_exhausted
           (fun _ => Failed (C:=unit) (lit "Error 429: You exceeded your current quota")) 3 (2#1)).
  - lia.
  - intros; vm_compute; reflexivity.
Defined.

Lemma startswith_spec s p : startswith s p = true <-> exists b, s = p ++ b.
Proof.
  revert s; induction p as [|c p IH]; intros s.
  - split; intros; [exists s; reflexivity | destruct s; reflexivity].
  - destruct s as [|d s]; cbn [startswith app].
    + split; [discriminate|intros [b Hb]; discriminate].
    + rewrite andb_true_iff, IH. unfold ascii_eqb. rewrite Ascii.eqb_eq.
      split.
      * intros [-> [b ->]]. eauto.
      * intros [b Hb]. injection Hb as -> ->. eauto.
Qed.

(** [contains s p] decides that [p] occurs in [s]. *)
Lemma contains_spec s p : contains s p = true <-> exists a b, s = a ++ p ++ b.
Proof.
  induction s as [|c s IH].
  - change (contains [] p) with (startswith [] p).
    rewrite startswith_spec. split.
    + intros [b Hb]. exists [], b. exact Hb.
    + intros [a [b Hab]]. destruct a; [|discriminate]. exists b. exact Hab.
  - change (contains (c :: s) p) with (startswith (c :: s) p || contains s p).
    rewrite orb_true_iff, startswith_spec, IH. split.
    + intros [[b Hb] | [a [b Hab]]].
      * exists [], b. exact Hb.
      * exists (c :: a), b. rewrite Hab. reflexivity.
    + intros [a [b Hab]]. destruct a as [|c' a].
      * left. exists b. exact Hab.
      * right. injection Hab as -> Hs. eauto.
Qed.

(** C5: the classification of an error message and what the loop does with
    each class.  Quota-exceeded iff the lowered message contains one of the
    four keywords; timeout iff it is not quota-exceeded and contains
    "timeout" or "timed out"; anything else is re-raised at once, ending the
    loop.  A timeout with attempts left goes straight to the next attempt,
    with no sleep whatever the delay; on the last attempt it is re-raised. *)
Theorem retry_classification {C} (client : Z -> call_outcome C)
    (max_retries : Z) (retry_delay : Q) (fuel : nat) (k : Z) (m : str) :
  (is_quota_exceeded_error m = true <->
     exists kw, In kw quota_keywords /\
       exists a b, lower m = a ++ kw ++ b) /\
  (client k = Failed m ->
   is_quota_exceeded_error m = false ->
   (exists a b, lower m = a ++ lit "timeout" ++ b) \/
   (exists a b, lower m = a ++ lit "timed out" ++ b) ->
   retry_loop client max_retries retry_delay (S fuel) k
   = if (k <? max_retries - 1)%Z then
       let '(t, r) := retry_loop client max_retries retry_delay fuel (k + 1) in
       (Attempt k :: t, r)
     else ([Attempt k], Reraised m)) /\
  (client k = Failed m ->
   is_quota_exceeded_error m = false ->
   ~ (exists a b, lower m = a ++ lit "timeout" ++ b) ->
   ~ (exists a b, lower m = a ++ lit "timed out" ++ b) ->
   retry_loop client max_retries retry_delay (S fuel) k
   = ([Attempt k], Reraised m)).
Proof.
  split; [|split].
  - unfold is_quota_exceeded_error. rewrite existsb_exists.
    split; intros [kw [Hin Hc]]; exists kw; split; auto;
      apply contains_spec; exact Hc.
  - intros Ec Hq Ht. cbn [retry_loop]. rewrite Ec, Hq.
    rewrite <- !contains_spec in Ht.
    replace (contains (lower m) (lit "timeout")
             || contains (lower m) (lit "timed out")) with true
      by (symmetry; apply orb_true_iff; exact Ht).
    reflexivity.
  - intros Ec Hq Ht1 Ht2. cbn [retry_loop]. rewrite Ec, Hq.
    rewrite <- !contains_spec in Ht1, Ht2.
    apply not_true_is_false in Ht1, Ht2. rewrite Ht1, Ht2. reflexivity.
Qed.

(** ** Base64 *)


Lemma in_bytes_range b : (0 <= b < 256)%Z -> In b bytes_range.
Proof.
  intros Hb. unfold bytes_range. apply in_map_iff.
  exists (Z.to_nat b). split; [lia|]. apply in_seq. lia.
Qed.

Lemma forall_bytes (f : Z -> bool) :
  forallb f bytes_range = true -> forall b, (0 <= b < 256)%Z -> f b = true.
Proof.
  intros H b Hb. rewrite forallb_forall in H. apply H, in_bytes_range, Hb.
Qed.

Lemma forall_bytes2 (f : Z -> Z -> bool) :
  forallb (fun a => forallb (f a) bytes_range) bytes_range = true ->
  forall a b, (0 <= a < 256)%Z -> (0 <= b < 256)%Z -> f a b = true.
Proof.
  intros H a b Ha Hb. apply (forall_bytes (f a)); [|exact Hb].
  apply (forall_bytes (fun a => forallb (f a) bytes_range) H a Ha).
Qed.


Lemma b2a_char_ok v :
  (0 <= v < 64)%Z ->
  ascii_eqb (b2a_char v) "=" = false /\ a2b_value (b2a_char v) = Some v /\
  is_b64_char (b2a_char v) = true /\ ascii_eqb (b2a_char v) ":" = false.
Proof.
  intros Hv.
  assert (H : forallb (fun v => negb (ascii_eqb (b2a_char v) "=")
                     && match a2b_value (b2a_char v) with
                        | Some v' => Z.eqb v' v | None => false end
                     && is_b64_char (b2a_char v)
                     && negb (ascii_eqb (b2a_char v) ":"))
                (map Z.of_nat (seq 0 64)) = true) by (vm_compute; reflexivity).
  rewrite forallb_forall in H.
  assert (Hin : In v (map Z.of_nat (seq 0 64))).
  { apply in_map_iff. exists (Z.to_nat v). split; [lia|]. apply in_seq. lia. }
  specialize (H v Hin).
  rewrite !andb_true_iff, !negb_true_iff in H.
  destruct H as [[[H1 H2] H3] H4].
  destruct (a2b_value (b2a_char v)) as [v'|]; [|discriminate].
  apply Z.eqb_eq in H2. subst. auto.
Qed.



Lemma byte_facts_ok b : (0 <= b < 256)%Z -> byte_facts b = true.
Proof. apply forall_bytes. vm_compute. reflexivity. Qed.

Lemma byte_pair_facts_ok a b :
  (0 <= a < 256)%Z -> (0 <= b < 256)%Z -> byte_pair_facts a b = true.
Proof. apply forall_bytes2. vm_compute. reflexivity. Qed.


Ltac bit_facts H :=
  unfold byte_facts, byte_pair_facts, sextet in H;
  rewrite ?andb_true_iff, ?Z.leb_le, ?Z.ltb_lt, ?Z.eqb_eq in H;
  repeat match type of H with
         | _ /\ _ => let H' := fresh "F" in destruct H as [H H']
         end.

Lemma a2b_base64_group b1 b2 b3 R rest :
  is_byte b1 -> is_byte b2 -> is_byte b3 ->
  a2b_base64 (b64encode (b1 :: b2 :: b3 :: R) ++ rest) 0 0 0
  = option_map (fun r => b1 :: b2 :: b3 :: r)
      (a2b_base64 (b64encode R ++ rest) 0 0 0).
Proof.
  intros H1 H2 H3.
  pose proof (byte_facts_ok b1 H1) as A1. pose proof (byte_facts_ok b2 H2) as A2.
  pose proof (byte_facts_ok b3 H3) as A3.
  pose proof (byte_pair_facts_ok b1 b2 H1 H2) as P12.
  pose proof (byte_pair_facts_ok b2 b3 H2 H3) as P23.
  bit_facts A1. bit_facts A2. bit_facts A3. bit_facts P12. bit_facts P23.
  cbn [b64encode app a2b_base64].
  repeat match goal with
    | |- context [ascii_eqb (b2a_char ?v) "="%char] =>
        destruct (b2a_char_ok v ltac:(lia)) as [E [V _]]; rewrite E, V; clear E V
    end.
  cbn - [Z.land Z.lor Z.shiftl Z.shiftr].
  repeat match goal with
    | E : (Z.land _ _ = _)%Z |- _ => rewrite E; clear E
    | E : (Z.shiftr _ _ = _)%Z |- _ => rewrite E; clear E
    end.
  destruct (a2b_base64 (b64encode R ++ rest) 0 0 0); reflexivity.
Qed.

Lemma a2b_base64_last1 b1 rest :
  is_byte b1 -> a2b_base64 (b64encode [b1] ++ rest) 0 0 0 = Some [b1].
Proof.
  intros H1. pose proof (byte_facts_ok b1 H1) as A1. bit_facts A1.
  cbn [b64encode app a2b_base64].
  repeat match goal with
    | |- context [ascii_eqb (b2a_char ?v) "="%char] =>
        destruct (b2a_char_ok v ltac:(lia)) as [E [V _]]; rewrite E, V; clear E V
    end.
  cbn - [Z.land Z.lor Z.shiftl Z.shiftr].
  repeat match goal with
    | E : (Z.land _ _ = _)%Z |- _ => rewrite E; clear E
    end.
  reflexivity.
Qed.

Lemma a2b_base64_last2 b1 b2 rest :
  is_byte b1 -> is_byte b2 ->
  a2b_base64 (b64encode [b1; b2] ++ rest) 0 0 0 = Some [b1; b2].
Proof.
  intros H1 H2.
  pose proof (byte_facts_ok b1 H1) as A1. pose proof (byte_facts_ok b2 H2) as A2.
  pose proof (byte_pair_facts_ok b1 b2 H1 H2) as P12.
  bit_facts A1. bit_facts A2. bit_facts P12.
  cbn [b64encode app a2b_base64].
  repeat match goal with
    | |- context [ascii_eqb (b2a_char ?v) "="%char] =>
        destruct (b2a_char_ok v ltac:(lia)) as [E [V _]]; rewrite E, V; clear E V
    end.
  cbn - [Z.land Z.lor Z.shiftl Z.shiftr].
  repeat match goal with
    | E : (Z.land _ _ = _)%Z |- _ => rewrite E; clear E
    | E : (Z.shiftr _ _ = _)%Z |- _ => rewrite E; clear E
    end.
  reflexivity.
Qed.

(** Decoding the encoding of a byte string gives it back. *)
Lemma b64decode_b64encode B :
  Forall is_byte B -> b64decode (b64encode B) = Some B.
Proof.
  unfold b64decode.
  assert (Hgen : forall n B, (length B <= n)%nat -> Forall is_byte B ->
            a2b_base64 (b64encode B ++ []) 0 0 0 = Some B).
  { induction n as [|n IH]; intros B' Hl HB.
    - destruct B'; [reflexivity|simpl in Hl; lia].
    - destruct B' as [|b1 [|b2 [|b3 R]]].
      + reflexivity.
      + inversion HB; subst. apply a2b_base64_last1; assumption.
      + inversion HB as [|? ? ? HB']; subst. inversion HB'; subst.
        apply a2b_base64_last2; assumption.
      + inversion HB as [|? ? ? HB1]; subst. inversion HB1 as [|? ? ? HB2]; subst.
        inversion HB2 as [|? ? ? HB3]; subst.
        rewrite a2b_base64_group by assumption.
        rewrite (IH R) by (simpl in Hl; lia || assumption). reflexivity. }
  intros HB. rewrite <- (app_nil_r (b64encode B)). apply (Hgen (length B)); auto.
Qed.

(** Every character of an encoding is in the payload class, none is [:]. *)
Lemma b64encode_chars B c :
  Forall is_byte B -> In c (b64encode B) ->
  is_b64_char c = true /\ ascii_eqb c ":" = false.
Proof.
  intros HB. revert c.
  assert (Hgen : forall n B, (length B <= n)%nat -> Forall is_byte B ->
            forall c, In c (b64encode B) ->
            is_b64_char c = true /\ ascii_eqb c ":" = false).
  { induction n as [|n IH]; intros B' Hl HB' c Hc.
    - destruct B'; [destruct Hc|simpl in Hl; lia].
    - assert (Hch : forall v, (0 <= v < 64)%Z ->
                 is_b64_char (b2a_char v) = true /\ ascii_eqb (b2a_char v) ":" = false)
        by (intros v Hv; destruct (b2a_char_ok v Hv) as [_ [_ [? ?]]]; auto).
      destruct B' as [|b1 [|b2 [|b3 R]]].
      + destruct Hc.
      + inversion HB'; subst.
        pose proof (byte_facts_ok b1 ltac:(assumption)) as A1. bit_facts A1.
        cbn [b64encode In] in Hc.
        repeat (destruct Hc as [<- | Hc]; [first [apply Hch; lia | split; reflexivity]|]).
        destruct Hc.
      + inversion HB' as [|? ? ? HB1]; subst. inversion HB1; subst.
        pose proof (byte_facts_ok b1 ltac:(assumption)) as A1. bit_facts A1.
        pose proof (byte_facts_ok b2 ltac:(assumption)) as A2. bit_facts A2.
        pose proof (byte_pair_facts_ok b1 b2 ltac:(assumption) ltac:(assumption)) as P.
        bit_facts P. cbn [b64encode In] in Hc.
        repeat (destruct Hc as [<- | Hc]; [first [apply Hch; lia | split; reflexivity]|]).
        destruct Hc.
      + inversion HB' as [|? ? ? HB1]; subst. inversion HB1 as [|? ? ? HB2]; subst.
        inversion HB2 as [|? ? ? HB3]; subst.
        pose proof (byte_facts_ok b1 ltac:(assumption)) as A1. bit_facts A1.
        pose proof (byte_facts_ok b3 ltac:(assumption)) as A3. bit_facts A3.
        pose proof (byte_pair_facts_ok b1 b2 ltac:(assumption) ltac:(assumption)) as P.
        bit_facts P.
        pose proof (byte_pair_facts_ok b2 b3 ltac:(assumption) ltac:(assumption)) as Q.
        bit_facts Q. cbn [b64encode In] in Hc.
        do 4 (destruct Hc as [<- | Hc]; [apply Hch; lia|]).
        apply (IH R); [simpl in Hl; lia | assumption | exact Hc]. }
  apply (Hgen (length B)); auto.
Qed.

(** ** Strings, scanning and paths *)


Lemma str_eqb_eq a b : str_eqb a b = true <-> a = b.
Proof.
  revert b; induction a as [|x a IH]; intros [|y b]; simpl;
    try (split; congruence).
  rewrite andb_true_iff, IH. unfold ascii_eqb. rewrite Ascii.eqb_eq.
  split; [intros [-> ->]; reflexivity | intros H; injection H; auto].
Qed.

Lemma startswith_app p x : startswith (p ++ x) p = true.
Proof. apply startswith_spec. eauto. Qed.

Lemma span_app (p : ascii -> bool) u post :
  (forall c, In c u -> p c = true) ->
  match post with [] => True | c :: _ => p c = false end ->
  span p (u ++ post) = (u, post).
Proof.
  intros Hu Hp. induction u as [|c u IH]; simpl.
  - destruct post as [|c post]; [reflexivity|]. simpl. rewrite Hp. reflexivity.
  - rewrite (Hu c (or_introl eq_refl)).
    rewrite IH by (intros c' Hc'; apply Hu; right; exact Hc'). reflexivity.
Qed.

Lemma finditer_go_skip_prefix match_at pre X :
  (forall u v, pre = v ++ u -> u <> [] -> match_at (u ++ X) = None) ->
  finditer_go match_at (pre ++ X) 0 = finditer_go match_at X 0.
Proof.
  induction pre as [|c pre IH]; intros H; [reflexivity|].
  pose proof (H (c :: pre) [] eq_refl ltac:(discriminate)) as Hc.
  simpl in Hc |- *. rewrite Hc.
  apply IH. intros u v Hv Hu. apply (H u (c :: v)); [rewrite Hv; reflexivity | exact Hu].
Qed.


Lemma data_image_no_border k :
  (1 <= k <= 10)%nat -> firstn (11 - k) data_image <> skipn k data_image.
Proof.
  intros Hk Heq.
  assert (H : forallb (fun k => negb (str_eqb (firstn (11 - k) data_image)
                                              (skipn k data_image)))
                (seq 1 10) = true) by (vm_compute; reflexivity).
  rewrite forallb_forall in H. specialize (H k ltac:(apply in_seq; lia)).
  apply str_eqb_eq in Heq. rewrite Heq in H. discriminate.
Qed.

(** No occurrence of [data:image/] can start inside a text that has none
    and end inside a following [data:image/...]. *)
Lemma data_image_no_straddle u X Y :
  u <> [] -> ~ occurs data_image u -> X = data_image ++ Y ->
  startswith (u ++ X) data_image = false.
Proof.
  intros Hu Hno HX. apply not_true_is_false. intros Hs.
  apply startswith_spec in Hs as [b Hb].
  apply app_eq_app in Hb as [l [[Hul HXl] | [HDl HXl]]].
  - apply Hno. exists [], l. exact Hul.
  - destruct l as [|c l'].
    + apply Hno. exists [], []. rewrite app_nil_r in HDl. simpl. symmetry. exact HDl.
    + set (l := c :: l') in *.
      assert (Hlen : length data_image = (length u + length l)%nat)
        by (rewrite HDl, length_app; reflexivity).
      change (length data_image) with 11%nat in Hlen.
      destruct u as [|x u']; [congruence|].
      assert (Hl1 : (1 <= length l)%nat) by (subst l; simpl; lia).
      apply (data_image_no_border (length (x :: u'))); [simpl in *; lia|].
      assert (Hsk : skipn (length (x :: u')) data_image = l)
        by (rewrite HDl, skipn_app, skipn_all, Nat.sub_diag; reflexivity).
      rewrite Hsk.
      replace (11 - length (x :: u'))%nat with (length l) by lia.
      assert (E : firstn (length l) (l ++ b) = firstn (length l) (data_image ++ Y))
        by congruence.
      rewrite firstn_app, Nat.sub_diag, firstn_all, app_nil_r in E.
      rewrite firstn_app in E.
      replace (length l - length data_image)%nat with 0%nat in E
        by (change (length data_image) with 11%nat; lia).
      rewrite app_nil_r in E. symmetry. exact E.
Qed.

Lemma b64encode_nonempty B : B <> [] -> b64encode B <> [].
Proof. destruct B as [|b1 [|b2 [|b3 R]]]; simpl; congruence. Qed.

(** The base64 pattern matches a [data:image/png;base64,] span whose
    payload is the encoding of [B], when the text after it does not start
    with a payload character. *)
Lemma match_b64_at_span B post :
  B <> [] -> Forall is_byte B ->
  match post with [] => True | c :: _ => is_b64_char c = false end ->
  match_b64_at (lit "data:image/png;base64," ++ b64encode B ++ post)
  = Some (lit "data:image/png;base64," ++ b64encode B, b64encode B).
Proof.
  intros HB HBy Hpost.
  unfold match_b64_at.
  assert (H1 : startswith (lit "data:image/png;base64," ++ b64encode B ++ post)
                 (lit "data:image/") = true)
    by exact (startswith_app data_image (lit "png;base64," ++ b64encode B ++ post)).
  rewrite H1.
  change (skipn 11 (lit "data:image/png;base64," ++ b64encode B ++ post))
    with (lit "png;base64," ++ b64encode B ++ post).
  change (lit "png;base64," ++ b64encode B ++ post)
    with (lit "png" ++ lit ";base64," ++ b64encode B ++ post).
  rewrite span_app;
    [| intros c Hc; simpl in Hc; repeat destruct Hc as [<- | Hc]; try reflexivity;
       destruct Hc
     | reflexivity].
  rewrite startswith_app.
  change (skipn 8 (lit ";base64," ++ b64encode B ++ post))
    with (b64encode B ++ post).
  rewrite span_app; [| intros c Hc; apply (b64encode_chars B c HBy Hc) | exact Hpost].
  destruct (b64encode B) as [|c0 e] eqn:Ee; [exfalso; apply (b64encode_nonempty B HB Ee)|].
  reflexivity.
Qed.


Lemma digit_char_ok d : (d < 10)%nat -> is_digit (digit_char d).
Proof.
  intros Hd. unfold is_digit.
  do 10 (destruct d as [|d]; [reflexivity|]). lia.
Qed.

Lemma string_of_nat_aux_digits fuel n acc :
  Forall is_digit acc -> Forall is_digit (string_of_nat_aux fuel n acc).
Proof.
  revert n acc; induction fuel as [|f IH]; intros n acc Hacc; simpl; [exact Hacc|].
  assert (Hd : Forall is_digit (digit_char (n mod 10) :: acc))
    by (constructor; [apply digit_char_ok, Nat.mod_upper_bound; lia | exact Hacc]).
  destruct (n <? 10); [exact Hd | apply IH, Hd].
Qed.

Lemma string_of_nat_digits n : Forall is_digit (string_of_nat n).
Proof. apply string_of_nat_aux_digits. constructor. Qed.

Lemma string_of_nat_aux_length f n acc :
  (S (length acc) <= length (string_of_nat_aux (S f) n acc))%nat.
Proof.
  revert n acc; induction f as [|f IH]; intros n acc; simpl.
  - destruct (n <? 10); simpl; lia.
  - destruct (n <? 10); [simpl; lia|].
    specialize (IH (n / 10) (digit_char (n mod 10) :: acc)). simpl in IH. lia.
Qed.

Lemma string_of_nat_one n : string_of_nat n = lit "1" -> n = 1%nat.
Proof.
  unfold string_of_nat. cbn [string_of_nat_aux]. intros H.
  destruct (n <? 10) eqn:Hn.
  - apply Nat.ltb_lt in Hn.
    assert (Hd : digit_char (n mod 10) = "1"%char) by (injection H; auto).
    rewrite Nat.mod_small in Hd by exact Hn.
    do 10 (destruct n as [|n]; [vm_compute in Hd; try discriminate Hd; reflexivity|]).
    lia.
  - apply Nat.ltb_ge in Hn. destruct n as [|n]; [lia|].
    pose proof (string_of_nat_aux_length n (S n / 10)
                  [digit_char (S n mod 10)]) as L.
    rewrite H in L. simpl in L. lia.
Qed.

Lemma digits_before_dot u v x y :
  Forall is_digit u -> Forall is_digit v ->
  u ++ "."%char :: x = v ++ "."%char :: y -> u = v.
Proof.
  revert v; induction u as [|a u IH]; intros [|b v] Hu Hv H; simpl in H.
  - reflexivity.
  - injection H as <- _. inversion Hv; subst. discriminate.
  - injection H as -> _. inversion Hu; subst. discriminate.
  - injection H as -> H. inversion Hu; inversion Hv; subst.
    f_equal. apply IH; assumption.
Qed.



Lemma image_name_inj_1 k : image_name k = image_name 1 -> k = 1%nat.
Proof.
  unfold image_name. intros H.
  apply app_inv_head in H.
  apply string_of_nat_one.
  apply (digits_before_dot _ _ (lit "png") (lit "png")
           (string_of_nat_digits k) (string_of_nat_digits 1) H).
Qed.

Lemma path_join_inj a x y :
  startswith x (lit "/") = false -> startswith y (lit "/") = false ->
  path_join a x = path_join a y -> x = y.
Proof.
  unfold path_join. intros Hx Hy. rewrite Hx, Hy.
  destruct (rev a) as [|c _]; [auto|].
  destruct (ascii_eqb c "/"); intros H; apply app_inv_head in H; auto.
  apply app_inv_head in H. exact H.
Qed.

Lemma fs_lookup_app fs1 fs2 p :
  fs_lookup (fs1 ++ fs2) p =
  match fs_lookup fs2 p with Some d => Some d | None => fs_lookup fs1 p end.
Proof.
  induction fs1 as [|[q d] fs1 IH]; simpl.
  - destruct (fs_lookup fs2 p); reflexivity.
  - rewrite IH. destruct (fs_lookup fs2 p); reflexivity.
Qed.

Lemma fs_lookup_none fs p :
  Forall (fun qd => fst qd <> p) fs -> fs_lookup fs p = None.
Proof.
  induction 1 as [|[q d] fs Hq _ IH]; simpl; [reflexivity|].
  rewrite IH. destruct (str_eqb p q) eqn:E; [|reflexivity].
  apply str_eqb_eq in E. simpl in Hq. congruence.
Qed.

(** ** What [save_mixed_content] writes *)

Lemma save_base64_image_files od wo g idx w :
  files (snd (save_base64_image od wo g idx w)) = files w \/
  exists d, files (snd (save_base64_image od wo g idx w))
            = files w ++ [(path_join od (image_name idx), d)].
Proof.
  unfold save_base64_image, write_file.
  destruct (if startswith g (lit "data:image/") then after_first_comma g else Some g)
    as [d|]; [|left; reflexivity].
  destruct (b64decode d) as [img|]; [|left; reflexivity].
  destruct (wo _); [right; eexists; reflexivity | left; reflexivity].
Qed.

Lemma download_image_from_url_files od wo fetch url idx w :
  files (snd (download_image_from_url od wo fetch url idx w)) = files w \/
  exists ext d, files (snd (download_image_from_url od wo fetch url idx w))
                = files w ++ [(path_join od (url_name idx ext), d)].
Proof.
  unfold download_image_from_url, write_file.
  destruct (fetch url) as [|ct body complete]; [left; reflexivity|].
  destruct (wo _); [|left; reflexivity].
  right. do 2 eexists. destruct complete; reflexivity.
Qed.

Lemma save_b64_loop_files od wo ms :
  forall t idx w, let '(_, idx', w') := save_b64_loop od wo ms t idx w in
  (idx <= idx')%nat /\
  exists more, files w' = files w ++ more /\
    Forall (fun qd => exists k, (idx <= k)%nat /\ fst qd = path_join od (image_name k)) more.
Proof.
  induction ms as [|[full g] ms IH]; intros t idx w; simpl.
  - split; [lia|]. exists []. rewrite app_nil_r. split; [reflexivity|constructor].
  - pose proof (save_base64_image_files od wo g idx w) as Hf.
    destruct (save_base64_image od wo g idx w) as [[p|] w1]; simpl in Hf.
    + specialize (IH (py_replace t full (b64_placeholder p)) (S idx) w1).
      destruct (save_b64_loop od wo ms _ (S idx) w1) as [[t' idx'] w'].
      destruct IH as [Hi [more [Hm Hall]]]. split; [lia|].
      destruct Hf as [Hf | [d Hf]].
      * exists more. rewrite Hm, Hf. split; [reflexivity|].
        eapply Forall_impl; [|exact Hall]. intros qd [k [Hk Hq]]. exists k. split; [lia|exact Hq].
      * exists ((path_join od (image_name idx), d) :: more). rewrite Hm, Hf, <- app_assoc.
        split; [reflexivity|]. constructor; [exists idx; split; [lia|reflexivity]|].
        eapply Forall_impl; [|exact Hall]. intros qd [k [Hk Hq]]. exists k. split; [lia|exact Hq].
    + specialize (IH t idx w1).
      destruct (save_b64_loop od wo ms t idx w1) as [[t' idx'] w'].
      destruct IH as [Hi [more [Hm Hall]]]. split; [lia|].
      destruct Hf as [Hf | [d Hf]].
      * exists more. rewrite Hm, Hf. split; [reflexivity|exact Hall].
      * exists ((path_join od (image_name idx), d) :: more). rewrite Hm, Hf, <- app_assoc.
        split; [reflexivity|]. constructor; [exists idx; split; [lia|reflexivity]|exact Hall].
Qed.

Lemma save_url_loop_files od wo fetch ms :
  forall t idx w, let '(_, idx', w') := save_url_loop od wo fetch ms t idx w in
  (idx <= idx')%nat /\
  exists more, files w' = files w ++ more /\
    Forall (fun qd => exists k ext, (idx <= k)%nat /\ fst qd = path_join od (url_name k ext)) more.
Proof.
  induction ms as [|[url g] ms IH]; intros t idx w; simpl.
  - split; [lia|]. exists []. rewrite app_nil_r. split; [reflexivity|constructor].
  - pose proof (download_image_from_url_files od wo fetch url idx w) as Hf.
    destruct (download_image_from_url od wo fetch url idx w) as [[p|] w1]; simpl in Hf.
    + specialize (IH (py_replace t url (url_placeholder p)) (S idx) w1).
      destruct (save_url_loop od wo fetch ms _ (S idx) w1) as [[t' idx'] w'].
      destruct IH as [Hi [more [Hm Hall]]]. split; [lia|].
      destruct Hf as [Hf | [ext [d Hf]]].
      * exists more. rewrite Hm, Hf. split; [reflexivity|].
        eapply Forall_impl; [|exact Hall]. intros qd [k [e [Hk Hq]]].
        exists k, e. split; [lia|exact Hq].
      * exists ((path_join od (url_name idx ext), d) :: more). rewrite Hm, Hf, <- app_assoc.
        split; [reflexivity|]. constructor; [exists idx, ext; split; [lia|reflexivity]|].
        eapply Forall_impl; [|exact Hall]. intros qd [k [e [Hk Hq]]].
        exists k, e. split; [lia|exact Hq].
    + specialize (IH t idx w1).
      destruct (save_url_loop od wo fetch ms t idx w1) as [[t' idx'] w'].
      destruct IH as [Hi [more [Hm Hall]]]. split; [lia|].
      destruct Hf as [Hf | [ext [d Hf]]].
      * exists more. rewrite Hm, Hf. split; [reflexivity|exact Hall].
      * exists ((path_join od (url_name idx ext), d) :: more). rewrite Hm, Hf, <- app_assoc.
        split; [reflexivity|]. constructor; [exists idx, ext; split; [lia|reflexivity]|exact Hall].
Qed.

Lemma save_mixed_content_files od wo fetch content w t1 i1 w1 t2 i2 w2 :
  save_b64_loop od wo (finditer match_b64_at content) content 1 w = (t1, i1, w1) ->
  save_url_loop od wo fetch (finditer match_url_at content) t1 i1 w1 = (t2, i2, w2) ->
  exists extra,
    files (snd (save_mixed_content od wo fetch content w)) = files w2 ++ extra /\
    Forall (fun qd => fst qd = path_join od (lit "content.txt")
                      \/ fst qd = path_join od (lit "original_content.txt")) extra.
Proof.
  intros E1 E2. unfold save_mixed_content, save_mixed_content_body.
  rewrite E1, E2. unfold write_file.
  destruct (wo (path_join od (lit "content.txt"))).
  - destruct (wo (path_join od (lit "original_content.txt"))); cbn [snd files print].
    + rewrite <- app_assoc. eexists. split; [reflexivity|]. simpl. auto.
    + eexists. split; [reflexivity|]. auto.
  - exists []. rewrite app_nil_r. split; [reflexivity|constructor].
Qed.

Lemma finditer_go_first match_at s full g :
  s <> [] -> match_at s = Some (full, g) ->
  exists rest, finditer_go match_at s 0 = (full, g) :: rest.
Proof.
  destruct s as [|c s]; [congruence|]. intros _ H. simpl. rewrite H. eauto.
Qed.

Lemma b64encode_not_data_image B :
  Forall is_byte B -> startswith (b64encode B) (lit "data:image/") = false.
Proof.
  intros HB. apply not_true_is_false. intros H.
  apply startswith_spec in H as [b Hb].
  assert (Hin : In ":"%char (b64encode B)) by (rewrite Hb; simpl; tauto).
  destruct (b64encode_chars B _ HB Hin) as [_ Hc]. discriminate Hc.
Qed.

Lemma occurs_suffix p pre u v : pre = v ++ u -> ~ occurs p pre -> ~ occurs p u.
Proof.
  intros -> Hno [a [b Hab]]. apply Hno. exists (v ++ a), b.
  rewrite Hab, app_assoc. reflexivity.
Qed.

(** C6 (as corrected): for every non-empty byte string [B], a response
    made of a text [pre] without [data:image/], the span
    [data:image/png;base64,<b64encode B>], and a rest [post] that is empty
    or starts with a character outside the payload class, makes
    [save_mixed_content] save [image_1.png] with exactly the bytes [B]
    (when that file can be written), whatever happens afterwards. *)
Theorem save_mixed_content_b64_roundtrip B pre post od wo fetch w :
  B <> [] -> Forall is_byte B -> ~ occurs data_image pre ->
  match post with [] => True | c :: _ => is_b64_char c = false end ->
  wo (path_join od (image_name 1)) = true ->
  fs_lookup
    (files (snd (save_mixed_content od wo fetch
                   (pre ++ lit "data:image/png;base64," ++ b64encode B ++ post) w)))
    (path_join od (image_name 1))
  = Some (FBytes B).
Proof.
  intros HB HBy Hpre Hpost Hwo.
  set (X := lit "data:image/png;base64," ++ b64encode B ++ post).
  set (span1 := lit "data:image/png;base64," ++ b64encode B).
  (* the first base64 match is the span *)
  assert (Hf : exists rest, finditer match_b64_at (pre ++ X) = (span1, b64encode B) :: rest).
  { unfold finditer. rewrite finditer_go_skip_prefix.
    - apply finditer_go_first; [discriminate|].
      apply match_b64_at_span; assumption.
    - intros u v Hv Hu. unfold match_b64_at.
      assert (Hs : startswith (u ++ X) (lit "data:image/") = false)
        by exact (data_image_no_straddle u X (lit "png;base64," ++ b64encode B ++ post)
                    Hu (occurs_suffix _ _ _ _ Hv Hpre) eq_refl).
      rewrite Hs. reflexivity. }
  destruct Hf as [rest Hf].
  (* the first step of the base64 loop writes image_1.png *)
  set (w1 := print (LogSavedBase64 (path_join od (image_name 1)))
               {| files := files w ++ [(path_join od (image_name 1), FBytes B)];
                  printed := printed w |}).
  assert (Hstep : save_b64_loop od wo (finditer match_b64_at (pre ++ X)) (pre ++ X) 1 w
                  = save_b64_loop od wo rest
                      (py_replace (pre ++ X) span1
                         (b64_placeholder (path_join od (image_name 1)))) 2 w1).
  { rewrite Hf. cbn [save_b64_loop]. unfold save_base64_image.
    rewrite (b64encode_not_data_image B HBy), (b64decode_b64encode B HBy).
    unfold write_file. change (lit "image_" ++ string_of_nat 1 ++ lit ".png")
      with (image_name 1). rewrite Hwo. reflexivity. }
  pose proof (save_b64_loop_files od wo rest
                (py_replace (pre ++ X) span1 (b64_placeholder (path_join od (image_name 1))))
                2 w1) as Hl1.
  destruct (save_b64_loop od wo rest _ 2 w1) as [[t1 i1] w1'] eqn:E1.
  destruct Hl1 as [Hi1 [more1 [Hm1 Hall1]]].
  pose proof (save_url_loop_files od wo fetch (finditer match_url_at (pre ++ X)) t1 i1 w1')
    as Hl2.
  destruct (save_url_loop od wo fetch (finditer match_url_at (pre ++ X)) t1 i1 w1')
    as [[t2 i2] w2] eqn:E2.
  destruct Hl2 as [Hi2 [more2 [Hm2 Hall2]]].
  destruct (save_mixed_content_files od wo fetch (pre ++ X) w t1 i1 w1' t2 i2 w2
              Hstep E2) as [extra [He Hall3]].
  rewrite He, Hm2, Hm1. unfold w1; cbn [files print].
  rewrite <- !app_assoc, fs_lookup_app, fs_lookup_app.
  rewrite (fs_lookup_none (more1 ++ more2 ++ extra)).
  - simpl. rewrite (proj2 (str_eqb_eq _ _) eq_refl). reflexivity.
  - assert (Hni : forall n, startswith n (lit "/") = false ->
              path_join od n = path_join od (image_name 1) -> n = image_name 1)
      by (intros n Hn Heq; exact (path_join_inj od n (image_name 1) Hn eq_refl Heq)).
    apply Forall_app; split; [|apply Forall_app; split].
    + eapply Forall_impl; [|exact Hall1]. intros qd [k [Hk Hq]] Heq.
      rewrite Hq in Heq. apply Hni in Heq; [|reflexivity].
      apply image_name_inj_1 in Heq. lia.
    + eapply Forall_impl; [|exact Hall2]. intros qd [k [e [Hk Hq]]] Heq.
      rewrite Hq in Heq. apply Hni in Heq; [|reflexivity].
      unfold url_name, image_name in Heq. discriminate Heq.
    + eapply Forall_impl; [|exact Hall3]. intros qd [Hq|Hq] Heq;
        rewrite Hq in Heq; apply Hni in Heq; try reflexivity; discriminate Heq.
Qed.

(** ** [str.replace] and occurrences *)


Lemma replace_go_skip a t old new :
  replace_go (a ++ t) old new (length a) = replace_go t old new 0.
Proof. induction a as [|c a IH]; simpl; auto. Qed.

Lemma replace_go_hit old new t :
  old <> [] -> replace_go (old ++ t) old new 0 = new ++ replace_go t old new 0.
Proof.
  destruct old as [|o old']; [congruence|]. intros _.
  assert (Hs : startswith ((o :: old') ++ t) (o :: old') = true)
    by (apply startswith_spec; eauto).
  change ((o :: old') ++ t) with (o :: (old' ++ t)) in *.
  cbn [replace_go]. rewrite Hs. cbn [length pred].
  rewrite replace_go_skip. reflexivity.
Qed.

Lemma replace_go_miss old new c t :
  startswith (c :: t) old = false ->
  replace_go (c :: t) old new 0 = c :: replace_go t old new 0.
Proof. intros H. cbn [replace_go]. rewrite H. reflexivity. Qed.

(** A prefix of the result that does not contain the first character of
    [new] is a prefix of the input. *)
Lemma replace_go_prefix old new n t p :
  old <> [] -> new = n :: tl new -> ~ In n p ->
  prefix p (replace_go t old new 0) -> prefix p t.
Proof.
  intros Hold Hnew. revert p. induction t as [|c t IH]; intros p Hn [b Hb].
  - destruct p; [exists []; reflexivity|discriminate].
  - destruct p as [|x p]; [exists (c :: t); reflexivity|].
    destruct (startswith (c :: t) old) eqn:Hs.
    + apply startswith_spec in Hs as [r Hr]. rewrite Hr, replace_go_hit in Hb by exact Hold.
      rewrite Hnew in Hb. injection Hb as -> _. exfalso. apply Hn. left. reflexivity.
    + rewrite replace_go_miss in Hb by exact Hs. injection Hb as -> Hb.
      destruct (IH p ltac:(intros H; apply Hn; right; exact H) (ex_intro _ b Hb)) as [b' Hb'].
      exists b'. rewrite Hb'. reflexivity.
Qed.

(** An occurrence in [new ++ R] lies in [R] when [new] lacks the first
    character of the pattern. *)
Lemma occurs_after_new p x new R :
  p = x :: tl p -> ~ In x new -> occurs p (new ++ R) -> occurs p R.
Proof.
  intros Hp Hx [a [b Hab]].
  apply app_eq_app in Hab as [l [[Hnew HR] | [Ha HR]]].
  - destruct l as [|y l].
    + rewrite app_nil_r in Hnew. subst a. exists [], b. simpl in HR. symmetry. exact HR.
    + exfalso. apply Hx. rewrite Hnew. apply in_or_app. right.
      rewrite Hp in HR. simpl in HR. injection HR as -> _. left. reflexivity.
  - exists l, b. exact HR.
Qed.

Section ReplaceOccurrences.
Variables (p new : str) (x n : ascii).
Hypothesis Hp : p = x :: tl p.
Hypothesis Hnew : new = n :: tl new.
Hypothesis Hx : ~ In x new.
Hypothesis Hn : ~ In n p.

Lemma prefix_tail_no_n : ~ In n (tl p).
Proof. intros H. apply Hn. rewrite Hp. right. exact H. Qed.

(** After replacing [p] by [new], no occurrence of [p] is left. *)
Lemma replace_go_removes t : ~ occurs p (replace_go t p new 0).
Proof.
  induction t as [t IH] using (induction_ltof1 _ (@length ascii)); unfold ltof in IH.
  destruct t as [|c t].
  - intros [a [b Hab]]. simpl in Hab. rewrite Hp in Hab.
    destruct a; discriminate.
  - destruct (startswith (c :: t) p) eqn:Hs.
    + apply startswith_spec in Hs as [r Hr]. rewrite Hr.
      rewrite replace_go_hit by (rewrite Hp; discriminate).
      intros Ho. apply occurs_after_new with (x := x) in Ho; auto.
      apply (IH r); auto.
      rewrite Hr, length_app, Hp. simpl. lia.
    + rewrite replace_go_miss by exact Hs.
      intros [a [b Hab]]. destruct a as [|y a].
      * assert (Hab' : c :: replace_go t p new 0 = x :: tl p ++ b)
          by (change (x :: tl p ++ b) with ((x :: tl p) ++ b); rewrite <- Hp; exact Hab).
        clear Hab. injection Hab' as -> Hab.
        destruct (replace_go_prefix p new n t (tl p) ltac:(rewrite Hp; discriminate)
                    Hnew prefix_tail_no_n (ex_intro _ b Hab)) as [r Hr].
        assert (startswith (x :: t) p = true)
          by (apply startswith_spec; exists r; rewrite Hp, Hr; reflexivity).
        congruence.
      * injection Hab as -> Hab. apply (IH t); [simpl; lia|]. exists a, b. exact Hab.
Qed.

(** Replacing any non-empty [old] by [new] brings no occurrence of [p]
    back. *)
Lemma replace_go_keeps_absent old t :
  old <> [] -> ~ occurs p t -> ~ occurs p (replace_go t old new 0).
Proof.
  intros Hold.
  induction t as [t IH] using (induction_ltof1 _ (@length ascii)); unfold ltof in IH.
  intros Hno. destruct t as [|c t].
  - intros [a [b Hab]]. simpl in Hab. rewrite Hp in Hab. destruct a; discriminate.
  - destruct (startswith (c :: t) old) eqn:Hs.
    + apply startswith_spec in Hs as [r Hr]. rewrite Hr.
      rewrite replace_go_hit by exact Hold.
      intros Ho. apply occurs_after_new with (x := x) in Ho; auto.
      revert Ho. apply (IH r).
      * rewrite Hr, length_app. destruct old; [congruence|]. simpl. lia.
      * apply (occurs_suffix p (c :: t) r old); [exact Hr|exact Hno].
    + rewrite replace_go_miss by exact Hs.
      intros [a [b Hab]]. destruct a as [|y a].
      * rewrite Hp in Hab. simpl in Hab. injection Hab as -> Hab.
        destruct (replace_go_prefix old new n t (tl p) Hold Hnew prefix_tail_no_n
                    (ex_intro _ b Hab)) as [r Hr].
        apply Hno. exists [], r. rewrite Hp, Hr. reflexivity.
      * injection Hab as <- Hab.
        apply (IH t); [simpl; lia| |exists a, b; exact Hab].
        apply (occurs_suffix p (c :: t) t [c]); [reflexivity|exact Hno].
Qed.
End ReplaceOccurrences.

Lemma replace_go_absent t old new :
  ~ occurs old t -> replace_go t old new 0 = t.
Proof.
  induction t as [|c t IH]; intros Hno; [reflexivity|].
  destruct (startswith (c :: t) old) eqn:Hs.
  - apply startswith_spec in Hs as [r Hr]. exfalso. apply Hno. exists [], r. exact Hr.
  - rewrite replace_go_miss by exact Hs. f_equal. apply IH.
    apply (occurs_suffix old (c :: t) t [c]); [reflexivity|exact Hno].
Qed.

(** ** One save *)

Lemma saved_paths_app l1 l2 : saved_paths (l1 ++ l2) = saved_paths l1 ++ saved_paths l2.
Proof. induction l1 as [|[] l1 IH]; simpl; try rewrite IH; reflexivity. Qed.

Lemma save_base64_image_cases od wo g idx w :
  save_base64_image od wo g idx w = (None, print LogBase64Error w) \/
  exists d, save_base64_image od wo g idx w =
    (Some (path_join od (image_name idx)),
     {| files := files w ++ [(path_join od (image_name idx), d)];
        printed := printed w ++ [LogSavedBase64 (path_join od (image_name idx))] |}).
Proof.
  unfold save_base64_image, write_file.
  destruct (if startswith g (lit "data:image/") then after_first_comma g else Some g)
    as [d|]; [|left; reflexivity].
  destruct (b64decode d) as [img|]; [|left; reflexivity].
  destruct (wo _); [right; eexists; reflexivity | left; reflexivity].
Qed.

Lemma download_image_from_url_cases od wo fetch url idx w :
  download_image_from_url od wo fetch url idx w = (None, print LogDownloadError w) \/
  (exists ct d, let p := path_join od (url_name idx (ext_of_content_type ct)) in
    download_image_from_url od wo fetch url idx w =
    (Some p, {| files := files w ++ [(p, d)]; printed := printed w ++ [LogDownloaded p] |})) \/
  (exists ct d, let p := path_join od (url_name idx (ext_of_content_type ct)) in
    download_image_from_url od wo fetch url idx w =
    (None, {| files := files w ++ [(p, d)]; printed := printed w ++ [LogDownloadError] |})).
Proof.
  unfold download_image_from_url, write_file.
  destruct (fetch url) as [|ct body complete]; [left; reflexivity|].
  destruct (wo _); [|left; reflexivity].
  right. destruct complete; [left|right]; exists ct; eexists; reflexivity.
Qed.

(** ** Numbering of the saved images *)

Lemma save_b64_loop_numbering od wo ms :
  forall t idx w, let '(_, idx', w') := save_b64_loop od wo ms t idx w in
  exists n evs fs, idx' = (idx + n)%nat /\ (n <= length ms)%nat /\
    printed w' = printed w ++ evs /\ files w' = files w ++ fs /\
    saved_paths evs = map (fun k => path_join od (image_name k)) (seq idx n) /\
    map fst fs = saved_paths evs.
Proof.
  induction ms as [|[full g] ms IH]; intros t idx w; cbn [save_b64_loop].
  - exists 0%nat, [], []. rewrite !app_nil_r. repeat split; simpl; lia.
  - destruct (save_base64_image_cases od wo g idx w) as [-> | [d ->]].
    + specialize (IH t idx (print LogBase64Error w)).
      destruct (save_b64_loop od wo ms t idx _) as [[t' idx'] w'].
      destruct IH as (n & evs & fs & Hi & Hn & Hp & Hf & Hs & Hm).
      exists n, (LogBase64Error :: evs), fs. cbn [length saved_paths].
      rewrite Hp, Hf. cbn [print printed files]. rewrite <- app_assoc.
      repeat split; auto; lia.
    + set (p := path_join od (image_name idx)).
      specialize (IH (py_replace t full (b64_placeholder p)) (S idx)
                    {| files := files w ++ [(p, d)]; printed := printed w ++ [LogSavedBase64 p] |}).
      destruct (save_b64_loop od wo ms _ (S idx) _) as [[t' idx'] w'].
      destruct IH as (n & evs & fs & Hi & Hn & Hp & Hf & Hs & Hm).
      exists (S n), (LogSavedBase64 p :: evs), ((p, d) :: fs). cbn [length saved_paths].
      rewrite Hp, Hf. cbn [printed files]. rewrite <- !app_assoc.
      repeat split; try (simpl; lia).
      * cbn [seq map]. rewrite Hs. reflexivity.
      * cbn [map fst]. rewrite Hm. reflexivity.
Qed.

Lemma save_url_loop_numbering od wo fetch ms :
  forall t idx w, let '(_, idx', w') := save_url_loop od wo fetch ms t idx w in
  exists exts evs fs, idx' = (idx + length exts)%nat /\ (length exts <= length ms)%nat /\
    printed w' = printed w ++ evs /\ files w' = files w ++ fs /\
    saved_paths evs = map (fun ke => path_join od (url_name (fst ke) (snd ke)))
                          (combine (seq idx (length exts)) exts).
Proof.
  induction ms as [|[url g] ms IH]; intros t idx w; cbn [save_url_loop].
  - exists [], [], []. rewrite !app_nil_r. repeat split; simpl; lia.
  - destruct (download_image_from_url_cases od wo fetch url idx w)
      as [-> | [[ct [d ->]] | [ct [d ->]]]].
    + specialize (IH t idx (print LogDownloadError w)).
      destruct (save_url_loop od wo fetch ms t idx _) as [[t' idx'] w'].
      destruct IH as (exts & evs & fs & Hi & Hn & Hp & Hf & Hs).
      exists exts, (LogDownloadError :: evs), fs. cbn [length saved_paths].
      rewrite Hp, Hf. cbn [print printed files]. rewrite <- app_assoc.
      repeat split; auto; lia.
    + set (p := path_join od (url_name idx (ext_of_content_type ct))).
      specialize (IH (py_replace t url (url_placeholder p)) (S idx)
                    {| files := files w ++ [(p, d)]; printed := printed w ++ [LogDownloaded p] |}).
      destruct (save_url_loop od wo fetch ms _ (S idx) _) as [[t' idx'] w'].
      destruct IH as (exts & evs & fs & Hi & Hn & Hp & Hf & Hs).
      exists (ext_of_content_type ct :: exts), (LogDownloaded p :: evs), ((p, d) :: fs).
      cbn [length saved_paths].
      rewrite Hp, Hf. cbn [printed files]. rewrite <- !app_assoc.
      repeat split; try (simpl; lia).
      cbn [seq combine map fst snd]. rewrite Hs. reflexivity.
    + set (p := path_join od (url_name idx (ext_of_content_type ct))).
      specialize (IH t idx
                    {| files := files w ++ [(p, d)]; printed := printed w ++ [LogDownloadError] |}).
      destruct (save_url_loop od wo fetch ms t idx _) as [[t' idx'] w'].
      destruct IH as (exts & evs & fs & Hi & Hn & Hp & Hf & Hs).
      exists exts, (LogDownloadError :: evs), ((p, d) :: fs). cbn [length saved_paths].
      rewrite Hp, Hf. cbn [printed files]. rewrite <- !app_assoc.
      repeat split; auto; lia.
Qed.

(** C7 (amended): one counter, starting at 1, shared by the two classes:
    the images announced as saved are [image_1.png] .. [image_nb.png] for
    the base64 matches, then [image_url_<nb+1>.<ext>] .. for the URL
    matches; a failed save uses no number.  For any content with two base64
    matches that decode and one URL match whose download succeeds, every
    file writable, the files written are exactly [image_1.png],
    [image_2.png], [image_url_3.<ext>], then [content.txt] (the content with
    the three matched spans replaced by their placeholders) and
    [original_content.txt]. *)
Theorem save_mixed_content_numbering :
  (forall od wo fetch content w,
     let w' := snd (save_mixed_content od wo fetch content w) in
     exists nb exts evs fs,
       printed w' = printed w ++ evs /\ files w' = files w ++ fs /\
       saved_paths evs =
         map (fun k => path_join od (image_name k)) (seq 1 nb) ++
         map (fun ke => path_join od (url_name (fst ke) (snd ke)))
             (combine (seq (S nb) (length exts)) exts) /\
       (nb <= length (finditer match_b64_at content))%nat /\
       (length exts <= length (finditer match_url_at content))%nat) /\
  (forall od wo fetch content w f1 g1 f2 g2 u x B1 B2 ct body,
     finditer match_b64_at content = [(f1, g1); (f2, g2)] ->
     finditer match_url_at content = [(u, x)] ->
     startswith g1 (lit "data:image/") = false -> startswith g2 (lit "data:image/") = false ->
     b64decode g1 = Some B1 -> b64decode g2 = Some B2 ->
     fetch u = Fetched ct body true ->
     (forall p, wo p = true) ->
     files (snd (save_mixed_content od wo fetch content w)) =
     files w ++
       [(path_join od (image_name 1), FBytes B1);
        (path_join od (image_name 2), FBytes B2);
        (path_join od (url_name 3 (ext_of_content_type ct)), FBytes body);
        (path_join od (lit "content.txt"),
         FText (py_replace
                  (py_replace (py_replace content f1 (b64_placeholder (path_join od (image_name 1))))
                     f2 (b64_placeholder (path_join od (image_name 2))))
                  u (url_placeholder (path_join od (url_name 3 (ext_of_content_type ct))))));
        (path_join od (lit "original_content.txt"), FText content)]).
Proof.
  split.
  - intros od wo fetch content w. cbv zeta.
    unfold save_mixed_content, save_mixed_content_body.
    pose proof (save_b64_loop_numbering od wo (finditer match_b64_at content) content 1 w) as H1.
    destruct (save_b64_loop od wo _ content 1 w) as [[t1 i1] w1].
    destruct H1 as (nb & evs1 & fs1 & Hi1 & Hn1 & Hp1 & Hf1 & Hs1 & Hm1).
    pose proof (save_url_loop_numbering od wo fetch (finditer match_url_at content) t1 i1 w1) as H2.
    destruct (save_url_loop od wo fetch _ t1 i1 w1) as [[t2 i2] w2].
    destruct H2 as (exts & evs2 & fs2 & Hi2 & Hn2 & Hp2 & Hf2 & Hs2).
    subst i1.
    assert (Hsp : forall tail, saved_paths tail = [] ->
               saved_paths (evs1 ++ evs2 ++ tail) =
               map (fun k => path_join od (image_name k)) (seq 1 nb) ++
               map (fun ke => path_join od (url_name (fst ke) (snd ke)))
                   (combine (seq (S nb) (length exts)) exts)).
    { intros tail Ht. rewrite !saved_paths_app, Ht, app_nil_r, Hs1, Hs2. reflexivity. }
    unfold write_file. cbn [files printed].
    destruct (wo (path_join od (lit "content.txt"))).
    + destruct (wo (path_join od (lit "original_content.txt"))); cbn [snd files printed print].
      * exists nb, exts, (evs1 ++ evs2 ++ [LogSavedText (path_join od (lit "content.txt"));
                                          LogSavedOriginal (path_join od (lit "original_content.txt"))]).
        exists (fs1 ++ fs2 ++ [(path_join od (lit "content.txt"), FText t2);
                              (path_join od (lit "original_content.txt"), FText content)]).
        rewrite Hp2, Hp1, Hf2, Hf1. rewrite <- !app_assoc. cbn [app].
        refine (conj eq_refl (conj eq_refl (conj _ (conj _ _)))); [apply Hsp; reflexivity | lia | lia].
      * exists nb, exts, (evs1 ++ evs2 ++ [LogSavedText (path_join od (lit "content.txt"));
                                          LogMixedContentError]).
        exists (fs1 ++ fs2 ++ [(path_join od (lit "content.txt"), FText t2)]).
        rewrite Hp2, Hp1, Hf2, Hf1. rewrite <- !app_assoc. cbn [app].
        refine (conj eq_refl (conj eq_refl (conj _ (conj _ _)))); [apply Hsp; reflexivity | lia | lia].
    + cbn [snd files printed print].
      exists nb, exts, (evs1 ++ evs2 ++ [LogMixedContentError]), (fs1 ++ fs2).
      rewrite Hp2, Hp1, Hf2, Hf1. rewrite <- !app_assoc.
      refine (conj eq_refl (conj eq_refl (conj _ (conj _ _)))); [apply Hsp; reflexivity | lia | lia].
  - intros od wo fetch content w f1 g1 f2 g2 u x B1 B2 ct body Hb Hu Hs1 Hs2 Hd1 Hd2 Hf Hwo.
    unfold save_mixed_content, save_mixed_content_body. rewrite Hb, Hu.
    cbn [save_b64_loop save_url_loop].
    unfold save_base64_image at 1. rewrite Hs1, Hd1. unfold write_file at 1. rewrite Hwo.
    cbn [print files printed].
    unfold save_base64_image at 1. rewrite Hs2, Hd2. unfold write_file at 1. rewrite Hwo.
    cbn [print files printed].
    unfold download_image_from_url at 1. rewrite Hf. unfold write_file at 1. rewrite Hwo.
    cbn [print files printed].
    unfold write_file. rewrite !Hwo. cbn [snd files printed print].
    rewrite <- !app_assoc. reflexivity.
Qed.

(** C7 (witness): [example_mixed_content], every file writable and every
    download complete. *)
Lemma save_mixed_content_numbering_witness :
  files (snd (save_mixed_content example_output_dir (fun _ => true) example_fetch
                example_mixed_content example_world)) =
  files example_world ++
    [(path_join example_output_dir (image_name 1), FBytes [65; 66; 67]%Z);
     (path_join example_output_dir (image_name 2), FBytes [68; 69; 70; 71]%Z);
     (path_join example_output_dir (url_name 3 (ext_of_content_type (lit "image/png"))),
      FBytes [137; 80; 78; 71]%Z);
     (path_join example_output_dir (lit "content.txt"),
      FText (py_replace
               (py_replace
                  (py_replace example_mixed_content (lit "data:image/png;base64,QUJD")
                     (b64_placeholder (path_join example_output_dir (image_name 1))))
                  (lit "data:image/jpeg;base64,REVGRw==")
                  (b64_placeholder (path_join example_output_dir (image_name 2))))
               (lit "https://cdn.example.com/gen/cat.png")
               (url_placeholder (path_join example_output_dir
                                   (url_name 3 (ext_of_content_type (lit "image/png")))))));
     (path_join example_output_dir (lit "original_content.txt"), FText example_mixed_content)].
Proof.
  apply (proj2 save_mixed_content_numbering example_output_dir (fun _ => true) example_fetch
           example_mixed_content example_world
           (lit "data:image/png;base64,QUJD") (lit "QUJD")
           (lit "data:image/jpeg;base64,REVGRw==") (lit "REVGRw==")
           (lit "https://cdn.example.com/gen/cat.png") (lit "https://cdn.example.com/gen/cat.png")
           [65; 66; 67]%Z [68; 69; 70; 71]%Z (lit "image/png") [137; 80; 78; 71]%Z);
    vm_compute; reflexivity.
Defined.

(** C7 (counterexample): the text [Raw data: ] followed by
    [example_mixed_content] has two base64 spans and one image URL; the
    three images are saved as [image_1.png], [image_2.png] and
    [image_url_3.png], yet the [content.txt] written still holds [data:],
    which is not part of any matched span. *)
Lemma save_mixed_content_residual_data :
  map fst (files (snd (save_mixed_content example_output_dir (fun _ => true) example_fetch
                         (lit "Raw data: " ++ example_mixed_content) example_world))) =
    [path_join example_output_dir (image_name 1);
     path_join example_output_dir (image_name 2);
     path_join example_output_dir (url_name 3 (lit "png"));
     path_join example_output_dir (lit "content.txt");
     path_join example_output_dir (lit "original_content.txt")] /\
  exists b,
    fs_lookup (files (snd (save_mixed_content example_output_dir (fun _ => true) example_fetch
                             (lit "Raw data: " ++ example_mixed_content) example_world)))
      (path_join example_output_dir (lit "content.txt"))
    = Some (FText (lit "Raw " ++ lit "data:" ++ b)).
Proof.
  split; [vm_compute; reflexivity|].
  eexists. cbv. reflexivity.
Qed.

(** ** Characters of the placeholders *)

Lemma no_scheme_char_app a b :
  no_scheme_char (a ++ b) = no_scheme_char a && no_scheme_char b.
Proof. apply forallb_app. Qed.

Lemma no_scheme_char_not_in s x :
  no_scheme_char s = true -> scheme_char x = true -> ~ In x s.
Proof.
  intros Hs Hx Hin. unfold no_scheme_char in Hs. rewrite forallb_forall in Hs.
  specialize (Hs x Hin). rewrite Hx in Hs. discriminate.
Qed.

Lemma scheme_char_cases x : scheme_char x = true -> x = "d"%char \/ x = "h"%char \/ x = "H"%char.
Proof.
  unfold scheme_char, ascii_eqb. intros H.
  repeat rewrite orb_true_iff in H. rewrite !Ascii.eqb_eq in H. tauto.
Qed.

Lemma no_scheme_char_string_of_nat k : no_scheme_char (string_of_nat k) = true.
Proof.
  unfold no_scheme_char. apply forallb_forall. intros c Hc.
  pose proof (proj1 (Forall_forall _ _) (string_of_nat_digits k) c Hc) as Hd.
  destruct (scheme_char c) eqn:E; [|reflexivity].
  destruct (scheme_char_cases c E) as [-> | [-> | ->]]; discriminate Hd.
Qed.

Lemma no_scheme_char_path_join a b :
  no_scheme_char a = true -> no_scheme_char b = true -> no_scheme_char (path_join a b) = true.
Proof.
  intros Ha Hb. unfold path_join.
  destruct (startswith b (lit "/")); [exact Hb|].
  destruct (rev a) as [|c r]; [exact Hb|].
  destruct (ascii_eqb c "/"); rewrite !no_scheme_char_app, Ha, Hb; reflexivity.
Qed.

Lemma no_scheme_char_ext ct : no_scheme_char (ext_of_content_type ct) = true.
Proof.
  unfold ext_of_content_type.
  destruct (contains _ (lit "png")); [reflexivity|].
  destruct (_ || _); [reflexivity|].
  destruct (contains _ (lit "gif")); reflexivity.
Qed.

(** No placeholder of an output directory [output_<ts>] contains a
    character a span starts with, when [ts] has none of them. *)
Lemma placeholders_no_scheme_char ts k ct :
  no_scheme_char ts = true ->
  no_scheme_char (b64_placeholder (path_join (create_output_directory ts) (image_name k))) = true /\
  no_scheme_char (url_placeholder
    (path_join (create_output_directory ts) (url_name k (ext_of_content_type ct)))) = true.
Proof.
  intros Hts.
  assert (Hod : no_scheme_char (create_output_directory ts) = true)
    by (unfold create_output_directory; rewrite no_scheme_char_app, Hts; reflexivity).
  unfold b64_placeholder, url_placeholder, image_name, url_name.
  split; rewrite !no_scheme_char_app; rewrite no_scheme_char_path_join; try reflexivity;
    try exact Hod; rewrite ?no_scheme_char_app, ?no_scheme_char_string_of_nat, ?no_scheme_char_ext;
    reflexivity.
Qed.

Lemma py_replace_nonempty t old new : old <> [] -> py_replace t old new = replace_go t old new 0.
Proof. destruct old; [congruence|reflexivity]. Qed.

Section DuplicateSpans.
Variables (ts od : str) (wo : str -> bool) (fetch : str -> fetch_result).
Variables (p : str) (x : ascii).
Hypothesis Hod : od = create_output_directory ts.
Hypothesis Hts : no_scheme_char ts = true.
Hypothesis Hp : p = x :: tl p.
Hypothesis Hx : scheme_char x = true.
Hypothesis Hbr : ~ In "["%char p.

Lemma dup_b64_placeholder k :
  b64_placeholder (path_join od (image_name k))
  = "["%char :: tl (b64_placeholder (path_join od (image_name k))) /\
  ~ In x (b64_placeholder (path_join od (image_name k))).
Proof.
  split; [reflexivity|]. apply no_scheme_char_not_in; [|exact Hx].
  rewrite Hod. apply (placeholders_no_scheme_char ts k []), Hts.
Qed.

Lemma dup_url_placeholder k ct :
  url_placeholder (path_join od (url_name k (ext_of_content_type ct)))
  = "["%char :: tl (url_placeholder (path_join od (url_name k (ext_of_content_type ct)))) /\
  ~ In x (url_placeholder (path_join od (url_name k (ext_of_content_type ct)))).
Proof.
  split; [reflexivity|]. apply no_scheme_char_not_in; [|exact Hx].
  rewrite Hod. apply (placeholders_no_scheme_char ts k ct), Hts.
Qed.

Lemma dup_b64_loop_keeps_absent ms :
  forall t idx w, Forall (fun m => fst m <> []) ms -> ~ occurs p t ->
  ~ occurs p (fst (fst (save_b64_loop od wo ms t idx w))).
Proof.
  induction ms as [|[full g] ms IH]; intros t idx w Hms Hno; [exact Hno|].
  apply Forall_cons_iff in Hms as [Hfull Hms]. cbn [fst] in Hfull.
  cbn [save_b64_loop].
  destruct (save_base64_image_cases od wo g idx w) as [-> | [d ->]]; apply IH; auto.
  destruct (dup_b64_placeholder idx) as [Hn Hxn].
  rewrite py_replace_nonempty by exact Hfull.
  apply (replace_go_keeps_absent p _ x "["%char Hp Hn Hxn Hbr full t Hfull Hno).
Qed.

Lemma dup_url_loop_keeps_absent ms :
  forall t idx w, Forall (fun m => fst m <> []) ms -> ~ occurs p t ->
  ~ occurs p (fst (fst (save_url_loop od wo fetch ms t idx w))).
Proof.
  induction ms as [|[url g] ms IH]; intros t idx w Hms Hno; [exact Hno|].
  apply Forall_cons_iff in Hms as [Hfull Hms]. cbn [fst] in Hfull.
  cbn [save_url_loop].
  destruct (download_image_from_url_cases od wo fetch url idx w) as [-> | [[ct [d ->]] | [ct [d ->]]]];
    apply IH; auto.
  destruct (dup_url_placeholder idx ct) as [Hn Hxn].
  rewrite py_replace_nonempty by exact Hfull.
  apply (replace_go_keeps_absent p _ x "["%char Hp Hn Hxn Hbr url t Hfull Hno).
Qed.
End DuplicateSpans.

(** C10 (amended): when the matched span [p] has no [\[] (the first
    character of every placeholder) and the output directory is
    [output_<ts>] with [ts] free of [d], [h] and [H], the first successful
    save of [p] removes every occurrence of [p] from the text; no later
    replacement, base64 or URL, brings it back; and each later match of the
    same span is still saved to its own file under the next number while
    its replacement leaves the text unchanged, so its placeholder never
    appears. *)
Theorem save_mixed_content_duplicate_spans ts od wo fetch p x :
  od = create_output_directory ts -> no_scheme_char ts = true ->
  p = x :: tl p -> scheme_char x = true -> ~ In "["%char p ->
  (forall t k, ~ occurs p (py_replace t p (b64_placeholder (path_join od (image_name k))))) /\
  (forall t k ct, ~ occurs p
     (py_replace t p (url_placeholder (path_join od (url_name k (ext_of_content_type ct)))))) /\
  (forall ms t idx w, Forall (fun m => fst m <> []) ms -> ~ occurs p t ->
     ~ occurs p (fst (fst (save_b64_loop od wo ms t idx w)))) /\
  (forall ms t idx w, Forall (fun m => fst m <> []) ms -> ~ occurs p t ->
     ~ occurs p (fst (fst (save_url_loop od wo fetch ms t idx w)))) /\
  (forall g ms t idx w, ~ occurs p t ->
     save_b64_loop od wo ((p, g) :: ms) t idx w =
     let '(r, w1) := save_base64_image od wo g idx w in
     save_b64_loop od wo ms t (match r with Some _ => S idx | None => idx end) w1) /\
  (forall g ms t idx w, ~ occurs p t ->
     save_url_loop od wo fetch ((p, g) :: ms) t idx w =
     let '(r, w1) := download_image_from_url od wo fetch p idx w in
     save_url_loop od wo fetch ms t (match r with Some _ => S idx | None => idx end) w1).
Proof.
  intros Hod Hts Hp Hx Hbr.
  assert (Hne : p <> []) by (rewrite Hp; discriminate).
  split; [|split; [|split; [|split; [|split]]]].
  - intros t k. destruct (dup_b64_placeholder ts od x Hod Hts Hx k) as [Hn Hxn].
    rewrite py_replace_nonempty by exact Hne.
    exact (replace_go_removes p _ x "["%char Hp Hn Hxn Hbr t).
  - intros t k ct. destruct (dup_url_placeholder ts od x Hod Hts Hx k ct) as [Hn Hxn].
    rewrite py_replace_nonempty by exact Hne.
    exact (replace_go_removes p _ x "["%char Hp Hn Hxn Hbr t).
  - intros ms t idx w. exact (dup_b64_loop_keeps_absent ts od wo p x Hod Hts Hp Hx Hbr ms t idx w).
  - intros ms t idx w.
    exact (dup_url_loop_keeps_absent ts od wo fetch p x Hod Hts Hp Hx Hbr ms t idx w).
  - intros g ms t idx w Hno. cbn [save_b64_loop].
    destruct (save_base64_image od wo g idx w) as [[q|] w1]; [|reflexivity].
    rewrite py_replace_nonempty, replace_go_absent by assumption. reflexivity.
  - intros g ms t idx w Hno. cbn [save_url_loop].
    destruct (download_image_from_url od wo fetch p idx w) as [[q|] w1]; [|reflexivity].
    rewrite py_replace_nonempty, replace_go_absent by assumption. reflexivity.
Qed.

Lemma not_in_of_forallb a s : forallb (fun c => negb (ascii_eqb c a)) s = true -> ~ In a s.
Proof.
  intros H Hin. rewrite forallb_forall in H. specialize (H a Hin).
  unfold ascii_eqb in H. rewrite Ascii.eqb_refl in H. discriminate.
Qed.

Lemma not_occurs_of_contains p s : contains s p = false -> ~ occurs p s.
Proof. intros H Ho. apply contains_spec in Ho. congruence. Qed.

(** C6 (witness): [ABC] between a short text and [ end]. *)
Lemma save_mixed_content_b64_roundtrip_witness :
  fs_lookup
    (files (snd (save_mixed_content example_output_dir (fun _ => true) example_fetch
                   (lit "Result: " ++ lit "data:image/png;base64," ++ b64encode [65; 66; 67]%Z
                    ++ lit " end") example_world)))
    (path_join example_output_dir (image_name 1))
  = Some (FBytes [65; 66; 67]%Z).
Proof.
  apply (save_mixed_content_b64_roundtrip [65; 66; 67]%Z (lit "Result: ") (lit " end")).
  - discriminate.
  - repeat constructor; unfold is_byte; lia.
  - apply not_occurs_of_contains. vm_compute. reflexivity.
  - reflexivity.
  - reflexivity.
Defined.

(** C6 (counterexample): for the empty byte string the span
    [data:image/png;base64,] has an empty payload, the pattern does not
    match it, and no image file is written. *)
Lemma save_mixed_content_empty_payload :
  map fst (files (snd (save_mixed_content example_output_dir (fun _ => true) example_fetch
                         (lit "data:image/png;base64," ++ b64encode []) example_world)))
  = [path_join example_output_dir (lit "content.txt");
     path_join example_output_dir (lit "original_content.txt")].
Proof. vm_compute. reflexivity. Qed.

(** C10 (witness): an ordinary span, [ts] the timestamp of
    [example_output_dir]. *)
Lemma save_mixed_content_duplicate_spans_witness :
  no_scheme_char (lit "20250828_120000") = true /\
  ~ occurs (lit "data:image/png;base64,QQ==")
      (py_replace (lit "data:image/png;base64,QQ== and data:image/png;base64,QQ==")
         (lit "data:image/png;base64,QQ==")
         (b64_placeholder (path_join example_output_dir (image_name 1)))).
Proof.
  split; [vm_compute; reflexivity|].
  apply (save_mixed_content_duplicate_spans (lit "20250828_120000") example_output_dir
           (fun _ => true) example_fetch (lit "data:image/png;base64,QQ==") "d"%char).
  - reflexivity.
  - vm_compute. reflexivity.
  - reflexivity.
  - reflexivity.
  - apply not_in_of_forallb. vm_compute. reflexivity.
Defined.

(** C10 (counterexample): the first two base64 matches of [dup_content]
    are the same span, yet [content.txt] holds the placeholder of the
    second one, [image_2.png]: replacing the first span recreated it. *)
Lemma duplicate_span_placeholder_reappears :
  fst (nth 0 (finditer match_b64_at dup_content) ([], [])) = dup_span /\
  fst (nth 1 (finditer match_b64_at dup_content) ([], [])) = dup_span /\
  let w' := snd (save_mixed_content example_output_dir (fun _ => true) example_fetch
                   dup_content example_world) in
  match fs_lookup (files w') (path_join example_output_dir (image_name 2)),
        fs_lookup (files w') (path_join example_output_dir (lit "content.txt")) with
  | Some _, Some (FText t) =>
      contains t (b64_placeholder (path_join example_output_dir (image_name 2)))
  | _, _ => false
  end = true.
Proof. vm_compute. repeat split. Qed.

(** ** No image in the text; errors of [save_mixed_content] *)

(** C8: when neither pattern matches the content and the two text files
    can be written, [save_mixed_content] writes exactly [content.txt] and
    [original_content.txt], both holding the content unchanged, and no
    image file. *)
Theorem save_mixed_content_no_images od wo fetch content w :
  finditer match_b64_at content = [] -> finditer match_url_at content = [] ->
  wo (path_join od (lit "content.txt")) = true ->
  wo (path_join od (lit "original_content.txt")) = true ->
  files (snd (save_mixed_content od wo fetch content w)) =
  files w ++ [(path_join od (lit "content.txt"), FText content);
              (path_join od (lit "original_content.txt"), FText content)].
Proof.
  intros Hb Hu Hc Ho.
  unfold save_mixed_content, save_mixed_content_body.
  rewrite Hb, Hu. cbn [save_b64_loop save_url_loop].
  unfold write_file. rewrite Hc. cbn [files printed print]. rewrite Ho.
  cbn [snd files]. rewrite <- app_assoc. reflexivity.
Qed.

Lemma save_b64_loop_fail od wo full g ms t idx w :
  fst (save_base64_image od wo g idx w) = None ->
  save_b64_loop od wo ((full, g) :: ms) t idx w =
  save_b64_loop od wo ms t idx (print LogBase64Error w).
Proof.
  intros H. cbn [save_b64_loop].
  destruct (save_base64_image_cases od wo g idx w) as [E | [d E]]; rewrite E in *;
    [reflexivity|discriminate].
Qed.

Lemma save_url_loop_fail od wo fetch url g ms t idx w :
  fst (download_image_from_url od wo fetch url idx w) = None ->
  save_url_loop od wo fetch ((url, g) :: ms) t idx w =
  save_url_loop od wo fetch ms t idx (snd (download_image_from_url od wo fetch url idx w)) /\
  printed (snd (download_image_from_url od wo fetch url idx w)) = printed w ++ [LogDownloadError] /\
  (files (snd (download_image_from_url od wo fetch url idx w)) = files w \/
   exists ct d, files (snd (download_image_from_url od wo fetch url idx w)) =
                files w ++ [(path_join od (url_name idx (ext_of_content_type ct)), d)]).
Proof.
  intros H. cbn [save_url_loop].
  destruct (download_image_from_url_cases od wo fetch url idx w) as [E | [[ct [d E]] | [ct [d E]]]];
    rewrite E in *; cbn [fst snd] in *; try discriminate.
  - refine (conj eq_refl (conj eq_refl (or_introl eq_refl))).
  - refine (conj eq_refl (conj eq_refl (or_intror _))). exists ct, d. reflexivity.
Qed.

(** C2 (amended): [save_mixed_content] never lets an exception reach its
    caller.  A base64 image or a download that fails is reported and
    skipped: the loop goes on with the next match, the same text and the
    same number; a download that breaks off after the response arrived
    leaves the part already written in its file [image_url_<n>.<ext>],
    and the number is not used up.  An error writing
    [content.txt] (or
    [original_content.txt]) is raised inside the [try], then caught and
    reported by the outer [except]. *)
Theorem save_mixed_content_errors od wo fetch :
  (forall content w, fst (save_mixed_content od wo fetch content w) = inr tt) /\
  (forall full g ms t idx w,
     fst (save_base64_image od wo g idx w) = None ->
     save_b64_loop od wo ((full, g) :: ms) t idx w =
     save_b64_loop od wo ms t idx (print LogBase64Error w)) /\
  (forall url g ms t idx w,
     fst (download_image_from_url od wo fetch url idx w) = None ->
     save_url_loop od wo fetch ((url, g) :: ms) t idx w =
     save_url_loop od wo fetch ms t idx (snd (download_image_from_url od wo fetch url idx w)) /\
     printed (snd (download_image_from_url od wo fetch url idx w)) = printed w ++ [LogDownloadError] /\
     (files (snd (download_image_from_url od wo fetch url idx w)) = files w \/
      exists ct d, files (snd (download_image_from_url od wo fetch url idx w)) =
                   files w ++ [(path_join od (url_name idx (ext_of_content_type ct)), d)])) /\
  (forall content w,
     wo (path_join od (lit "content.txt")) = false ->
     exists w', save_mixed_content_body od wo fetch content w
                = (inl (OSError (path_join od (lit "content.txt"))), w') /\
                save_mixed_content od wo fetch content w
                = (inr tt, print LogMixedContentError w')) /\
  (forall content w e w',
     save_mixed_content_body od wo fetch content w = (inl e, w') ->
     save_mixed_content od wo fetch content w = (inr tt, print LogMixedContentError w')).
Proof.
  split; [|split; [|split; [|split]]].
  - intros content w. unfold save_mixed_content.
    destruct (save_mixed_content_body od wo fetch content w) as [[e|[]] w']; reflexivity.
  - intros. apply save_b64_loop_fail. assumption.
  - intros. apply save_url_loop_fail. assumption.
  - intros content w Hc. unfold save_mixed_content, save_mixed_content_body.
    destruct (save_b64_loop od wo _ content 1 w) as [[t1 i1] w1].
    destruct (save_url_loop od wo fetch _ t1 i1 w1) as [[t2 i2] w2].
    unfold write_file. rewrite Hc. exists w2. split; reflexivity.
  - intros content w e w' H. unfold save_mixed_content. rewrite H. reflexivity.
Qed.

(** C2 (witness): a base64 span that does not decode is skipped. *)
Lemma save_mixed_content_errors_witness :
  fst (save_base64_image example_output_dir (fun _ => true) (lit "data:image/png;base64,Q") 1
         example_world) = None /\
  save_b64_loop example_output_dir (fun _ => true)
    [(lit "data:image/png;base64,Q", lit "data:image/png;base64,Q")] (lit "t") 1 example_world =
  save_b64_loop example_output_dir (fun _ => true) [] (lit "t") 1
    (print LogBase64Error example_world).
Proof.
  split; [vm_compute; reflexivity|].
  apply (proj1 (proj2 (save_mixed_content_errors example_output_dir (fun _ => true)
                         example_fetch))).
  vm_compute. reflexivity.
Defined.

(** C2 (counterexample): with [content.txt] not writable the body of the
    [try] raises [OSError], but [save_mixed_content] returns normally. *)
Lemma save_mixed_content_text_error_caught :
  fst (save_mixed_content_body example_output_dir content_txt_unwritable example_fetch
         (lit "hello") example_world)
  = inl (OSError (path_join example_output_dir (lit "content.txt"))) /\
  fst (save_mixed_content example_output_dir content_txt_unwritable example_fetch
         (lit "hello") example_world) = inr tt.
Proof. split; vm_compute; reflexivity. Qed.

(** C8 (witness): the content [hello]. *)
Lemma save_mixed_content_no_images_witness :
  files (snd (save_mixed_content example_output_dir (fun _ => true) example_fetch
                (lit "hello") example_world)) =
  files example_world ++
    [(path_join example_output_dir (lit "content.txt"), FText (lit "hello"));
     (path_join example_output_dir (lit "original_content.txt"), FText (lit "hello"))].
Proof.
  apply save_mixed_content_no_images; vm_compute; reflexivity.
Defined.

(** C5 (witness): [Request timed out] on every attempt, three attempts
    and a delay of two seconds: the first failure is retried at once. *)
Lemma retry_classification_witness :
  retry_loop (fun _ : Z => Failed (lit "Request timed out") : call_outcome unit)
    3%Z (2 # 1) 3 0%Z
  = if (0 <? 3 - 1)%Z then
      let '(t, r) := retry_loop (fun _ : Z => Failed (lit "Request timed out") : call_outcome unit)
                       3%Z (2 # 1) 2 (0 + 1)%Z in
      (Attempt 0 :: t, r)
    else ([Attempt 0], Reraised (lit "Request timed out")).
Proof.
  apply (proj1 (proj2 (retry_classification
    (fun _ : Z => Failed (lit "Request timed out") : call_outcome unit)
    3%Z (2 # 1) 2 0%Z (lit "Request timed out")))).
  - reflexivity.
  - vm_compute. reflexivity.
  - right. exists (lit "request "), []. vm_compute. reflexivity.
Defined.

(** ** The driver *)

Lemma prepare_loop_contents read ps : forall i,
  fst (prepare_loop read ps i) =
  flat_map (fun p => match read p with
                     | Some b => [lit "data:image/png;base64," ++ b64encode b]
                     | None => [] end) ps.
Proof.
  induction ps as [|p ps IH]; intros i; [reflexivity|].
  cbn [prepare_loop flat_map]. unfold prepare_image_data.
  specialize (IH (S i)). destruct (prepare_loop read ps (S i)) as [cs evs].
  cbn [fst] in *. destruct (read p); cbn [fst app]; rewrite IH; reflexivity.
Qed.

Lemma prepare_loop_log read ps : forall i,
  (forall e, In e (snd (prepare_loop read ps i)) -> e <> DRawRequest) /\
  (forall p, In p ps -> read p = None -> In (DImageError p) (snd (prepare_loop read ps i))).
Proof.
  induction ps as [|p ps IH]; intros i; [split; intros ? []|].
  cbn [prepare_loop]. unfold prepare_image_data.
  destruct (IH (S i)) as [IH1 IH2]. destruct (prepare_loop read ps (S i)) as [cs evs].
  cbn [snd] in *. destruct (read p) eqn:Er; cbn [snd]; split.
  - intros e [<-|He]; [discriminate|]. apply IH1. exact He.
  - intros q [<-|Hq] Hr; [congruence|]. right. apply IH2; assumption.
  - intros e [<-|[<-|[<-|He]]]; try discriminate. apply IH1. exact He.
  - intros q [<-|Hq] Hr; [right; right; left; reflexivity|].
    right; right; right. apply IH2; assumption.
Qed.

(** C9: every image whose file cannot be read is reported and skipped,
    and the others are still prepared, in order; when no image could be
    read the driver ends with [exit(1)] before any request, and otherwise
    it sends the request with the images read. *)
Theorem run_until_request_images read cfg ts :
  fst (prepare_loop read (image_paths_of cfg) 0) =
    flat_map (fun p => match read p with
                       | Some b => [lit "data:image/png;base64," ++ b64encode b]
                       | None => [] end) (image_paths_of cfg) /\
  (forall p, In p (image_paths_of cfg) -> read p = None ->
     In (DImageError p) (fst (run_until_request read cfg ts))) /\
  ((forall p, In p (image_paths_of cfg) -> read p = None) ->
     snd (run_until_request read cfg ts) = Exited 1 /\
     ~ In DRawRequest (fst (run_until_request read cfg ts))) /\
  ((exists p, In p (image_paths_of cfg) /\ read p <> None) ->
     snd (run_until_request read cfg ts) = Requested (fst (prepare_loop read (image_paths_of cfg) 0))).
Proof.
  pose proof (prepare_loop_contents read (image_paths_of cfg) 0) as Hc.
  destruct (prepare_loop_log read (image_paths_of cfg) 0) as [Hl1 Hl2].
  unfold run_until_request.
  destruct (prepare_loop read (image_paths_of cfg) 0) as [cs log] eqn:E.
  cbn [fst snd] in *. split; [exact Hc|split; [|split]].
  - intros p Hp Hr. destruct cs; cbn [fst]; apply in_or_app; left; apply Hl2; assumption.
  - intros Hall.
    assert (Hcs : cs = []).
    { rewrite Hc. clear - Hall. induction (image_paths_of cfg) as [|p ps IH]; [reflexivity|].
      cbn [flat_map]. rewrite (Hall p (or_introl eq_refl)).
      apply IH. intros q Hq. apply Hall. right. exact Hq. }
    rewrite Hcs. cbn [fst snd]. split; [reflexivity|].
    intros Hin. apply in_app_or in Hin as [Hin|[Hin|[]]]; [|discriminate].
    exact (Hl1 _ Hin eq_refl).
  - intros [p [Hp Hr]]. destruct cs as [|c cs]; [|reflexivity].
    exfalso. destruct (read p) as [b|] eqn:Er; [|congruence].
    assert (Hin : In (lit "data:image/png;base64," ++ b64encode b)
                     (flat_map (fun p => match read p with
                                         | Some b => [lit "data:image/png;base64," ++ b64encode b]
                                         | None => [] end) (image_paths_of cfg))).
    { apply in_flat_map. exists p. rewrite Er. split; [exact Hp|left; reflexivity]. }
    rewrite <- Hc in Hin. destruct Hin.
Qed.

(** C9 (witness): [a.png], [b.png] and [c.png], only [b.png] unreadable;
    and a single unreadable path. *)
Lemma run_until_request_images_witness :
  In (DImageError (lit "b.png"))
     (fst (run_until_request example_read_file
             (PathList [lit "a.png"; lit "b.png"; lit "c.png"]) (lit "20250828_120000"))) /\
  snd (run_until_request example_read_file (SinglePath (lit "b.png")) (lit "20250828_120000"))
  = Exited 1 /\
  ~ In DRawRequest
      (fst (run_until_request example_read_file (SinglePath (lit "b.png")) (lit "20250828_120000"))).
Proof.
  split.
  - apply (proj1 (proj2 (run_until_request_images example_read_file
             (PathList [lit "a.png"; lit "b.png"; lit "c.png"]) (lit "20250828_120000")))).
    + right; left; reflexivity.
    + vm_compute. reflexivity.
  - apply (proj1 (proj2 (proj2 (run_until_request_images example_read_file
             (SinglePath (lit "b.png")) (lit "20250828_120000"))))).
    intros p [<-|[]]. vm_compute. reflexivity.
Defined.

(** ** Image fields of the message *)

Lemma fold_left_appends {A} (f : str -> A -> str) (piece : A -> str) l :
  (forall acc x, f acc x = acc ++ piece x) ->
  forall acc, fold_left f l acc = acc ++ flat_map piece l.
Proof.
  intros Hf. induction l as [|x l IH]; intros acc; cbn [fold_left flat_map].
  - rewrite app_nil_r. reflexivity.
  - rewrite IH, Hf, app_assoc. reflexivity.
Qed.

Lemma raw_append_item_piece str_value acc img :
  raw_append_item str_value acc img = acc ++ raw_item_piece str_value img.
Proof.
  destruct img as [|b|z|s|l|d|o]; cbn [raw_append_item raw_item_piece];
    try (rewrite app_nil_r; reflexivity).
  - unfold raw_append_str. destruct (startswith s (lit "data:")); reflexivity.
  - destruct (assoc_get d (lit "data")); [reflexivity|].
    destruct (assoc_get d (lit "url")); [reflexivity|].
    destruct (assoc_get d (lit "base64")); [reflexivity|].
    rewrite app_nil_r. reflexivity.
Qed.

Lemma client_append_item_piece str_value acc img :
  client_append_item str_value acc img = acc ++ client_item_piece str_value img.
Proof.
  destruct img as [|b|z|s|l|d|o]; cbn [client_append_item client_item_piece];
    try reflexivity; try (rewrite app_nil_r; reflexivity).
  destruct (assoc_get o (lit "data")); [reflexivity|]. rewrite app_nil_r. reflexivity.
Qed.

(** C4 (amended): the raw path appends, for each of the six fields
    [images], [image], [attachments], [media], [files], [data] in turn, a
    piece for its value: a non-empty string (prefixed by
    [data:image/png;base64,] unless it starts with [data:]), or each string
    and each dict ([data], else [url], else [base64]) of a list; any other
    value adds nothing.  The managed-client path looks only at [images]:
    a message without that attribute keeps its content whatever its other
    attributes, and a list of images appends one piece per string or per
    object with a [data] attribute. *)
Theorem response_image_fields str_value :
  (forall message_dict c,
     raw_extend str_value message_dict c =
     c ++ flat_map (fun f => raw_field_piece str_value (assoc_get message_dict f))
                   possible_image_fields) /\
  (forall message_attrs c,
     assoc_get message_attrs (lit "images") = None ->
     client_extend str_value message_attrs c = Some c) /\
  (forall message_attrs c l,
     assoc_get message_attrs (lit "images") = Some (PList l) ->
     client_extend str_value message_attrs c =
     Some (c ++ flat_map (client_item_piece str_value) l)).
Proof.
  split; [|split].
  - intros md c. unfold raw_extend.
    apply fold_left_appends. intros acc f.
    destruct (assoc_get md f) as [v|]; cbn [raw_field_piece];
      [|rewrite app_nil_r; reflexivity].
    destruct v as [| [] | z |[|x s]|l|d|o]; cbn [truthy];
      try (rewrite app_nil_r; reflexivity).
    + destruct (Z.eqb z 0); rewrite app_nil_r; reflexivity.
    + unfold raw_append_str. cbn [truthy].
      destruct (startswith (x :: s) (lit "data:")); reflexivity.
    + destruct l as [|img l]; [rewrite app_nil_r; reflexivity|].
      apply fold_left_appends. apply raw_append_item_piece.
    + destruct d; rewrite app_nil_r; reflexivity.
  - intros attrs c H. unfold client_extend. rewrite H. reflexivity.
  - intros attrs c l H. unfold client_extend. rewrite H. cbn [truthy].
    destruct l as [|img l]; [rewrite app_nil_r; reflexivity|].
    f_equal. apply fold_left_appends. apply client_append_item_piece.
Qed.

(** C4 (witness): a message with one string in [image], and a client
    message with one string in [images]. *)
Lemma response_image_fields_witness :
  raw_extend sample_str_value [(lit "image", PStr (lit "QUJD"))] (lit "Done") =
  lit "Done" ++ flat_map (fun f => raw_field_piece sample_str_value
                                     (assoc_get [(lit "image", PStr (lit "QUJD"))] f))
                         possible_image_fields /\
  client_extend sample_str_value [(lit "images", PList [PStr (lit "QUJD")])] (lit "Done") =
  Some (lit "Done" ++ flat_map (client_item_piece sample_str_value) [PStr (lit "QUJD")]).
Proof.
  split.
  - apply (proj1 (response_image_fields sample_str_value)).
  - apply (proj2 (proj2 (response_image_fields sample_str_value))). reflexivity.
Defined.

(** C4 (counterexample): the same image in the [data] field is appended
    on the raw path, but ignored on the managed-client path. *)
Lemma client_path_ignores_data_field :
  raw_extend sample_str_value [(lit "data", PStr (lit "QUJD"))] (lit "Done") =
    lit "Done" ++ nl ++ lit "data:image/png;base64,QUJD" /\
  client_extend sample_str_value [(lit "data", PStr (lit "QUJD"))] (lit "Done") =
    Some (lit "Done").
Proof. split; vm_compute; reflexivity. Qed.

(** ** [call_api_raw] in stream mode *)

Lemma fold_exn_app {A B} (f : A -> B -> py_exn + A) l1 l2 a :
  fold_exn f (l1 ++ l2) a = exn_bind (fold_exn f l1 a) (fold_exn f l2).
Proof.
  revert a. induction l1 as [|b l1 IH]; intros a; [reflexivity|].
  cbn [app fold_exn]. destruct (f a b) as [e|a']; [reflexivity|]. apply IH.
Qed.

Lemma utf8_valid_data t : utf8_valid (lit "data: " ++ t) = utf8_valid t.
Proof. reflexivity. Qed.

Lemma status_error status :
  (400 <= status < 600)%Z -> ((400 <=? status)%Z && (status <? 600)%Z) = true.
Proof.
  intros H. apply andb_true_iff. split; [apply Z.leb_le|apply Z.ltb_lt]; lia.
Qed.

Lemma status_ok status :
  ~ (400 <= status < 600)%Z -> ((400 <=? status)%Z && (status <? 600)%Z) = false.
Proof.
  intros H. destruct (400 <=? status)%Z eqn:E1; [|reflexivity].
  destruct (status <? 600)%Z eqn:E2; [|reflexivity].
  apply Z.leb_le in E1. apply Z.ltb_lt in E2. exfalso. lia.
Qed.

(** Unfolds [stream_line] on the line [data: t] down to [json.loads t]. *)
Ltac open_data_line t :=
  let Hs := fresh "Hs" in let Hk := fresh "Hk" in
  let Hv := fresh "Hv" in let El := fresh "El" in
  assert (Hs : startswith (lit "data: " ++ t) (lit "data: ") = true) by apply startswith_app;
  assert (Hk : skipn 6 (lit "data: " ++ t) = t) by reflexivity;
  pose proof (utf8_valid_data t) as Hv;
  destruct (lit "data: " ++ t) as [|? ?] eqn:El; [discriminate El|];
  rewrite Hv, Hs, Hk.

Lemma stream_line_json_error json_loads st t e :
  json_loads t = inl e -> utf8_valid t = true -> t <> lit "[DONE]" ->
  stream_line json_loads st (lit "data: " ++ t) =
  match e with JSONDecodeError => inr st | _ => inl e end.
Proof.
  intros Hj Hu Hd. destruct st as [full chunks]. unfold stream_line.
  open_data_line t. rewrite Hu. cbn [negb].
  destruct (str_eqb t (lit "[DONE]")) eqn:E; [apply str_eqb_eq in E; contradiction|].
  cbn [negb]. rewrite Hj. destruct e; reflexivity.
Qed.

Lemma stream_line_bad_utf8 json_loads st x :
  x <> [] -> utf8_valid x = false -> stream_line json_loads st x = inl UnicodeDecodeError.
Proof.
  intros Hx Hu. destruct st as [full chunks]. destruct x as [|c x']; [contradiction|].
  unfold stream_line. rewrite Hu. reflexivity.
Qed.

(** C3 (amended): in stream mode [call_api_raw] makes one request and
    re-raises unchanged an exception raised before any response (such as
    a connection failure), an HTTP status error ([400] to [599]), an
    exception raised by [iter_lines] when the body breaks off, a line
    that is not valid UTF-8 ([UnicodeDecodeError]) and an exception of
    [json.loads] other than [JSONDecodeError] (such as [RecursionError]);
    but a [data:] line whose JSON is malformed ([JSONDecodeError]) is
    skipped silently: the result is the one of the same stream without
    that line. *)
Theorem call_api_raw_stream_failures json_loads wo output_dir :
  (forall e, call_api_raw_stream json_loads wo (ReqFail e) output_dir = inl e) /\
  (forall status lines broken, (400 <= status < 600)%Z ->
     call_api_raw_stream json_loads wo (Resp status lines broken) output_dir
     = inl (HTTPError status)) /\
  (forall status lines e st, ~ (400 <= status < 600)%Z ->
     fold_exn (stream_line json_loads) lines ([], []) = inr st ->
     call_api_raw_stream json_loads wo (Resp status lines (Some e)) output_dir = inl e) /\
  (forall status l1 x l2 broken st, ~ (400 <= status < 600)%Z ->
     fold_exn (stream_line json_loads) l1 ([], []) = inr st ->
     x <> [] -> utf8_valid x = false ->
     call_api_raw_stream json_loads wo (Resp status (l1 ++ x :: l2) broken) output_dir
     = inl UnicodeDecodeError) /\
  (forall status l1 d l2 broken e st, ~ (400 <= status < 600)%Z ->
     fold_exn (stream_line json_loads) l1 ([], []) = inr st ->
     json_loads d = inl e -> e <> JSONDecodeError ->
     utf8_valid d = true -> d <> lit "[DONE]" ->
     call_api_raw_stream json_loads wo
       (Resp status (l1 ++ (lit "data: " ++ d) :: l2) broken) output_dir = inl e) /\
  (forall status l1 d l2 broken, json_loads d = inl JSONDecodeError ->
     utf8_valid d = true -> d <> lit "[DONE]" ->
     call_api_raw_stream json_loads wo
       (Resp status (l1 ++ (lit "data: " ++ d) :: l2) broken) output_dir =
     call_api_raw_stream json_loads wo (Resp status (l1 ++ l2) broken) output_dir).
Proof.
  refine (conj _ (conj _ (conj _ (conj _ (conj _ _))))).
  - intros e. reflexivity.
  - intros status lines broken Hs. cbn [call_api_raw_stream].
    rewrite (status_error status Hs). reflexivity.
  - intros status lines e st Hs Hf. cbn [call_api_raw_stream].
    rewrite (status_ok status Hs), Hf. reflexivity.
  - intros status l1 x l2 broken st Hs Hf Hx Hu. cbn [call_api_raw_stream].
    rewrite (status_ok status Hs), fold_exn_app, Hf. cbn [exn_bind fold_exn].
    rewrite (stream_line_bad_utf8 json_loads st x Hx Hu). reflexivity.
  - intros status l1 d l2 broken e st Hs Hf Hj He Hu Hd. cbn [call_api_raw_stream].
    rewrite (status_ok status Hs), fold_exn_app, Hf. cbn [exn_bind fold_exn].
    rewrite (stream_line_json_error json_loads st d e Hj Hu Hd).
    destruct e; try reflexivity. contradiction.
  - intros status l1 d l2 broken Hj Hu Hd. cbn [call_api_raw_stream].
    destruct ((400 <=? status)%Z && (status <? 600)%Z); [reflexivity|].
    rewrite !fold_exn_app.
    destruct (fold_exn (stream_line json_loads) l1 ([], [])) as [e|st]; [reflexivity|].
    cbn [exn_bind fold_exn].
    rewrite (stream_line_json_error json_loads st d JSONDecodeError Hj Hu Hd). reflexivity.
Qed.

(** C3 (witness): a [503]; a stream cut after its first line; a line
    that is not UTF-8; a document nested too deeply; and a stream with a
    malformed line. *)
Lemma call_api_raw_stream_failures_witness :
  call_api_raw_stream sample_json_loads (fun _ => true) (Resp 503 [] None) example_output_dir
    = inl (HTTPError 503) /\
  call_api_raw_stream sample_json_loads (fun _ => true)
    (Resp 200 [lit "data: " ++ chunk_hi_text] (Some ChunkedEncodingError)) example_output_dir
    = inl ChunkedEncodingError /\
  call_api_raw_stream sample_json_loads (fun _ => true)
    (Resp 200 ([] ++ [ascii_of_nat 255] :: []) None) example_output_dir
    = inl UnicodeDecodeError /\
  call_api_raw_stream deep_json_loads (fun _ => true)
    (Resp 200 ([] ++ (lit "data: " ++ lit "[[[[") :: []) None) example_output_dir
    = inl RecursionError /\
  call_api_raw_stream sample_json_loads (fun _ => true)
    (Resp 200 ([] ++ (lit "data: " ++ lit "{bad") :: [lit "data: [DONE]"]) None) example_output_dir =
  call_api_raw_stream sample_json_loads (fun _ => true)
    (Resp 200 ([] ++ [lit "data: [DONE]"]) None) example_output_dir.
Proof.
  destruct (call_api_raw_stream_failures sample_json_loads (fun _ => true) example_output_dir)
    as (_ & H2 & H3 & H4 & _ & H6).
  destruct (call_api_raw_stream_failures deep_json_loads (fun _ => true) example_output_dir)
    as (_ & _ & _ & _ & H5 & _).
  refine (conj _ (conj _ (conj _ (conj _ _)))).
  - apply H2. lia.
  - apply (H3 200%Z _ ChunkedEncodingError (lit "hi", [chunk_hi])).
    + lia.
    + vm_compute. reflexivity.
  - apply (H4 200%Z [] [ascii_of_nat 255] [] None ([], [])).
    + lia.
    + reflexivity.
    + discriminate.
    + reflexivity.
  - apply (H5 200%Z [] (lit "[[[[") [] None RecursionError ([], [])).
    + lia.
    + reflexivity.
    + reflexivity.
    + discriminate.
    + reflexivity.
    + intros H. vm_compute in H. discriminate H.
  - apply H6.
    + vm_compute. reflexivity.
    + reflexivity.
    + intros H. vm_compute in H. discriminate H.
Defined.

(** C3 (counterexample): a stream whose first line holds malformed JSON
    ([{bad]) returns normally, with the content of the other lines. *)
Lemma call_api_raw_stream_skips_bad_json :
  call_api_raw_stream sample_json_loads (fun _ => true)
    (Resp 200 [lit "data: {bad"; lit "data: " ++ chunk_hi_text; lit "data: [DONE]"] None)
    example_output_dir
  = inr (stream_response (lit "hi") [chunk_hi]).
Proof. vm_compute. reflexivity. Qed.

(** * Further properties of the code *)

(** ** [call_openai_with_retry] *)

Lemma seq_shift_from (a : Z) n :
  map (fun i => (a + Z.of_nat i)%Z) (seq 0 (S n)) =
  a :: map (fun i => (a + 1 + Z.of_nat i)%Z) (seq 0 n).
Proof.
  cbn [seq map]. f_equal; [lia|]. rewrite <- seq_shift, map_map.
  apply map_ext. intros i. lia.
Qed.

Section RetryProperties.
Context {C : Type}.
Variable client : Z -> call_outcome C.
Variable max_retries : Z.
Variable retry_delay : Q.

Lemma retry_loop_shape fuel : forall a,
  exists n, (n <= fuel)%nat /\ (1 <= fuel -> 1 <= n)%nat /\
    fst (retry_loop client max_retries retry_delay fuel a) =
    flat_map (fun k => Attempt k :: sleep_after client max_retries retry_delay k)
             (map (fun i => (a + Z.of_nat i)%Z) (seq 0 n)).
Proof.
  induction fuel as [|f IH]; intros a.
  - exists 0%nat. refine (conj _ (conj _ _)); [lia|lia|reflexivity].
  - cbn [retry_loop].
    assert (Last : sleep_after client max_retries retry_delay a = [] ->
                   exists n, (n <= S f)%nat /\ (1 <= S f -> 1 <= n)%nat /\
                   [Attempt a] =
                   flat_map (fun k => Attempt k :: sleep_after client max_retries retry_delay k)
                            (map (fun i => (a + Z.of_nat i)%Z) (seq 0 n))).
    { intros Hs. exists 1%nat. refine (conj _ (conj _ _)); [lia|lia|].
      cbn [seq map flat_map]. rewrite Z.add_0_r, Hs. reflexivity. }
    assert (Next : forall t r,
              retry_loop client max_retries retry_delay f (a + 1) = (t, r) ->
              exists n, (n <= S f)%nat /\ (1 <= S f -> 1 <= n)%nat /\
              Attempt a :: sleep_after client max_retries retry_delay a ++ t =
              flat_map (fun k => Attempt k :: sleep_after client max_retries retry_delay k)
                       (map (fun i => (a + Z.of_nat i)%Z) (seq 0 n))).
    { intros t r Er. destruct (IH (a + 1)%Z) as (n & Hn & H1 & Ht).
      rewrite Er in Ht. cbn [fst] in Ht. exists (S n).
      refine (conj _ (conj _ _)); [lia|lia|].
      rewrite seq_shift_from. cbn [flat_map]. rewrite Ht. reflexivity. }
    destruct (client a) as [c|m] eqn:Ec.
    { apply Last. unfold sleep_after. rewrite Ec. reflexivity. }
    destruct (is_quota_exceeded_error m) eqn:Eq.
    + destruct (a <? max_retries - 1)%Z eqn:El.
      2: { apply Last. unfold sleep_after. rewrite Ec, Eq, El. reflexivity. }
      destruct (retry_loop client max_retries retry_delay f (a + 1)) as [t r] eqn:Er.
      destruct (Next t r eq_refl) as (n & Hn & H1 & Ht). exists n.
      refine (conj Hn (conj H1 _)). rewrite <- Ht. unfold sleep_after.
      rewrite Ec, Eq, El. cbn [fst andb].
      destruct (Qle_bool retry_delay 0); reflexivity.
    + assert (Hs : sleep_after client max_retries retry_delay a = [])
        by (unfold sleep_after; rewrite Ec, Eq; reflexivity).
      destruct (contains (lower m) (lit "timeout") || contains (lower m) (lit "timed out")).
      * destruct (a <? max_retries - 1)%Z eqn:El; [|apply Last; exact Hs].
        destruct (retry_loop client max_retries retry_delay f (a + 1)) as [t r] eqn:Er.
        destruct (Next t r eq_refl) as (n & Hn & H1 & Ht). exists n.
        refine (conj Hn (conj H1 _)). rewrite <- Ht, Hs. reflexivity.
      * apply Last; exact Hs.
Qed.
Lemma retry_loop_not_exhausted fuel : forall a,
  (Z.of_nat fuel + a = max_retries)%Z -> (1 <= fuel)%nat ->
  forall n, snd (retry_loop client max_retries retry_delay fuel a) <> ExhaustedAfter n.
Proof.
  induction fuel as [|f IH]; intros a Hf H1 n; [lia|].
  cbn [retry_loop].
  destruct (client a) as [c|m]; [discriminate|].
  assert (Rec : (a <? max_retries - 1)%Z = true ->
     snd (retry_loop client max_retries retry_delay f (a + 1)) <> ExhaustedAfter n).
  { intros El. apply Z.ltb_lt in El. apply IH; lia. }
  destruct (is_quota_exceeded_error m).
  - destruct (a <? max_retries - 1)%Z eqn:El; [|discriminate].
    specialize (Rec eq_refl).
    destruct (retry_loop client max_retries retry_delay f (a + 1)) as [t r]. exact Rec.
  - destruct (_ || _); [|discriminate].
    destruct (a <? max_retries - 1)%Z eqn:El; [|discriminate].
    specialize (Rec eq_refl).
    destruct (retry_loop client max_retries retry_delay f (a + 1)) as [t r]. exact Rec.
Qed.

Lemma retry_loop_origin fuel : forall a,
  (Z.of_nat fuel + a = max_retries)%Z ->
  (forall c, snd (retry_loop client max_retries retry_delay fuel a) = Returned c ->
     exists k, (a <= k < max_retries)%Z /\
       (forall j, (a <= j < k)%Z -> retryable (client j) = true) /\
       client k = Completed c) /\
  (forall m, snd (retry_loop client max_retries retry_delay fuel a) = Reraised m ->
     exists k, (a <= k < max_retries)%Z /\
       (forall j, (a <= j < k)%Z -> retryable (client j) = true) /\
       client k = Failed m /\
       (retryable (client k) = false \/ k = max_retries - 1)%Z).
Proof.
  induction fuel as [|f IH]; intros a Hf; [split; discriminate|].
  cbn [retry_loop].
  destruct (client a) as [c|m] eqn:Ec.
  - split; intros x Hx; cbn [snd] in Hx; inversion Hx; subst.
    exists a. refine (conj _ (conj _ Ec)); [lia|intros j Hj; lia].
  - destruct (IH (a + 1)%Z ltac:(lia)) as [IH1 IH2].
    assert (Rec : retryable (client a) = true -> forall t r,
       retry_loop client max_retries retry_delay f (a + 1) = (t, r) ->
       (forall c, r = Returned c -> exists k, (a <= k < max_retries)%Z /\
          (forall j, (a <= j < k)%Z -> retryable (client j) = true) /\
          client k = Completed c) /\
       (forall m', r = Reraised m' -> exists k, (a <= k < max_retries)%Z /\
          (forall j, (a <= j < k)%Z -> retryable (client j) = true) /\
          client k = Failed m' /\
          (retryable (client k) = false \/ k = max_retries - 1)%Z)).
    { intros Hra t r Er. rewrite Er in IH1, IH2. cbn [snd] in IH1, IH2. split.
      - intros c Hc. destruct (IH1 c Hc) as [k [Hk [Hj Ek]]].
        exists k. refine (conj _ (conj _ Ek)); [lia|].
        intros j Hj'. destruct (Z.eq_dec j a) as [->|Hne]; [exact Hra|apply Hj; lia].
      - intros m' Hm. destruct (IH2 m' Hm) as [k [Hk [Hj [Ek Hl]]]].
        exists k. refine (conj _ (conj _ (conj Ek Hl))); [lia|].
        intros j Hj'. destruct (Z.eq_dec j a) as [->|Hne]; [exact Hra|apply Hj; lia]. }
    assert (Here : (retryable (client a) = false \/ a = max_retries - 1)%Z ->
       forall m', @Reraised C m = Reraised m' -> exists k, (a <= k < max_retries)%Z /\
          (forall j, (a <= j < k)%Z -> retryable (client j) = true) /\
          client k = Failed m' /\
          (retryable (client k) = false \/ k = max_retries - 1)%Z).
    { intros Hc m' H. injection H as <-. exists a.
      refine (conj _ (conj _ (conj Ec Hc))); [lia|intros j Hj; lia]. }
    assert (Hq : retryable (client a) = is_quota_exceeded_error m
        || contains (lower m) (lit "timeout") || contains (lower m) (lit "timed out"))
      by (rewrite Ec; reflexivity).
    destruct (is_quota_exceeded_error m).
    + destruct (a <? max_retries - 1)%Z eqn:El.
      * destruct (retry_loop client max_retries retry_delay f (a + 1)) as [t r] eqn:Er.
        exact (Rec Hq t r eq_refl).
      * split; intros x Hx; cbn [snd] in Hx; [discriminate|].
        apply Here; [right; apply Z.ltb_ge in El; lia|exact Hx].
    + cbn [orb] in Hq.
      destruct (contains (lower m) (lit "timeout") || contains (lower m) (lit "timed out")).
      * destruct (a <? max_retries - 1)%Z eqn:El.
        -- destruct (retry_loop client max_retries retry_delay f (a + 1)) as [t r] eqn:Er.
           exact (Rec Hq t r eq_refl).
        -- split; intros x Hx; cbn [snd] in Hx; [discriminate|].
           apply Here; [right; apply Z.ltb_ge in El; lia|exact Hx].
      * split; intros x Hx; cbn [snd] in Hx; [discriminate|].
        apply Here; [left; exact Hq|exact Hx].
Qed.

Lemma retry_loop_returns fuel k c : forall a,
  (Z.of_nat fuel + a = max_retries)%Z -> (a <= k < max_retries)%Z ->
  (forall j, (a <= j < k)%Z -> retryable (client j) = true) ->
  client k = Completed c ->
  snd (retry_loop client max_retries retry_delay fuel a) = Returned c.
Proof.
  induction fuel as [|f IH]; intros a Hf Hk Hr Ec; [lia|].
  cbn [retry_loop].
  destruct (Z.eq_dec a k) as [->|Hne]; [rewrite Ec; reflexivity|].
  assert (Hj : retryable (client a) = true) by (apply Hr; lia).
  assert (El : (a <? max_retries - 1)%Z = true) by (apply Z.ltb_lt; lia).
  assert (Rec : snd (retry_loop client max_retries retry_delay f (a + 1)) = Returned c)
    by (apply IH; [lia|lia|intros j Hj'; apply Hr; lia|exact Ec]).
  unfold retryable in Hj. destruct (client a) as [c'|m]; [discriminate|].
  rewrite El.
  destruct (is_quota_exceeded_error m).
  - destruct (retry_loop client max_retries retry_delay f (a + 1)) as [t r]. exact Rec.
  - cbn [orb] in Hj. rewrite Hj.
    destruct (retry_loop client max_retries retry_delay f (a + 1)) as [t r]. exact Rec.
Qed.
Lemma retry_loop_reraises fuel k m : forall a,
  (Z.of_nat fuel + a = max_retries)%Z -> (a <= k < max_retries)%Z ->
  (forall j, (a <= j < k)%Z -> retryable (client j) = true) ->
  client k = Failed m ->
  (retryable (client k) = false \/ k = max_retries - 1)%Z ->
  snd (retry_loop client max_retries retry_delay fuel a) = Reraised m.
Proof.
  induction fuel as [|f IH]; intros a Hf Hk Hr Ec Hlast; [lia|].
  cbn [retry_loop].
  destruct (Z.eq_dec a k) as [<-|Hne].
  - rewrite Ec in Hlast |- *. unfold retryable in Hlast.
    destruct Hlast as [Hn|Hl].
    + destruct (is_quota_exceeded_error m); [discriminate|].
      cbn [orb] in Hn. rewrite Hn. reflexivity.
    + assert (El : (a <? max_retries - 1)%Z = false) by (apply Z.ltb_ge; lia).
      rewrite El. destruct (is_quota_exceeded_error m); [reflexivity|].
      destruct (_ || _); reflexivity.
  - assert (Hj : retryable (client a) = true) by (apply Hr; lia).
    assert (El : (a <? max_retries - 1)%Z = true) by (apply Z.ltb_lt; lia).
    assert (Rec : snd (retry_loop client max_retries retry_delay f (a + 1)) = Reraised m)
      by (apply IH; [lia|lia|intros j Hj'; apply Hr; lia|exact Ec|exact Hlast]).
    unfold retryable in Hj. destruct (client a) as [c'|m']; [discriminate|].
    rewrite El.
    destruct (is_quota_exceeded_error m').
    + destruct (retry_loop client max_retries retry_delay f (a + 1)) as [t r]. exact Rec.
    + cbn [orb] in Hj. rewrite Hj.
      destruct (retry_loop client max_retries retry_delay f (a + 1)) as [t r]. exact Rec.
Qed.
End RetryProperties.

(** The trace of [call_openai_with_retry]: attempts [0], [1], ..., [n - 1]
    in order, at most [max_retries] of them and at least one when
    [max_retries > 0], each followed by the sleep [sleep_after] gives it. *)
Theorem call_openai_with_retry_trace {C} (client : Z -> call_outcome C)
    (max_retries : Z) (retry_delay : Q) :
  exists n, (n <= Z.to_nat max_retries)%nat /\
    ((0 < max_retries)%Z -> (1 <= n)%nat) /\
    fst (call_openai_with_retry client max_retries retry_delay) =
    flat_map (fun k => Attempt k :: sleep_after client max_retries retry_delay k)
             (map Z.of_nat (seq 0 n)).
Proof.
  destruct (retry_loop_shape client max_retries retry_delay (Z.to_nat max_retries) 0)
    as [n [H1 [H2 H3]]].
  exists n. refine (conj H1 (conj _ _)).
  - intros Hm. apply H2. lia.
  - unfold call_openai_with_retry. rewrite H3. reflexivity.
Qed.

(** Every sleep of [call_openai_with_retry] lasts [retry_delay], happens only
    when [retry_delay > 0], and follows a quota-exceeded failure of an
    attempt [k] that was not the last one ([k < max_retries - 1]); a timeout
    is retried without sleeping. *)
Theorem call_openai_with_retry_sleeps {C} (client : Z -> call_outcome C)
    (max_retries : Z) (retry_delay : Q) (d : Q) :
  In (Sleep d) (fst (call_openai_with_retry client max_retries retry_delay)) ->
  d = retry_delay /\ Qle_bool retry_delay 0 = false /\
  exists k, (0 <= k < max_retries - 1)%Z /\ quota_failure (client k) = true /\
    In (Attempt k) (fst (call_openai_with_retry client max_retries retry_delay)).
Proof.
  destruct (retry_loop_shape client max_retries retry_delay (Z.to_nat max_retries) 0)
    as [n [H1 [_ H3]]].
  unfold call_openai_with_retry. rewrite H3. intros Hin.
  apply in_flat_map in Hin. destruct Hin as [k [Hk Hs]].
  apply in_map_iff in Hk. destruct Hk as [i [<- Hi]]. apply in_seq in Hi.
  destruct Hs as [Hs|Hs]; [discriminate|].
  unfold sleep_after in Hs.
  destruct (client (0 + Z.of_nat i)%Z) as [c|m] eqn:Ec; [contradiction|].
  destruct (is_quota_exceeded_error m) eqn:Eq; [|contradiction].
  destruct (0 + Z.of_nat i <? max_retries - 1)%Z eqn:El; [|contradiction].
  destruct (Qle_bool retry_delay 0); [contradiction|].
  destruct Hs as [Hs|[]]. injection Hs as <-.
  refine (conj eq_refl (conj eq_refl _)).
  exists (0 + Z.of_nat i)%Z. apply Z.ltb_lt in El.
  refine (conj _ (conj _ _)); [lia|unfold quota_failure; rewrite Ec; exact Eq|].
  apply in_flat_map. exists (0 + Z.of_nat i)%Z.
  split; [apply in_map_iff; exists i; split; [reflexivity|apply in_seq; lia]|left; reflexivity].
Qed.

(** [call_openai_with_retry] returns the completion [c] exactly when some
    attempt [k < max_retries] completes with [c] and every attempt before it
    failed with a quota or timeout error. *)
Theorem call_openai_with_retry_returned {C} (client : Z -> call_outcome C)
    (max_retries : Z) (retry_delay : Q) (c : C) :
  snd (call_openai_with_retry client max_retries retry_delay) = Returned c <->
  exists k, (0 <= k < max_retries)%Z /\
    (forall j, (0 <= j < k)%Z -> retryable (client j) = true) /\
    client k = Completed c.
Proof.
  unfold call_openai_with_retry.
  destruct (Z_le_gt_dec max_retries 0) as [Hle|Hgt].
  - replace (Z.to_nat max_retries) with 0%nat by lia. cbn.
    split; [discriminate|intros [k [Hk _]]; lia].
  - assert (Hf : (Z.of_nat (Z.to_nat max_retries) + 0 = max_retries)%Z) by lia.
    split.
    + intros H. exact (proj1 (retry_loop_origin client max_retries retry_delay _ 0 Hf) c H).
    + intros [k [Hk [Hr Ec]]].
      exact (retry_loop_returns client max_retries retry_delay _ k c 0 Hf Hk Hr Ec).
Qed.

(** [call_openai_with_retry] re-raises the error [m] exactly when some
    attempt [k < max_retries] fails with [m], every attempt before it failed
    with a quota or timeout error, and attempt [k] is either another error or
    the last one ([k = max_retries - 1]). *)
Theorem call_openai_with_retry_reraised {C} (client : Z -> call_outcome C)
    (max_retries : Z) (retry_delay : Q) (m : str) :
  snd (call_openai_with_retry client max_retries retry_delay) = Reraised m <->
  exists k, (0 <= k < max_retries)%Z /\
    (forall j, (0 <= j < k)%Z -> retryable (client j) = true) /\
    client k = Failed m /\
    (retryable (client k) = false \/ k = max_retries - 1)%Z.
Proof.
  unfold call_openai_with_retry.
  destruct (Z_le_gt_dec max_retries 0) as [Hle|Hgt].
  - replace (Z.to_nat max_retries) with 0%nat by lia. cbn.
    split; [discriminate|intros [k [Hk _]]; lia].
  - assert (Hf : (Z.of_nat (Z.to_nat max_retries) + 0 = max_retries)%Z) by lia.
    split.
    + intros H. exact (proj2 (retry_loop_origin client max_retries retry_delay _ 0 Hf) m H).
    + intros [k [Hk [Hr [Ec Hl]]]].
      exact (retry_loop_reraises client max_retries retry_delay _ k m 0 Hf Hk Hr Ec Hl).
Qed.

(** The final [Exception] of [call_openai_with_retry] (line 322) is raised
    exactly when [max_retries <= 0], and then no call is made at all. *)
Theorem call_openai_with_retry_exhausted {C} (client : Z -> call_outcome C)
    (max_retries : Z) (retry_delay : Q) (n : Z) :
  snd (call_openai_with_retry client max_retries retry_delay) = ExhaustedAfter n <->
  (max_retries <= 0)%Z /\ n = max_retries /\
  fst (call_openai_with_retry client max_retries retry_delay) = [].
Proof.
  unfold call_openai_with_retry.
  destruct (Z_le_gt_dec max_retries 0) as [Hle|Hgt].
  - replace (Z.to_nat max_retries) with 0%nat by lia. cbn.
    split; [intros H; injection H as <-; auto|intros [_ [-> _]]; reflexivity].
  - assert (Hf : (Z.of_nat (Z.to_nat max_retries) + 0 = max_retries)%Z) by lia.
    split; [|lia].
    intros H. exfalso.
    exact (retry_loop_not_exhausted client max_retries retry_delay _ 0 Hf ltac:(lia) n H).
Qed.

Lemma call_openai_with_retry_sleeps_witness :
  In (Sleep (2#1)) (fst (call_openai_with_retry quota_then_ok 3 (2#1))) /\
  exists k, (0 <= k < 3 - 1)%Z /\ quota_failure (quota_then_ok k) = true /\
    In (Attempt k) (fst (call_openai_with_retry quota_then_ok 3 (2#1))).
Proof.
  assert (H : In (Sleep (2#1)) (fst (call_openai_with_retry quota_then_ok 3 (2#1))))
    by (vm_compute; auto).
  split; [exact H|].
  exact (proj2 (proj2 (call_openai_with_retry_sleeps quota_then_ok 3 (2#1) (2#1) H))).
Defined.

(** ** [save_base64_image] and [download_image_from_url] *)

Lemma str_eqb_refl a : str_eqb a a = true.
Proof. apply str_eqb_eq. reflexivity. Qed.

Lemma after_first_comma_none s : ~ In ","%char s -> after_first_comma s = None.
Proof.
  induction s as [|c s IH]; intros Hn; [reflexivity|].
  cbn [after_first_comma]. destruct (ascii_eqb c ",") eqn:E.
  - exfalso. apply Hn. left. unfold ascii_eqb in E. apply Ascii.eqb_eq in E. congruence.
  - apply IH. intros Hi. apply Hn. right. exact Hi.
Qed.

Lemma ext_of_content_type_cases ct :
  In (ext_of_content_type ct) [lit "png"; lit "jpg"; lit "gif"].
Proof.
  unfold ext_of_content_type.
  destruct (contains _ (lit "png")); [left; reflexivity|].
  destruct (_ || _); [right; left; reflexivity|].
  destruct (contains _ (lit "gif")); [right; right; left; reflexivity|left; reflexivity].
Qed.

Lemma save_base64_image_written od wo g idx w p :
  fst (save_base64_image od wo g idx w) = Some p ->
  p = path_join od (image_name idx) /\ wo p = true.
Proof.
  unfold save_base64_image, write_file.
  destruct (if startswith g (lit "data:image/") then after_first_comma g else Some g)
    as [d|]; [|discriminate].
  destruct (b64decode d) as [img|]; [|discriminate].
  destruct (wo _) eqn:E; [|discriminate].
  cbn [fst]. intros H. injection H as <-. split; [reflexivity|exact E].
Qed.

Lemma download_image_from_url_written od wo fetch url idx w p :
  fst (download_image_from_url od wo fetch url idx w) = Some p ->
  exists ct, p = path_join od (url_name idx (ext_of_content_type ct)) /\ wo p = true.
Proof.
  unfold download_image_from_url, write_file.
  destruct (fetch url) as [|ct body complete]; [discriminate|].
  destruct (wo _) eqn:E; [|discriminate].
  destruct complete; [|discriminate].
  cbn [fst]. intros H. injection H as <-. exists ct. split; [reflexivity|exact E].
Qed.

(** [prepare_image_data] and [save_base64_image] are inverse: the data URI
    that [prepare_image_data] builds from a file is saved by
    [save_base64_image] as [image_<idx>.png] holding the bytes of the file,
    and the save is announced. *)
Theorem prepare_then_save_base64_image read p B od wo idx w :
  read p = Some B -> Forall is_byte B -> wo (path_join od (image_name idx)) = true ->
  exists s, fst (prepare_image_data read p) = inr s /\
    save_base64_image od wo s idx w =
    (Some (path_join od (image_name idx)),
     {| files := files w ++ [(path_join od (image_name idx), FBytes B)];
        printed := printed w ++ [LogSavedBase64 (path_join od (image_name idx))] |}).
Proof.
  intros Hr HB Hw. unfold prepare_image_data. rewrite Hr.
  eexists. split; [reflexivity|].
  unfold save_base64_image.
  assert (Hs : startswith (lit "data:image/png;base64," ++ b64encode B) (lit "data:image/")
               = true) by reflexivity.
  assert (Hc : after_first_comma (lit "data:image/png;base64," ++ b64encode B)
               = Some (b64encode B)) by reflexivity.
  rewrite Hs, Hc, (b64decode_b64encode B HB).
  unfold write_file, image_name in *. rewrite Hw. reflexivity.
Qed.

(** A data URI without a comma makes [save_base64_image] fail: it prints
    its error, returns [None] and writes nothing. *)
Theorem save_base64_image_no_comma od wo g idx w :
  startswith g (lit "data:image/") = true -> ~ In ","%char g ->
  save_base64_image od wo g idx w = (None, print LogBase64Error w).
Proof.
  intros Hs Hn. unfold save_base64_image. rewrite Hs, (after_first_comma_none g Hn).
  reflexivity.
Qed.

(** When [download_image_from_url] returns a path, the request succeeded,
    the path is [image_url_<idx>.<ext>] in the output directory with [ext]
    one of [png], [jpg], [gif] chosen from the [content-type] header, and
    the file at that path holds the body of the response. *)
Theorem download_image_from_url_saved od wo fetch url idx w p :
  fst (download_image_from_url od wo fetch url idx w) = Some p ->
  exists ct body, fetch url = Fetched ct body true /\
    In (ext_of_content_type ct) [lit "png"; lit "jpg"; lit "gif"] /\
    p = path_join od (url_name idx (ext_of_content_type ct)) /\
    fs_lookup (files (snd (download_image_from_url od wo fetch url idx w))) p
      = Some (FBytes body).
Proof.
  unfold download_image_from_url, write_file.
  destruct (fetch url) as [|ct body complete]; [discriminate|].
  destruct (wo _) eqn:E; [|discriminate].
  destruct complete; [|discriminate].
  cbn [fst]. intros H. injection H as <-.
  exists ct, body. refine (conj eq_refl (conj (ext_of_content_type_cases ct) (conj eq_refl _))).
  cbn [snd files print]. rewrite fs_lookup_app. cbn [fs_lookup].
  rewrite str_eqb_refl. reflexivity.
Qed.

(** ** Files written by [save_mixed_content] *)

Lemma image_name_not_text od k x :
  x = lit "content.txt" \/ x = lit "original_content.txt" ->
  path_join od (image_name k) <> path_join od x.
Proof.
  intros Hx H. apply path_join_inj in H; [|reflexivity|destruct Hx; subst; reflexivity].
  destruct Hx; subst; discriminate.
Qed.

Lemma url_name_not_text od k ext x :
  x = lit "content.txt" \/ x = lit "original_content.txt" ->
  path_join od (url_name k ext) <> path_join od x.
Proof.
  intros Hx H. apply path_join_inj in H; [|reflexivity|destruct Hx; subst; reflexivity].
  destruct Hx; subst; discriminate.
Qed.

Lemma text_paths_differ od :
  path_join od (lit "content.txt") <> path_join od (lit "original_content.txt").
Proof. intros H. apply path_join_inj in H; [discriminate|reflexivity|reflexivity]. Qed.

Lemma save_url_loop_writes od wo fetch ms : forall t idx w,
  (idx <= snd (fst (save_url_loop od wo fetch ms t idx w)))%nat /\
  exists more, files (snd (save_url_loop od wo fetch ms t idx w)) = files w ++ more /\
    Forall (fun qd => exists k ct, (idx <= k)%nat /\
              fst qd = path_join od (url_name k (ext_of_content_type ct))) more.
Proof.
  induction ms as [|[url g] ms IH]; intros t idx w; cbn [save_url_loop].
  - split; [cbn; lia|]. exists []. rewrite app_nil_r. split; [reflexivity|constructor].
  - destruct (download_image_from_url_cases od wo fetch url idx w) as [E|[[ct [d E]]|[ct [d E]]]];
      cbv zeta in E; rewrite E.
    + destruct (IH t idx (print LogDownloadError w)) as [Hi [more [Hm Hall]]].
      split; [exact Hi|]. exists more. rewrite Hm. split; [reflexivity|exact Hall].
    + match goal with
      | |- context [save_url_loop od wo fetch ms ?t' (S idx) ?w'] =>
          destruct (IH t' (S idx) w') as [Hi [more [Hm Hall]]]
      end.
      split; [lia|]. exists ((path_join od (url_name idx (ext_of_content_type ct)), d) :: more).
      rewrite Hm. cbn [files]. rewrite <- app_assoc. split; [reflexivity|].
      constructor; [exists idx, ct; split; [lia|reflexivity]|].
      eapply Forall_impl; [|exact Hall]. intros qd [k [c [Hk Hq]]].
      exists k, c. split; [lia|exact Hq].
    + match goal with
      | |- context [save_url_loop od wo fetch ms ?t' idx ?w'] =>
          destruct (IH t' idx w') as [Hi [more [Hm Hall]]]
      end.
      split; [exact Hi|]. exists ((path_join od (url_name idx (ext_of_content_type ct)), d) :: more).
      rewrite Hm. cbn [files]. rewrite <- app_assoc. split; [reflexivity|].
      constructor; [exists idx, ct; split; [lia|reflexivity]|exact Hall].
Qed.

Lemma save_b64_loop_no_write od wo ms :
  (forall k, wo (path_join od (image_name k)) = false) ->
  forall t idx w, fst (fst (save_b64_loop od wo ms t idx w)) = t /\
    files (snd (save_b64_loop od wo ms t idx w)) = files w.
Proof.
  intros Hno. induction ms as [|[full g] ms IH]; intros t idx w; cbn [save_b64_loop];
    [split; reflexivity|].
  destruct (save_base64_image_cases od wo g idx w) as [E|[d E]].
  - rewrite E. exact (IH t idx (print LogBase64Error w)).
  - exfalso.
    destruct (save_base64_image_written od wo g idx w (path_join od (image_name idx)))
      as [_ Hw]; [rewrite E; reflexivity|].
    rewrite Hno in Hw. discriminate.
Qed.

Lemma download_image_from_url_unwritable od wo fetch url idx w :
  (forall ct, wo (path_join od (url_name idx (ext_of_content_type ct))) = false) ->
  download_image_from_url od wo fetch url idx w = (None, print LogDownloadError w).
Proof.
  intros Hno. unfold download_image_from_url, write_file.
  destruct (fetch url) as [|ct body complete]; [reflexivity|].
  unfold url_name in Hno. rewrite Hno. reflexivity.
Qed.

Lemma save_url_loop_no_write od wo fetch ms :
  (forall k ct, wo (path_join od (url_name k (ext_of_content_type ct))) = false) ->
  forall t idx w, fst (fst (save_url_loop od wo fetch ms t idx w)) = t /\
    files (snd (save_url_loop od wo fetch ms t idx w)) = files w.
Proof.
  intros Hno. induction ms as [|[url g] ms IH]; intros t idx w; cbn [save_url_loop];
    [split; reflexivity|].
  rewrite (download_image_from_url_unwritable od wo fetch url idx w (Hno idx)).
  exact (IH t idx (print LogDownloadError w)).
Qed.

(** [save_mixed_content] only adds files, all in the output directory:
    base64 images [image_<k>.png] and downloads [image_url_<k>.<ext>] with
    [k >= 1] and [ext] one of [png], [jpg], [gif], then [content.txt] and
    [original_content.txt]; files written before are kept. *)
Theorem save_mixed_content_writes od wo fetch content w :
  exists more,
    files (snd (save_mixed_content od wo fetch content w)) = files w ++ more /\
    Forall (fun qd =>
      (exists k, (1 <= k)%nat /\ fst qd = path_join od (image_name k)) \/
      (exists k ext, (1 <= k)%nat /\ In ext [lit "png"; lit "jpg"; lit "gif"] /\
                     fst qd = path_join od (url_name k ext)) \/
      fst qd = path_join od (lit "content.txt") \/
      fst qd = path_join od (lit "original_content.txt")) more.
Proof.
  pose proof (save_b64_loop_files od wo (finditer match_b64_at content) content 1 w) as H1.
  destruct (save_b64_loop od wo (finditer match_b64_at content) content 1 w)
    as [[t1 i1] w1] eqn:E1.
  destruct H1 as [Hi1 [m1 [Hm1 Hall1]]].
  destruct (save_url_loop_writes od wo fetch (finditer match_url_at content) t1 i1 w1)
    as [Hi2 [m2 [Hm2 Hall2]]].
  destruct (save_url_loop od wo fetch (finditer match_url_at content) t1 i1 w1)
    as [[t2 i2] w2] eqn:E2.
  cbn [fst snd] in Hi2, Hm2.
  destruct (save_mixed_content_files od wo fetch content w t1 i1 w1 t2 i2 w2 E1 E2)
    as [m3 [Hm3 Hall3]].
  exists (m1 ++ m2 ++ m3). rewrite Hm3, Hm2, Hm1, <- !app_assoc. split; [reflexivity|].
  apply Forall_app; split; [|apply Forall_app; split].
  - eapply Forall_impl; [|exact Hall1]. intros qd [k [Hk Hq]].
    left. exists k. split; [lia|exact Hq].
  - eapply Forall_impl; [|exact Hall2]. intros qd [k [ct [Hk Hq]]].
    right; left. exists k, (ext_of_content_type ct).
    refine (conj _ (conj (ext_of_content_type_cases ct) Hq)). lia.
  - eapply Forall_impl; [|exact Hall3]. intros qd [Hq|Hq]; right; right; [left|right]; exact Hq.
Qed.

(** When both text files can be written, [original_content.txt] holds the
    content passed in, [content.txt] holds a text, and the last two
    messages announce them, in that order. *)
Theorem save_mixed_content_text_files od wo fetch content w :
  wo (path_join od (lit "content.txt")) = true ->
  wo (path_join od (lit "original_content.txt")) = true ->
  fs_lookup (files (snd (save_mixed_content od wo fetch content w)))
    (path_join od (lit "original_content.txt")) = Some (FText content) /\
  (exists t, fs_lookup (files (snd (save_mixed_content od wo fetch content w)))
               (path_join od (lit "content.txt")) = Some (FText t)) /\
  exists pre, printed (snd (save_mixed_content od wo fetch content w)) =
    pre ++ [LogSavedText (path_join od (lit "content.txt"));
            LogSavedOriginal (path_join od (lit "original_content.txt"))].
Proof.
  intros Hc Ho. unfold save_mixed_content, save_mixed_content_body.
  destruct (save_b64_loop od wo (finditer match_b64_at content) content 1 w)
    as [[t1 i1] w1].
  destruct (save_url_loop od wo fetch (finditer match_url_at content) t1 i1 w1)
    as [[t2 i2] w2].
  unfold write_file. rewrite Hc. cbn [files printed print]. rewrite Ho.
  cbn [snd files printed print].
  refine (conj _ (conj _ _)).
  - rewrite fs_lookup_app. cbn [fs_lookup]. rewrite str_eqb_refl. reflexivity.
  - exists t2. rewrite fs_lookup_app. cbn [fs_lookup].
    destruct (str_eqb (path_join od (lit "content.txt"))
                (path_join od (lit "original_content.txt"))) eqn:E.
    + apply str_eqb_eq in E. exfalso. exact (text_paths_differ od E).
    + rewrite fs_lookup_app. cbn [fs_lookup]. rewrite str_eqb_refl. reflexivity.
  - exists (printed w2). rewrite <- app_assoc. reflexivity.
Qed.

(** When [content.txt] cannot be written, [save_mixed_content] leaves both
    [content.txt] and [original_content.txt] as they were, and its last
    message is its error message. *)
Theorem save_mixed_content_text_unwritable od wo fetch content w :
  wo (path_join od (lit "content.txt")) = false ->
  fs_lookup (files (snd (save_mixed_content od wo fetch content w)))
    (path_join od (lit "content.txt")) = fs_lookup (files w) (path_join od (lit "content.txt")) /\
  fs_lookup (files (snd (save_mixed_content od wo fetch content w)))
    (path_join od (lit "original_content.txt"))
    = fs_lookup (files w) (path_join od (lit "original_content.txt")) /\
  exists pre, printed (snd (save_mixed_content od wo fetch content w)) =
    pre ++ [LogMixedContentError].
Proof.
  intros Hc.
  pose proof (save_b64_loop_files od wo (finditer match_b64_at content) content 1 w) as H1.
  destruct (save_b64_loop od wo (finditer match_b64_at content) content 1 w)
    as [[t1 i1] w1] eqn:E1.
  destruct H1 as [_ [m1 [Hm1 Hall1]]].
  destruct (save_url_loop_writes od wo fetch (finditer match_url_at content) t1 i1 w1)
    as [_ [m2 [Hm2 Hall2]]].
  destruct (save_url_loop od wo fetch (finditer match_url_at content) t1 i1 w1)
    as [[t2 i2] w2] eqn:E2.
  cbn [snd] in Hm2.
  unfold save_mixed_content, save_mixed_content_body. rewrite E1, E2.
  unfold write_file. rewrite Hc. cbn [snd files printed print].
  assert (Hnot : forall x, x = lit "content.txt" \/ x = lit "original_content.txt" ->
            fs_lookup (files w2) (path_join od x) = fs_lookup (files w) (path_join od x)).
  { intros x Hx. rewrite Hm2, Hm1, !fs_lookup_app.
    rewrite (fs_lookup_none m2), (fs_lookup_none m1); [reflexivity| |].
    - eapply Forall_impl; [|exact Hall1]. intros qd [k [_ Hq]]. rewrite Hq.
      exact (image_name_not_text od k x Hx).
    - eapply Forall_impl; [|exact Hall2]. intros qd [k [ct [_ Hq]]]. rewrite Hq.
      exact (url_name_not_text od k _ x Hx). }
  refine (conj (Hnot _ (or_introl eq_refl)) (conj (Hnot _ (or_intror eq_refl)) _)).
  exists (printed w2). reflexivity.
Qed.

(** When no image file can be written (only the two text files can),
    [save_mixed_content] writes [content.txt] with the content unchanged,
    then [original_content.txt] if it can, and nothing else. *)
Theorem save_mixed_content_no_image_written od wo fetch content w :
  (forall p, wo p = true ->
     p = path_join od (lit "content.txt") \/ p = path_join od (lit "original_content.txt")) ->
  wo (path_join od (lit "content.txt")) = true ->
  files (snd (save_mixed_content od wo fetch content w)) =
  files w ++ (path_join od (lit "content.txt"), FText content) ::
    (if wo (path_join od (lit "original_content.txt"))
     then [(path_join od (lit "original_content.txt"), FText content)] else []).
Proof.
  intros Hwo Hc.
  assert (Hb : forall k, wo (path_join od (image_name k)) = false).
  { intros k. destruct (wo (path_join od (image_name k))) eqn:E; [|reflexivity].
    exfalso. destruct (Hwo _ E) as [H|H]; revert H;
      apply image_name_not_text; [left|right]; reflexivity. }
  assert (Hu : forall k ct, wo (path_join od (url_name k (ext_of_content_type ct))) = false).
  { intros k ct. destruct (wo (path_join od (url_name k (ext_of_content_type ct)))) eqn:E;
      [|reflexivity].
    exfalso. destruct (Hwo _ E) as [H|H]; revert H;
      apply url_name_not_text; [left|right]; reflexivity. }
  destruct (save_b64_loop_no_write od wo (finditer match_b64_at content) Hb content 1 w)
    as [Ht1 Hf1].
  destruct (save_b64_loop od wo (finditer match_b64_at content) content 1 w)
    as [[t1 i1] w1] eqn:E1.
  cbn [fst snd] in Ht1, Hf1. subst t1.
  destruct (save_url_loop_no_write od wo fetch (finditer match_url_at content) Hu content i1 w1)
    as [Ht2 Hf2].
  destruct (save_url_loop od wo fetch (finditer match_url_at content) content i1 w1)
    as [[t2 i2] w2] eqn:E2.
  cbn [fst snd] in Ht2, Hf2. subst t2.
  unfold save_mixed_content, save_mixed_content_body. rewrite E1, E2.
  unfold write_file. rewrite Hc. cbn [files printed print].
  destruct (wo (path_join od (lit "original_content.txt"))); cbn [snd files print];
    rewrite Hf2, Hf1, <- ?app_assoc; reflexivity.
Qed.

Lemma prepare_then_save_base64_image_witness :
  exists s, fst (prepare_image_data example_read_file (lit "a.png")) = inr s /\
    save_base64_image example_output_dir (fun _ => true) s 1 example_world =
    (Some (path_join example_output_dir (image_name 1)),
     {| files := files example_world ++
                 [(path_join example_output_dir (image_name 1), FBytes [1; 2; 3]%Z)];
        printed := printed example_world ++
                   [LogSavedBase64 (path_join example_output_dir (image_name 1))] |}).
Proof.
  apply (prepare_then_save_base64_image example_read_file (lit "a.png") [1; 2; 3]%Z
           example_output_dir (fun _ => true) 1 example_world).
  - vm_compute. reflexivity.
  - repeat apply Forall_cons; try apply Forall_nil; unfold is_byte; lia.
  - reflexivity.
Defined.

Lemma save_base64_image_no_comma_witness :
  save_base64_image example_output_dir (fun _ => true) (lit "data:image/png;base64") 1
    example_world = (None, print LogBase64Error example_world).
Proof.
  apply save_base64_image_no_comma.
  - reflexivity.
  - apply not_in_of_forallb. vm_compute. reflexivity.
Defined.

Lemma download_image_from_url_saved_witness :
  fst (download_image_from_url example_output_dir (fun _ => true) example_fetch
         (lit "https://cdn.example.com/gen/cat.png") 1 example_world)
  = Some (path_join example_output_dir (url_name 1 (lit "png"))) /\
  exists ct body, example_fetch (lit "https://cdn.example.com/gen/cat.png") = Fetched ct body true /\
    In (ext_of_content_type ct) [lit "png"; lit "jpg"; lit "gif"] /\
    path_join example_output_dir (url_name 1 (lit "png"))
      = path_join example_output_dir (url_name 1 (ext_of_content_type ct)) /\
    fs_lookup (files (snd (download_image_from_url example_output_dir (fun _ => true)
                             example_fetch (lit "https://cdn.example.com/gen/cat.png") 1
                             example_world)))
      (path_join example_output_dir (url_name 1 (lit "png"))) = Some (FBytes body).
Proof.
  assert (H : fst (download_image_from_url example_output_dir (fun _ => true) example_fetch
                     (lit "https://cdn.example.com/gen/cat.png") 1 example_world)
              = Some (path_join example_output_dir (url_name 1 (lit "png"))))
    by (vm_compute; reflexivity).
  split; [exact H|].
  exact (download_image_from_url_saved example_output_dir (fun _ => true) example_fetch
           (lit "https://cdn.example.com/gen/cat.png") 1 example_world _ H).
Defined.

Lemma save_mixed_content_text_files_witness :
  fs_lookup (files (snd (save_mixed_content example_output_dir (fun _ => true) example_fetch
                           example_mixed_content example_world)))
    (path_join example_output_dir (lit "original_content.txt"))
    = Some (FText example_mixed_content) /\
  (exists t, fs_lookup (files (snd (save_mixed_content example_output_dir (fun _ => true)
                                      example_fetch example_mixed_content example_world)))
               (path_join example_output_dir (lit "content.txt")) = Some (FText t)) /\
  exists pre, printed (snd (save_mixed_content example_output_dir (fun _ => true) example_fetch
                              example_mixed_content example_world)) =
    pre ++ [LogSavedText (path_join example_output_dir (lit "content.txt"));
            LogSavedOriginal (path_join example_output_dir (lit "original_content.txt"))].
Proof.
  apply save_mixed_content_text_files; reflexivity.
Defined.

Lemma save_mixed_content_text_unwritable_witness :
  fs_lookup (files (snd (save_mixed_content example_output_dir content_txt_unwritable
                           example_fetch example_mixed_content example_world)))
    (path_join example_output_dir (lit "content.txt"))
    = fs_lookup (files example_world) (path_join example_output_dir (lit "content.txt")) /\
  fs_lookup (files (snd (save_mixed_content example_output_dir content_txt_unwritable
                           example_fetch example_mixed_content example_world)))
    (path_join example_output_dir (lit "original_content.txt"))
    = fs_lookup (files example_world)
        (path_join example_output_dir (lit "original_content.txt")) /\
  exists pre, printed (snd (save_mixed_content example_output_dir content_txt_unwritable
                              example_fetch example_mixed_content example_world)) =
    pre ++ [LogMixedContentError].
Proof.
  apply save_mixed_content_text_unwritable. vm_compute. reflexivity.
Defined.

Lemma save_mixed_content_no_image_written_witness :
  files (snd (save_mixed_content example_output_dir (only_text_files example_output_dir)
                example_fetch example_mixed_content example_world)) =
  files example_world ++
    (path_join example_output_dir (lit "content.txt"), FText example_mixed_content) ::
    (if only_text_files example_output_dir
          (path_join example_output_dir (lit "original_content.txt"))
     then [(path_join example_output_dir (lit "original_content.txt"),
            FText example_mixed_content)] else []).
Proof.
  apply save_mixed_content_no_image_written.
  - intros p H. unfold only_text_files in H. apply orb_true_iff in H.
    destruct H as [H|H]; apply str_eqb_eq in H; [left|right]; exact H.
  - vm_compute. reflexivity.
Defined.

(** ** [call_api_raw] in stream mode *)


Lemma stream_line_ignored json_loads st x :
  (x = [] \/ (utf8_valid x = true /\
              (startswith x (lit "data: ") = false \/ x = lit "data: [DONE]"))) ->
  stream_line json_loads st x = inr st.
Proof.
  destruct st as [full chunks]. intros [->|[Hu [H| ->]]]; [reflexivity| |reflexivity].
  unfold stream_line. destruct x as [|c x']; [reflexivity|]. rewrite Hu, H. reflexivity.
Qed.

Lemma stream_line_delta_value json_loads full chunks t chunk v :
  json_loads t = inr chunk -> delta_content_is chunk v ->
  utf8_valid t = true -> t <> lit "[DONE]" ->
  stream_line json_loads (full, chunks) (lit "data: " ++ t) =
  match v with
  | PStr s => inr (full ++ s, chunks ++ [chunk])
  | _ => inl TypeError
  end.
Proof.
  intros Hj (kvs & c0 & rest & dl & -> & Hch & Hdl & Hct) Hu Hd. unfold stream_line.
  open_data_line t. rewrite Hu. cbn [negb].
  destruct (str_eqb t (lit "[DONE]")) eqn:E; [apply str_eqb_eq in E; contradiction|].
  cbn [negb]. rewrite Hj.
  cbn [exn_bind py_in py_getitem]. rewrite Hch. cbn [exn_bind py_len py_index0 py_get].
  replace (0 <? length (PDict c0 :: rest)) with true by (symmetry; apply Nat.ltb_lt; cbn; lia).
  cbn [exn_bind py_index0 py_get]. rewrite Hdl. cbn [exn_bind py_in py_getitem].
  rewrite Hct. cbn [exn_bind]. destruct v; reflexivity.
Qed.

Lemma stream_line_piece json_loads full chunks t chunk s :
  json_loads t = inr chunk -> chunk_piece chunk s ->
  utf8_valid t = true -> t <> lit "[DONE]" ->
  stream_line json_loads (full, chunks) (lit "data: " ++ t) = inr (full ++ s, chunks ++ [chunk]).
Proof.
  intros Hj Hp Hu Hd. destruct Hp as [chunk s Hc|kvs Hch|kvs Hch|kvs c0 rest Hch Hdl|kvs c0 rest dl Hch Hdl Hct].
  - exact (stream_line_delta_value json_loads full chunks t chunk (PStr s) Hj Hc Hu Hd).
  - unfold stream_line. open_data_line t. rewrite Hu. cbn [negb].
    destruct (str_eqb t (lit "[DONE]")) eqn:E; [apply str_eqb_eq in E; contradiction|].
    cbn [negb]. rewrite Hj. cbn [exn_bind py_in]. rewrite Hch, app_nil_r. reflexivity.
  - unfold stream_line. open_data_line t. rewrite Hu. cbn [negb].
    destruct (str_eqb t (lit "[DONE]")) eqn:E; [apply str_eqb_eq in E; contradiction|].
    cbn [negb]. rewrite Hj. cbn [exn_bind py_in py_getitem]. rewrite Hch.
    cbn [exn_bind py_len]. rewrite app_nil_r. reflexivity.
  - unfold stream_line. open_data_line t. rewrite Hu. cbn [negb].
    destruct (str_eqb t (lit "[DONE]")) eqn:E; [apply str_eqb_eq in E; contradiction|].
    cbn [negb]. rewrite Hj. cbn [exn_bind py_in py_getitem]. rewrite Hch.
    cbn [exn_bind py_len py_index0 py_get].
    replace (0 <? length (PDict c0 :: rest)) with true by (symmetry; apply Nat.ltb_lt; cbn; lia).
    cbn [exn_bind py_index0 py_get]. rewrite Hdl. cbn [exn_bind py_in assoc_get].
    rewrite app_nil_r. reflexivity.
  - unfold stream_line. open_data_line t. rewrite Hu. cbn [negb].
    destruct (str_eqb t (lit "[DONE]")) eqn:E; [apply str_eqb_eq in E; contradiction|].
    cbn [negb]. rewrite Hj. cbn [exn_bind py_in py_getitem]. rewrite Hch.
    cbn [exn_bind py_len py_index0 py_get].
    replace (0 <? length (PDict c0 :: rest)) with true by (symmetry; apply Nat.ltb_lt; cbn; lia).
    cbn [exn_bind py_index0 py_get]. rewrite Hdl. cbn [exn_bind py_in].
    rewrite Hct, app_nil_r. reflexivity.
Qed.

Lemma fold_stream_pieces json_loads ps : forall full chunks,
  Forall (piece_line json_loads) ps ->
  fold_exn (stream_line json_loads) (map (fun x => lit "data: " ++ fst (fst x)) ps) (full, chunks) =
  inr (full ++ concat (map snd ps), chunks ++ map (fun x => snd (fst x)) ps).
Proof.
  induction ps as [|[[t chunk] s] ps IH]; intros full chunks Hall.
  - cbn. rewrite !app_nil_r. reflexivity.
  - inversion Hall as [|? ? (Hj & Hp & Hu & Hd) Hrest]; subst. cbn [map fold_exn fst snd concat].
    rewrite (stream_line_piece json_loads full chunks t chunk s Hj Hp Hu Hd). cbn [exn_bind].
    rewrite (IH _ _ Hrest), <- !app_assoc. reflexivity.
Qed.

(** In stream mode, empty lines, and valid UTF-8 lines that do not start
    with [data: ] or are the line [data: [DONE]], are ignored: the result
    is the one of the stream without them; in particular [[DONE]] does
    not end the reading, later lines are still used. *)
Theorem call_api_raw_stream_ignored_line json_loads wo status l1 x l2 broken output_dir :
  (x = [] \/ (utf8_valid x = true /\
              (startswith x (lit "data: ") = false \/ x = lit "data: [DONE]"))) ->
  call_api_raw_stream json_loads wo (Resp status (l1 ++ x :: l2) broken) output_dir =
  call_api_raw_stream json_loads wo (Resp status (l1 ++ l2) broken) output_dir.
Proof.
  intros Hx. cbn [call_api_raw_stream].
  destruct ((400 <=? status)%Z && (status <? 600)%Z); [reflexivity|].
  rewrite !fold_exn_app.
  destruct (fold_exn (stream_line json_loads) l1 ([], [])) as [e|st]; [reflexivity|].
  cbn [exn_bind fold_exn]. rewrite stream_line_ignored by exact Hx. reflexivity.
Qed.

(** In stream mode, when the body ends normally, every line is [data: t]
    with [t] valid UTF-8, not [[DONE]], and a JSON object that adds a
    piece (the string [delta.content] of its first choice, or nothing
    when there is no [choices], no choice, no [delta] or no [content]),
    and the debug files can be written (or there is no output directory),
    [call_api_raw] returns the concatenation of the pieces, in order, as
    the message content, and every chunk in [stream_chunks]. *)
Theorem call_api_raw_stream_deltas json_loads wo status ps output_dir :
  ~ (400 <= status < 600)%Z ->
  Forall (piece_line json_loads) ps ->
  (output_dir = [] \/
   (wo (path_join output_dir (lit "stream_chunks.json")) = true /\
    wo (path_join output_dir (lit "raw_api_response.json")) = true)) ->
  call_api_raw_stream json_loads wo
    (Resp status (map (fun x => lit "data: " ++ fst (fst x)) ps) None) output_dir =
  inr (stream_response (concat (map snd ps)) (map (fun x => snd (fst x)) ps)).
Proof.
  intros Hs Hall Hod. cbn [call_api_raw_stream]. rewrite (status_ok status Hs).
  pose proof (fold_stream_pieces json_loads ps [] [] Hall) as Hf.
  unfold str in *. rewrite Hf. cbn [exn_bind app].
  destruct Hod as [->|[H1 H2]]; [reflexivity|].
  unfold debug_dump. destruct output_dir as [|c od]; [reflexivity|].
  rewrite H1. cbn [exn_bind]. rewrite H2. reflexivity.
Qed.

(** In stream mode, a chunk whose [delta.content] in its first choice is
    not a string ([null], a number, a list, ...) makes [call_api_raw]
    raise [TypeError] (from [full_content += ...]), which neither the
    [JSONDecodeError] handler nor the [RequestException] handler
    catches. *)
Theorem call_api_raw_stream_non_string_delta json_loads wo status l1 t chunk v l2 broken
    output_dir st :
  ~ (400 <= status < 600)%Z ->
  fold_exn (stream_line json_loads) l1 ([], []) = inr st ->
  json_loads t = inr chunk -> delta_content_is chunk v ->
  utf8_valid t = true -> t <> lit "[DONE]" ->
  (forall s, v <> PStr s) ->
  call_api_raw_stream json_loads wo (Resp status (l1 ++ (lit "data: " ++ t) :: l2) broken)
    output_dir
  = inl TypeError.
Proof.
  intros Hs Hf Hj Hc Hu Hd Hv. cbn [call_api_raw_stream]. rewrite (status_ok status Hs).
  rewrite fold_exn_app, Hf. cbn [exn_bind fold_exn]. destruct st as [full chunks].
  rewrite (stream_line_delta_value json_loads full chunks t chunk v Hj Hc Hu Hd).
  destruct v; try reflexivity. exfalso. exact (Hv s eq_refl).
Qed.

(** In stream mode with an output directory, a debug file that cannot be
    written makes [call_api_raw] raise [OSError] although the stream was
    read: first [stream_chunks.json], then [raw_api_response.json]. *)
Theorem call_api_raw_stream_debug_unwritable json_loads wo status lines output_dir st :
  ~ (400 <= status < 600)%Z ->
  fold_exn (stream_line json_loads) lines ([], []) = inr st ->
  output_dir <> [] ->
  (wo (path_join output_dir (lit "stream_chunks.json")) = false ->
   call_api_raw_stream json_loads wo (Resp status lines None) output_dir
   = inl (OSError (path_join output_dir (lit "stream_chunks.json")))) /\
  (wo (path_join output_dir (lit "stream_chunks.json")) = true ->
   wo (path_join output_dir (lit "raw_api_response.json")) = false ->
   call_api_raw_stream json_loads wo (Resp status lines None) output_dir
   = inl (OSError (path_join output_dir (lit "raw_api_response.json")))).
Proof.
  intros Hs Hf Hod. cbn [call_api_raw_stream]. rewrite (status_ok status Hs), Hf.
  destruct st as [full chunks]. cbn [exn_bind].
  unfold debug_dump. destruct output_dir as [|c od]; [contradiction|].
  split.
  - intros H1. rewrite H1. reflexivity.
  - intros H1 H2. rewrite H1. cbn [exn_bind]. rewrite H2. reflexivity.
Qed.

(** ** [is_quota_exceeded_error] *)

Lemma lower_char_idem c : lower_char (lower_char c) = lower_char c.
Proof. destruct c as [[] [] [] [] [] [] [] []]; reflexivity. Qed.

(** [is_quota_exceeded_error] ignores case, and still recognizes a quota
    message wrapped in more text (such as the [Error code: 429 - ...]
    prefix of the client's exceptions). *)
Theorem is_quota_exceeded_error_context m a b :
  is_quota_exceeded_error (lower m) = is_quota_exceeded_error m /\
  (is_quota_exceeded_error m = true -> is_quota_exceeded_error (a ++ m ++ b) = true).
Proof.
  split.
  - unfold is_quota_exceeded_error.
    assert (Hl : lower (lower m) = lower m).
    { unfold lower. rewrite map_map. apply map_ext. exact lower_char_idem. }
    rewrite Hl. reflexivity.
  - unfold is_quota_exceeded_error. intros H.
    apply existsb_exists in H as [kw [Hin Hk]].
    apply existsb_exists. exists kw. split; [exact Hin|].
    apply contains_spec in Hk as [x [y Hxy]]. apply contains_spec.
    exists (lower a ++ x), (y ++ lower b).
    unfold lower in *. rewrite !map_app, Hxy, <- !app_assoc. reflexivity.
Qed.

Lemma call_api_raw_stream_ignored_line_witness :
  call_api_raw_stream sample_json_loads (fun _ => true)
    (Resp 200 ([] ++ lit "data: [DONE]" :: [lit "data: " ++ chunk_hi_text]) None)
    example_output_dir =
  call_api_raw_stream sample_json_loads (fun _ => true)
    (Resp 200 ([] ++ [lit "data: " ++ chunk_hi_text]) None) example_output_dir.
Proof.
  apply call_api_raw_stream_ignored_line. right; split; [reflexivity|right; reflexivity].
Defined.

Lemma call_api_raw_stream_deltas_witness :
  call_api_raw_stream stream_json_loads (fun _ => true)
    (Resp 200 (map (fun x => lit "data: " ++ fst (fst x))
                 [(chunk_role_text, chunk_role, []); (chunk_hi_text, chunk_hi, lit "hi");
                  (chunk_stop_text, chunk_stop, [])]) None)
    example_output_dir =
  inr (stream_response
         (concat (map snd [(chunk_role_text, chunk_role, []); (chunk_hi_text, chunk_hi, lit "hi");
                           (chunk_stop_text, chunk_stop, [])]))
         (map (fun x => snd (fst x))
              [(chunk_role_text, chunk_role, []); (chunk_hi_text, chunk_hi, lit "hi");
               (chunk_stop_text, chunk_stop, [])])).
Proof.
  apply call_api_raw_stream_deltas.
  - lia.
  - repeat apply Forall_cons; try apply Forall_nil; unfold piece_line; cbn [fst snd];
      refine (conj _ (conj _ (conj _ _)));
      try (vm_compute; reflexivity); try (intros H; vm_compute in H; discriminate H).
    + eapply CPNoContent; reflexivity.
    + apply CPContent. do 4 eexists. refine (conj eq_refl (conj _ (conj _ _))); reflexivity.
    + eapply CPNoContent; reflexivity.
  - right. split; reflexivity.
Defined.

Lemma call_api_raw_stream_non_string_delta_witness :
  call_api_raw_stream null_json_loads (fun _ => true)
    (Resp 200 ([] ++ (lit "data: " ++ chunk_null_text) :: []) None) example_output_dir
  = inl TypeError.
Proof.
  apply (call_api_raw_stream_non_string_delta null_json_loads (fun _ => true) 200 []
           chunk_null_text (delta_chunk PNone) PNone [] None example_output_dir ([], [])).
  - lia.
  - reflexivity.
  - vm_compute. reflexivity.
  - do 4 eexists. refine (conj eq_refl (conj _ (conj _ _))); reflexivity.
  - vm_compute. reflexivity.
  - intros H. vm_compute in H. discriminate H.
  - intros s H. discriminate H.
Defined.

Lemma call_api_raw_stream_debug_unwritable_witness :
  (wo_none (path_join example_output_dir (lit "stream_chunks.json")) = false ->
   call_api_raw_stream sample_json_loads wo_none
     (Resp 200 [lit "data: " ++ chunk_hi_text] None) example_output_dir
   = inl (OSError (path_join example_output_dir (lit "stream_chunks.json")))) /\
  (wo_none (path_join example_output_dir (lit "stream_chunks.json")) = true ->
   wo_none (path_join example_output_dir (lit "raw_api_response.json")) = false ->
   call_api_raw_stream sample_json_loads wo_none
     (Resp 200 [lit "data: " ++ chunk_hi_text] None) example_output_dir
   = inl (OSError (path_join example_output_dir (lit "raw_api_response.json")))).
Proof.
  apply (call_api_raw_stream_debug_unwritable sample_json_loads wo_none 200
           [lit "data: " ++ chunk_hi_text] example_output_dir (lit "hi", [chunk_hi])).
  - lia.
  - vm_compute. reflexivity.
  - intros H. vm_compute in H. discriminate H.
Defined.

(** ** The driver up to the first request *)

Lemma prepare_loop_processing read ps : forall i,
  processing_events (snd (prepare_loop read ps i)) = combine (seq (S i) (length ps)) ps.
Proof.
  induction ps as [|p ps IH]; intros i; [reflexivity|].
  cbn [prepare_loop]. unfold prepare_image_data.
  specialize (IH (S i)). destruct (prepare_loop read ps (S i)) as [cs evs].
  cbn [snd] in IH. unfold processing_events in *.
  destruct (read p); cbn [snd flat_map app]; rewrite IH; reflexivity.
Qed.

Lemma prepare_loop_count read ps : forall i,
  length (fst (prepare_loop read ps i)) = length (filter (readable read) ps).
Proof.
  intros i. rewrite prepare_loop_contents.
  induction ps as [|p ps IH]; [reflexivity|].
  cbn [flat_map filter]. unfold readable at 1.
  destruct (read p); cbn [app length]; rewrite IH; reflexivity.
Qed.

(** The driver numbers the images [1], [2], ... in the order of the
    paths, counting the ones that fail: its messages [处理第 i 张图片]
    name exactly the pairs [(i, path)]. *)
Theorem run_until_request_numbering read cfg ts :
  processing_events (fst (run_until_request read cfg ts)) =
  combine (seq 1 (length (image_paths_of cfg))) (image_paths_of cfg).
Proof.
  unfold run_until_request.
  pose proof (prepare_loop_processing read (image_paths_of cfg) 0) as H.
  destruct (prepare_loop read (image_paths_of cfg) 0) as [cs log].
  cbn [snd] in H. unfold processing_events in *.
  destruct cs; cbn [fst]; rewrite flat_map_app, H; cbn; rewrite app_nil_r; reflexivity.
Qed.

(** When the driver sends its first request, it has printed, last, the
    number of images read, the output directory [output_<timestamp>] and
    the request, and the request carries one image per readable path. *)
Theorem run_until_request_sending read cfg ts urls :
  snd (run_until_request read cfg ts) = Requested urls ->
  length urls = length (filter (readable read) (image_paths_of cfg)) /\
  exists pre, fst (run_until_request read cfg ts) =
    pre ++ [DSending (length (filter (readable read) (image_paths_of cfg)));
            DOutputDir (lit "output_" ++ ts); DRawRequest].
Proof.
  unfold run_until_request.
  pose proof (prepare_loop_count read (image_paths_of cfg) 0) as Hc.
  destruct (prepare_loop read (image_paths_of cfg) 0) as [cs log].
  cbn [fst] in Hc. destruct cs as [|c cs]; cbn [snd fst]; [discriminate|].
  intros H. injection H as <-. rewrite <- Hc.
  split; [reflexivity|]. exists log. reflexivity.
Qed.

Lemma run_until_request_sending_witness :
  snd (run_until_request example_read_file
         (PathList [lit "a.png"; lit "b.png"; lit "c.png"]) (lit "20250828_120000"))
  = Requested [lit "data:image/png;base64,AQID"; lit "data:image/png;base64,BA=="] /\
  length [lit "data:image/png;base64,AQID"; lit "data:image/png;base64,BA=="]
  = length (filter (readable example_read_file)
              (image_paths_of (PathList [lit "a.png"; lit "b.png"; lit "c.png"]))) /\
  exists pre, fst (run_until_request example_read_file
                     (PathList [lit "a.png"; lit "b.png"; lit "c.png"]) (lit "20250828_120000")) =
    pre ++ [DSending (length (filter (readable example_read_file)
                                (image_paths_of (PathList [lit "a.png"; lit "b.png"; lit "c.png"]))));
            DOutputDir (lit "output_" ++ lit "20250828_120000"); DRawRequest].
Proof.
  assert (H : snd (run_until_request example_read_file
                     (PathList [lit "a.png"; lit "b.png"; lit "c.png"]) (lit "20250828_120000"))
              = Requested [lit "data:image/png;base64,AQID"; lit "data:image/png;base64,BA=="])
    by (vm_compute; reflexivity).
  split; [exact H|].
  exact (run_until_request_sending example_read_file
           (PathList [lit "a.png"; lit "b.png"; lit "c.png"]) (lit "20250828_120000") _ H).
Defined.
